(** * mysql-utilities: console line editor, history, completion and the
      failover dashboard

    A shallow embedding of [mysql_utilities/common/console.py] and of the
    list-window and reconnection code of
    [mysql_utilities/command/failover_console.py].  Python integers are [Z],
    Python strings are lists of characters, exceptions are [None] in
    [option], and what is written to the terminal is collected as text. *)

From Stdlib Require Import ZArith Ascii String Lia.
From stdpp Require Import base option list gmap strings.

Local Open Scope Z_scope.

(** ** Python built-ins used by the sources *)

Module PyStr.

Abbreviation str := (list ascii).

(** String literals of the sources. *)
Definition lit (s : string) : str := list_ascii_of_string s.

(** [len(l)] *)
Definition len {A} (l : list A) : Z := Z.of_nat (length l).

(** How a slice bound is adjusted against the length [n]: a negative bound
    counts from the end, and the result is clipped to [0..n]. *)
Definition clamp_index (n i : Z) : Z :=
  if i <? 0 then Z.max 0 (i + n) else Z.min i n.

(** [l[lo:hi]] *)
Definition slice {A} (l : list A) (lo hi : Z) : list A :=
  let a := clamp_index (len l) lo in
  let b := clamp_index (len l) hi in
  take (Z.to_nat (b - a)) (drop (Z.to_nat a) l).

(** [l[lo:]] *)
Definition slice_from {A} (l : list A) (lo : Z) : list A :=
  drop (Z.to_nat (clamp_index (len l) lo)) l.

(** [l[i]]; [None] is IndexError. *)
Definition getitem {A} (l : list A) (i : Z) : option A :=
  let j := if i <? 0 then i + len l else i in
  if (j <? 0) || (len l <=? j) then None else l !! Z.to_nat j.

(** [l[i] = x]; [None] is IndexError. *)
Definition setitem {A} (l : list A) (i : Z) (x : A) : option (list A) :=
  let j := if i <? 0 then i + len l else i in
  if (j <? 0) || (len l <=? j) then None else Some (<[Z.to_nat j := x]> l).

(** Scan for the character [c]; [k] is the index of the head of [s]. *)
Fixpoint find_aux (c : ascii) (s : str) (k : Z) : Z :=
  match s with
  | [] => -1
  | x :: s' => if Ascii.eqb x c then k else find_aux c s' (k + 1)
  end.

(** [s.find(c, start)] for a one-character needle. *)
Definition find (s : str) (c : ascii) (start : Z) : Z :=
  let a := clamp_index (len s) start in
  find_aux c (drop (Z.to_nat a) s) a.

(** [s.split(sep)] for a one-character separator. *)
Fixpoint split (sep : ascii) (s : str) : list str :=
  match s with
  | [] => [[]]
  | x :: s' =>
      if Ascii.eqb x sep then [] :: split sep s'
      else match split sep s' with
           | w :: ws => (x :: w) :: ws
           | [] => [[x]]
           end
  end.

Fixpoint lstrip_by (p : ascii → bool) (s : str) : str :=
  match s with
  | [] => []
  | x :: s' => if p x then lstrip_by p s' else s
  end.

Definition strip_by (p : ascii → bool) (s : str) : str :=
  rev (lstrip_by p (rev (lstrip_by p s))).

(** [s.strip(c)] for a one-character set. *)
Definition strip (c : ascii) (s : str) : str := strip_by (Ascii.eqb c) s.

(** [s.strip()]: the characters below 256 for which [str.isspace] holds. *)
Definition isspace (x : ascii) : bool :=
  let n := nat_of_ascii x in
  ((9 <=? n) && (n <=? 13) || (28 <=? n) && (n <=? 32) ||
   (n =? 133) || (n =? 160))%nat.

Definition strip_ws (s : str) : str := strip_by isspace s.

(** [s.lower()] on the letters A to Z. *)
Definition lower_char (x : ascii) : ascii :=
  let n := nat_of_ascii x in
  if ((65 <=? n) && (n <=? 90))%nat then ascii_of_nat (n + 32) else x.

Definition lower (s : str) : str := map lower_char s.

(** [s == t] *)
Definition eqs (s t : str) : bool := bool_decide (s = t).

(** [s.startswith(p)] *)
Definition startswith (s p : str) : bool := eqs (take (length p) s) p.

(** The truth value of a list. *)
Definition truthy {A} (l : list A) : bool :=
  match l with [] => false | _ => true end.

(** [sep.join(l)] *)
Fixpoint join (sep : str) (l : list str) : str :=
  match l with
  | [] => []
  | [x] => x
  | x :: l' => x ++ sep ++ join sep l'
  end.

(** [c * n] *)
Definition times (c : ascii) (n : Z) : str := replicate (Z.to_nat n) c.

Definition NL : ascii := ascii_of_nat 10.
Definition BS : ascii := ascii_of_nat 8.
Definition SP : ascii := " "%char.
Definition DOLLAR : ascii := "$"%char.
Definition ESC : ascii := ascii_of_nat 27.
Definition HT : ascii := ascii_of_nat 9.
Definition QUOTE : ascii := ascii_of_nat 34.

End PyStr.

Import PyStr.

(** ** [_CommandHistory] *)

Module CommandHistory.

Record t := mk { position : Z; commands : list str; max_size : Z }.

(** [__init__] with [options = {'max_size': n}]. *)
Definition init (n : Z) : t := mk 0 [] n.

Definition add (command : str) (h : t) : option t :=
  if len (commands h) <? max_size h then
    Some (mk 0 (commands h ++ [command]) (max_size h))
  else if position h =? 0 then
    cs ← setitem (commands h) (max_size h - 1) command;
    Some (mk (position h) cs (max_size h))
  else
    cs ← setitem (commands h) (position h - 1) command;
    Some (mk (position h) cs (max_size h)).

Definition __next__ (h : t) : option (str * t) :=
  if len (commands h) =? 0 then Some ([], h)
  else
    let p := if position h =? len (commands h) - 1 then 0
             else position h + 1 in
    c ← getitem (commands h) p;
    Some (c, mk p (commands h) (max_size h)).

Definition previous (h : t) : option (str * t) :=
  if len (commands h) =? 0 then Some ([], h)
  else
    let p := if position h =? 0 then len (commands h) - 1
             else position h - 1 in
    c ← getitem (commands h) p;
    Some (c, mk p (commands h) (max_size h)).

(** Call sequences: [add] for each command of a list in order, and
    [previous] called [n] times, collecting what it returns. *)
Fixpoint add_all (cs : list str) (h : t) : option t :=
  match cs with
  | [] => Some h
  | c :: cs' => h' ← add c h; add_all cs' h'
  end.

Fixpoint previous_n (n : nat) (h : t) : option (list str * t) :=
  match n with
  | O => Some ([], h)
  | S n' =>
      r ← previous h;
      r' ← previous_n n' r.2;
      Some (r.1 :: r'.1, r'.2)
  end.

End CommandHistory.

(** ** [_Command]: the line being edited

    Every method returns the new state and the text it wrote to the
    terminal. *)

Module Command.

Record t := mk { prompt : str; position : Z; command : str; length : Z }.

(** [__init__] *)
Definition init (prompt : str) : t := mk prompt 0 [] 0.

Definition _erase_portion (num : Z) : str :=
  concat (replicate (Z.to_nat num) [BS; SP; BS]).

Definition get_command (c : t) : str := command c.

(** The [for] loop of [get_nearest_option]: [n] indexes are left to
    visit, going down from [i]. *)
Fixpoint nearest_scan (n : nat) (i : Z) (c : t) : option str :=
  match n with
  | O => Some (lit "ERROR")
  | S n' =>
      ch ← getitem (command c) i;
      if Ascii.eqb ch SP
      then Some (strip SP (slice (command c) (i + 1) (position c)))
      else nearest_scan n' (i - 1) c
  end.

Definition get_nearest_option (c : t) : option str :=
  let parts := split SP (command c) in
  if position c <? length c then
    p0 ← getitem parts 0;
    nearest_scan (Z.to_nat (position c - 1 - (len p0 - 1))) (position c - 1) c
  else getitem parts (len parts - 1).

Definition erase_command (c : t) : t * str :=
  (mk (prompt c) (position c) [] (length c),
   times SP (length c - position c) ++ _erase_portion (length c)).

Definition _erase_inline (backspace : bool) (c : t) : str :=
  if position c <? length c then
    let num_erase := 1 + length c - position c in
    (if backspace then [BS] else []) ++
    times SP num_erase ++ times BS num_erase
  else if backspace then _erase_portion 1
  else [].

Definition home_keypress (c : t) : t * str :=
  (mk (prompt c) 0 (command c) (length c), times BS (position c)).

Definition end_keypress (c : t) : t * str :=
  (mk (prompt c) (length c) (command c) (length c),
   slice (command c) (position c) (length c)).

Definition delete_keypress (c : t) : t * str :=
  if position c <? length c then
    if length c =? 1 then
      (mk (prompt c) (position c) [] 0, [SP; BS])
    else if 0 <? length c then
      let old_command := command c in
      let cmd1 := slice old_command 0 (position c) in
      let cmd2 := if position c <? length c
                  then cmd1 ++ slice_from old_command (position c + 1)
                  else cmd1 in
      let spaces := len (slice_from cmd2 (position c)) in
      (mk (prompt c) (position c) cmd2 (len cmd2),
       _erase_inline false c ++ slice_from cmd2 (position c) ++
       times BS spaces)
    else (c, [])
  else (c, []).

Definition backspace_keypress (c : t) : t * str :=
  if position c <=? 0 then (c, [])
  else if position c <? length c then
    let cmd' := slice (command c) 0 (position c - 1) ++
                slice_from (command c) (position c) in
    (mk (prompt c) (position c - 1) cmd' (length c - 1),
     _erase_inline true c ++ slice_from cmd' (position c - 1) ++
     times BS (length c - position c))
  else
    (mk (prompt c) (position c - 1)
        (slice (command c) 0 (length c - 1)) (length c - 1),
     _erase_portion 1).

Definition left_arrow_keypress (c : t) : t * str :=
  if 0 <? position c
  then (mk (prompt c) (position c - 1) (command c) (length c), [BS])
  else (c, []).

Definition right_arrow_keypress (c : t) : t * str :=
  if position c <? length c
  then (mk (prompt c) (position c + 1) (command c) (length c),
        slice (command c) (position c) (position c + 1))
  else (c, []).

Definition replace_command (new_cmd : str) (c : t) : t * str :=
  match new_cmd with
  | [] => (c, [])
  | _ => (mk (prompt c) (len new_cmd) new_cmd (len new_cmd),
          _erase_portion (length c) ++ new_cmd)
  end.

(** [key] is [None] for Python's [None]. *)
Definition add (key : option str) (c : t) : t * str :=
  match key with
  | None => (c, [])
  | Some key =>
      if position c <? length c then
        let num_erase := length c - position c in
        let cmd' := slice (command c) 0 (position c) ++ key ++
                    slice_from (command c) (position c) in
        let position' := position c + len key in
        (mk (prompt c) position' cmd' (length c + len key),
         times SP num_erase ++ times BS num_erase ++
         slice_from cmd' (position c) ++
         times BS (length c - position' + len key))
      else
        (mk (prompt c) (position c + len key) (command c ++ key)
            (length c + len key),
         key)
  end.

Definition display_command (c : t) : str := prompt c ++ command c.

Definition clear (c : t) : t := mk (prompt c) 0 [] 0.

(** The invariant of the line buffer. *)
Definition wf (c : t) : Prop :=
  0 <= position c ∧ position c <= length c ∧ length c = len (command c).

End Command.

(** ** [Console] *)

Module Console.

Definition _COMMAND_COMPLETE : Z := 0.
Definition _OPTION_COMPLETE : Z := 1.
Definition _VARIABLE_COMPLETE : Z := 2.

(** The names of the command keys. *)
Inductive cmd_key :=
  | DELETE_POSIX | DELETE_MAC | DELETE_WIN | ENTER_POSIX | ENTER_WIN
  | ESCAPE | ARROW_UP | ARROW_DN | ARROW_RT | ARROW_LT | TAB
  | BACKSPACE_POSIX | BACKSPACE_WIN | SPECIAL_WIN | HOME | END.

(** [_COMMAND_KEY.get(key)].  The dictionary literal binds the key 0x7f
    twice; the later binding, BACKSPACE_POSIX, is the one it keeps. *)
Definition _COMMAND_KEY (key : str) : option cmd_key :=
  if eqs key [ascii_of_nat 127] then Some BACKSPACE_POSIX
  else if eqs key (ESC :: lit "[3~") then Some DELETE_MAC
  else if eqs key [NL] then Some ENTER_POSIX
  else if eqs key [ascii_of_nat 13] then Some ENTER_WIN
  else if eqs key [ESC] then Some ESCAPE
  else if eqs key (ESC :: lit "[A") then Some ARROW_UP
  else if eqs key (ESC :: lit "[B") then Some ARROW_DN
  else if eqs key (ESC :: lit "[C") then Some ARROW_RT
  else if eqs key (ESC :: lit "[D") then Some ARROW_LT
  else if eqs key [ascii_of_nat 9] then Some TAB
  else if eqs key [ascii_of_nat 224] then Some SPECIAL_WIN
  else if eqs key [BS] then Some BACKSPACE_WIN
  else if eqs key (ESC :: lit "OH") then Some HOME
  else if eqs key (ESC :: lit "OF") then Some END
  else None.

(** [_WIN_COMMAND_KEY.get(key)] *)
Definition _WIN_COMMAND_KEY (key : str) : option cmd_key :=
  if eqs key (lit "S") then Some DELETE_WIN
  else if eqs key (lit "H") then Some ARROW_UP
  else if eqs key (lit "P") then Some ARROW_DN
  else if eqs key (lit "M") then Some ARROW_RT
  else if eqs key (lit "K") then Some ARROW_LT
  else if eqs key (lit "G") then Some HOME
  else if eqs key (lit "O") then Some END
  else None.

(** What [getch] returns.  Both versions of [getch], the one of [msvcrt]
    and the one defined on [os.read], return a bytes object; the keys of
    [_COMMAND_KEY] and [_WIN_COMMAND_KEY] and the text of the line are
    str. *)
Inductive key_value :=
  | Bytes (b : list ascii)
  | Str (s : str).

(** [getch()], on the bytes that the terminal delivers to its read. *)
Definition getch (read : list ascii) : key_value := Bytes read.

(** [key in _COMMAND_KEY] and [_COMMAND_KEY[key]] for what [getch]
    returned: a bytes object equals no str, so it is no key of the
    dictionary. *)
Definition command_key (key : key_value) : option cmd_key :=
  match key with
  | Str s => _COMMAND_KEY s
  | Bytes _ => None
  end.

(** [_WIN_COMMAND_KEY.get(key)] for what [getch] returned. *)
Definition win_command_key (key : key_value) : option cmd_key :=
  match key with
  | Str s => _WIN_COMMAND_KEY s
  | Bytes _ => None
  end.

(** An entry of the command catalog. *)
Record entry := mk_entry { name : str; alias : str; text : str }.

Definition _BASE_COMMANDS : list entry :=
  [ mk_entry (lit "help") (lit "help commands") (lit "Show this list.");
    mk_entry (lit "exit") (lit "quit") (lit "Exit the console.");
    mk_entry (lit "set <variable>=<value>") []
      (lit "Store a variable for recall in commands.");
    mk_entry (lit "show options") []
      (lit "Display list of options specified by the user on launch.");
    mk_entry (lit "show variables") [] (lit "Display list of variables.");
    mk_entry (lit "<ENTER>") [] (lit "Press ENTER to execute command.");
    mk_entry (lit "<ESCAPE>") []
      (lit "Press ESCAPE to clear the command entry.");
    mk_entry (lit "<DOWN>") []
      (lit "Press DOWN to retrieve the previous command.");
    mk_entry (lit "<UP>") []
      (lit "Press UP to retrieve the next command in history.");
    mk_entry (lit "<TAB>") []
      (lit "Press TAB for type completion of utility, option, or variable names.");
    mk_entry (lit "<TAB><TAB>") []
      (lit "Press TAB twice for list of matching type completion (context sensitive).") ].

Section WithCollaborators.

(** The modules [common.variables] and [common.format] and the standard
    [shlex] are not part of the sources at hand; the console is modelled
    over what it calls in them.  [V] is the state of the [Variables]
    object.  [find_variable vars n] is [var[n]] for the [var] that
    [find_variable(n)] returns, and [None] when that is [None].
    [get_matches] and [show_variables] take [None] where the console
    passes no prefix or no list; a match is the pair of the single-item
    dictionary.  [show_variables] and [print_dictionary_list] give the
    text they print, the latter for the columns Command and Description
    of the given rows at the given width.  [shlex_split] gives the tokens,
    or the message of the ValueError. *)
Context {V : Type}.
Variable find_variable : V → str → option str.
Variable add_variable : str → str → V → V.
Variable get_matches : V → option str → list (str * str).
Variable show_variables : V → option (list (str * str)) → str.
Variable print_dictionary_list : list entry → Z → str.
Variable shlex_split : str → str + list str.
(** [os.name == 'nt'] and [os.name == 'posix'] *)
Variable os_nt : bool.
Variable os_posix : bool.
(** [options.get('welcome', ...)] and [options.get('goodbye', ...)] *)
Variable welcome goodbye : str.

(** The fields of a [Console]; [stdout] is the text printed so far. *)
Record t := mk {
  verbosity : bool;
  tab_count : Z;
  base_commands : list entry;
  type_complete_mode : Z;
  cmd_line : Command.t;
  width : Z;
  commands : option str;
  custom_commands : bool;
  quiet : bool;
  variables : V;
  history : CommandHistory.t;
  position : Z;
  errors : list str;
  stdout : str
}.

Definition set_tab_count (n : Z) (c : t) : t :=
  mk (verbosity c) n (base_commands c) (type_complete_mode c) (cmd_line c)
     (width c) (commands c) (custom_commands c) (quiet c) (variables c)
     (history c) (position c) (errors c) (stdout c).

Definition set_type_complete_mode (m : Z) (c : t) : t :=
  mk (verbosity c) (tab_count c) (base_commands c) m (cmd_line c)
     (width c) (commands c) (custom_commands c) (quiet c) (variables c)
     (history c) (position c) (errors c) (stdout c).

Definition set_cmd_line (l : Command.t) (c : t) : t :=
  mk (verbosity c) (tab_count c) (base_commands c) (type_complete_mode c) l
     (width c) (commands c) (custom_commands c) (quiet c) (variables c)
     (history c) (position c) (errors c) (stdout c).

Definition set_variables (v : V) (c : t) : t :=
  mk (verbosity c) (tab_count c) (base_commands c) (type_complete_mode c)
     (cmd_line c) (width c) (commands c) (custom_commands c) (quiet c) v
     (history c) (position c) (errors c) (stdout c).

Definition set_history (h : CommandHistory.t) (c : t) : t :=
  mk (verbosity c) (tab_count c) (base_commands c) (type_complete_mode c)
     (cmd_line c) (width c) (commands c) (custom_commands c) (quiet c)
     (variables c) h (position c) (errors c) (stdout c).

Definition set_position (n : Z) (c : t) : t :=
  mk (verbosity c) (tab_count c) (base_commands c) (type_complete_mode c)
     (cmd_line c) (width c) (commands c) (custom_commands c) (quiet c)
     (variables c) (history c) n (errors c) (stdout c).

Definition set_errors (e : list str) (c : t) : t :=
  mk (verbosity c) (tab_count c) (base_commands c) (type_complete_mode c)
     (cmd_line c) (width c) (commands c) (custom_commands c) (quiet c)
     (variables c) (history c) (position c) e (stdout c).

(** [sys.stdout.write(s)] *)
Definition write (s : str) (c : t) : t :=
  mk (verbosity c) (tab_count c) (base_commands c) (type_complete_mode c)
     (cmd_line c) (width c) (commands c) (custom_commands c) (quiet c)
     (variables c) (history c) (position c) (errors c) (stdout c ++ s).

(** [print(s)] *)
Definition print (s : str) (c : t) : t := write (s ++ [NL]) c.

(** A method of [self.cmd_line] run on the console: the line is replaced
    and what the method wrote goes to the terminal. *)
Definition on_cmd_line (f : Command.t → Command.t * str) (c : t) : t :=
  let r := f (cmd_line c) in write r.2 (set_cmd_line r.1 c).

(** [__init__]; [options] gives prompt, width, commands, custom, quiet and
    verbosity, and [vars] is the [Variables] object after the variables of
    the options were added. *)
Definition init (new_base_commands : list entry) (prompt : str) (width : Z)
    (commands : option str) (custom quiet verbosity : bool) (vars : V) : t :=
  mk verbosity 0 (new_base_commands ++ _BASE_COMMANDS) _COMMAND_COMPLETE
     (Command.init prompt) width commands custom quiet vars
     (CommandHistory.init 20) 0 [] [].

Definition show_errors (c : t) : t :=
  if quiet c then c
  else
    let c1 := match errors c with
              | [] => print (lit "No errors to display." ++ [NL]) (print [] c)
              | _ => c
              end in
    foldl (λ acc error, print (error ++ [NL]) (print [] acc)) c1 (errors c).

Definition clear_errors (c : t) : t :=
  if quiet c then c else print [] (set_errors [] c).

Definition show_last_error (c : t) : t :=
  if quiet c then c
  else match last (errors c) with
       | None => print (lit "No error to display." ++ [NL]) (print [] c)
       | Some e => print (e ++ [NL]) (print [] c)
       end.

Definition show_custom_command_help (arg : str) (c : t) : t :=
  if quiet c then c
  else print ([NL] ++ lit "No commands like '" ++ arg ++ lit "' exist." ++ [NL]) c.

Definition do_custom_tab (prefix : str) (c : t) : t := c.

Definition do_custom_option_tab (prefix : str) (c : t) : t :=
  if quiet c then c
  else print ([NL; NL] ++ lit "No custom commands found." ++ [NL]) c.

Definition is_valid_custom_command (command_text : str) : bool := false.

Definition execute_custom_command (command : str) (parameters : list str)
    (c : t) : t := c.

Definition show_custom_options (c : t) : t := c.

Definition get_commands (cmd_prefix : str) (c : t) : list entry :=
  let stop := len cmd_prefix in
  let start := 0 in
  filter (λ cmd, eqs (slice (name cmd) start stop) cmd_prefix ||
                 eqs (slice (alias cmd) start stop) cmd_prefix = true)
         (base_commands c).

Definition do_base_command_tab (command_text : str) (matches : list entry)
    (c : t) : t :=
  if tab_count c =? 2 then
    let c1 := print [NL] c in
    let c2 := write (print_dictionary_list matches (width c1)) c1 in
    let c3 := print [] c2 in
    let c4 := write (Command.display_command (cmd_line c3)) c3 in
    set_tab_count 0 c4
  else
    match matches with
    | [m] =>
        let new_cmd :=
          if eqs (slice (name m) 0 (len command_text)) command_text
          then name m ++ [SP] else alias m ++ [SP] in
        let c1 := set_tab_count 0 c in
        on_cmd_line
          (Command.add (Some (slice_from new_cmd (len command_text)))) c1
    | _ => c
    end.

Definition do_command_tab (command_text : str) (c : t) : t :=
  let matches := get_commands command_text c in
  if 0 <? len matches then do_base_command_tab command_text matches c
  else if custom_commands c then do_custom_tab command_text c
  else c.

Definition do_option_tab (prefix : str) (c : t) : t :=
  let full_command := Command.get_command (cmd_line c) in
  let matches := get_commands (strip SP full_command) c in
  if 0 <? len matches then do_base_command_tab full_command matches c
  else if custom_commands c then
    if eqs (lower (slice full_command 0 4)) (lit "help")
    then do_custom_tab prefix c
    else do_custom_option_tab prefix c
  else c.

Definition _set_complete_mode (c : t) : option (str * t) :=
  let buf := Command.get_command (cmd_line c) in
  let parts := split SP buf in
  if (0 <? len buf) && (len parts =? 1) then
    Some ([], set_type_complete_mode _COMMAND_COMPLETE c)
  else
    segment ← Command.get_nearest_option (cmd_line c);
    if 0 <? find segment DOLLAR 0
    then Some (segment, set_type_complete_mode _VARIABLE_COMPLETE c)
    else Some (segment, set_type_complete_mode _OPTION_COMPLETE c).

(** The [for] loop of [do_variable_tab]: [n] indexes are left to visit,
    going down from [i]; the result is [(variable, start_var)]. *)
Fixpoint last_dollar (n : nat) (i : Z) (segment : str) (acc : str * Z)
    : option (str * Z) :=
  match n with
  | O => Some acc
  | S n' =>
      ch ← getitem segment i;
      if Ascii.eqb ch SP then Some acc
      else if Ascii.eqb ch DOLLAR
      then last_dollar n' (i - 1) segment (slice_from segment (i + 1), i)
      else last_dollar n' (i - 1) segment acc
  end.

Definition do_variable_tab (segment : str) (c : t) : option t :=
  let stop := len segment in
  r ← last_dollar (Z.to_nat (stop - 1)) (stop - 1) segment ([], 0);
  let variable := r.1 in
  let start_var := r.2 in
  let matches :=
    if start_var =? stop then get_matches (variables c) None
    else get_matches (variables c) (Some variable) in
  if tab_count c =? 2 then
    let c1 :=
      if 0 <? len matches
      then write (show_variables (variables c) (Some matches)) c
      else write (show_variables (variables c) (Some [])) c in
    let c2 := write (Command.display_command (cmd_line c1)) c1 in
    Some (set_tab_count 0 c2)
  else
    match matches with
    | [m] =>
        let new_var := m.1 ++ [SP] in
        let c1 :=
          on_cmd_line (Command.add (Some (slice_from new_var (len variable)))) c in
        Some (set_tab_count 0 c1)
    | _ => Some c
    end.

Definition show_command_help (cmds : list entry) (c : t) : t :=
  if quiet c then c
  else print [] (write (print_dictionary_list cmds (width c)) (print [] c)).

Definition show_help (parameter : str) (c : t) : t :=
  if quiet c then c
  else if eqs parameter [] || eqs (lower parameter) (lit "commands") then
    print [] (write (print_dictionary_list (base_commands c) (width c))
                    (print [] c))
  else
    let matches := get_commands parameter c in
    if 0 <? len matches then show_command_help matches c
    else if custom_commands c then show_custom_command_help parameter c
    else c.

Definition _process_command_keys (key : cmd_key) (c : t) : option t :=
  match key with
  | ESCAPE => Some (on_cmd_line Command.erase_command c)
  | DELETE_POSIX | DELETE_WIN | DELETE_MAC =>
      Some (set_tab_count 0 (on_cmd_line Command.delete_keypress c))
  | ARROW_UP =>
      r ← CommandHistory.previous (history c);
      Some (on_cmd_line (Command.replace_command r.1) (set_history r.2 c))
  | ARROW_DN =>
      r ← CommandHistory.__next__ (history c);
      Some (on_cmd_line (Command.replace_command r.1) (set_history r.2 c))
  | ARROW_LT => Some (on_cmd_line Command.left_arrow_keypress c)
  | ARROW_RT => Some (on_cmd_line Command.right_arrow_keypress c)
  | BACKSPACE_POSIX | BACKSPACE_WIN =>
      Some (on_cmd_line Command.backspace_keypress c)
  | HOME => Some (on_cmd_line Command.home_keypress c)
  | END => Some (on_cmd_line Command.end_keypress c)
  | _ =>
      r ← _set_complete_mode c;
      let segment := r.1 in
      let c1 := set_tab_count (tab_count r.2 + 1) r.2 in
      if type_complete_mode c1 =? _COMMAND_COMPLETE
      then Some (do_command_tab (Command.get_command (cmd_line c1)) c1)
      else if type_complete_mode c1 =? _OPTION_COMPLETE
      then Some (do_option_tab segment c1)
      else do_variable_tab segment c1
  end.

(** [None] is the ValueError of unpacking [split('=')] into two names. *)
Definition _add_variable (set_command : str) (c : t) : option t :=
  if find set_command "="%char 0 <=? 0 then
    Some (print ([NL; NL] ++
                 lit "SET command invalid. Syntax: SET <NAME> = <value>") c)
  else
    match split "="%char set_command with
    | [name; value] =>
        let name := strip DOLLAR (strip_ws name) in
        let value := strip_ws value in
        Some (set_variables (add_variable name value (variables c)) c)
    | _ => None
    end.

(** The body of the [while] loop of [_replace_variables], on the pair of
    [i] and [new_cmd]. *)
Definition replace_step (vars : V) (st : Z * str) : Z * str :=
  let new_cmd := st.2 in
  let i := find new_cmd DOLLAR st.1 in
  if 0 <? i then
    let j := find new_cmd SP i in
    let j := if j =? -1 then len new_cmd else j in
    if i <? j then
      let var_name := slice new_cmd (i + 1) j in
      match find_variable vars var_name with
      | Some value => (i, slice new_cmd 0 i ++ value ++ slice_from new_cmd j)
      | None => (j, new_cmd)
      end
    else (i, new_cmd)
  else (i, new_cmd).

(** The loop [while i > 0], run for at most [fuel] passes; [None] when it
    has not left the loop by then. *)
Fixpoint replace_loop (fuel : nat) (vars : V) (st : Z * str) : option str :=
  if 0 <? st.1 then
    match fuel with
    | O => None
    | S fuel' => replace_loop fuel' vars (replace_step vars st)
    end
  else Some st.2.

Definition _replace_variables (fuel : nat) (vars : V) (cmd_string : str)
    : option str :=
  replace_loop fuel vars (1, cmd_string).

(** The result is [(cmd, parameters)], with [cmd = None] after a
    ValueError, and the text of the warning. *)
Definition _get_util_parameters (cmd_string : str)
    : option str * list str * str :=
  match shlex_split cmd_string with
  | inl err =>
      (None, [],
       [NL] ++ lit "WARNING: Unable to execute command, reason: " ++ err ++ [NL])
  | inr tokens =>
      match tokens with
      | t0 :: (_ :: _) as rest => (Some t0, rest, [])
      | _ => (Some (strip SP cmd_string), [], [])
      end
  end.

(** Every normal path but exit ends in the last three lines of
    [_do_command]. *)
Definition finish_command (c : t) : bool * t :=
  (false, set_tab_count 0 (set_cmd_line (Command.clear (cmd_line c)) c)).

(** [_do_command]; [None] when a call raises or the substitution has not
    returned within [fuel] passes. *)
Definition _do_command (fuel : nat) (command : str) (c : t)
    : option (bool * t) :=
  command ← _replace_variables fuel (variables c) (strip SP command);
  let c :=
    if verbosity c
    then print ([NL] ++ lit "Executing command: " ++ command) c else c in
  if startswith (lower command) (lit "set ") then
    c1 ← _add_variable (slice_from command 4) c;
    Some (finish_command (if quiet c1 then c1 else print [] c1))
  else if eqs (lower (slice command 0 11)) (lit "show errors") then
    Some (finish_command (show_errors c))
  else if eqs (lower (slice command 0 12)) (lit "clear errors") then
    Some (finish_command (clear_errors c))
  else if eqs (lower (slice command 0 15)) (lit "show last error") then
    Some (finish_command (show_last_error c))
  else if eqs (lower (slice command 0 14)) (lit "show variables") then
    Some (finish_command (write (show_variables (variables c) None) c))
  else if custom_commands c &&
          eqs (lower (slice command 0 12)) (lit "show options") then
    Some (finish_command (show_custom_options c))
  else
    let r := _get_util_parameters command in
    let c := write r.2 c in
    match r.1.1 with
    | None => Some (false, c)
    | Some cmd =>
        let parameters := r.1.2 in
        if eqs (lower cmd) (lit "help") then
          let token := match parameters with p :: _ => p | [] => [] end in
          let c1 := show_help token c in
          Some (finish_command
                  (set_tab_count 0
                     (set_cmd_line (Command.clear (cmd_line c1)) c1)))
        else if eqs cmd [] then Some (finish_command (print [] c))
        else if eqs (lower cmd) (lit "exit") || eqs (lower cmd) (lit "quit")
        then Some (true, print [] c)
        else if custom_commands c then
          if negb (is_valid_custom_command cmd) then
            Some (finish_command
                    (print ([NL; NL] ++ lit "Unknown command: " ++ cmd ++
                            [SP] ++ join [SP] parameters ++ [NL]) c))
          else
            Some (finish_command
                    (print [] (execute_custom_command cmd parameters c)))
        else Some (finish_command c)
    end.

(** One pass of the loop of [get_user_command] for a key that is in
    [_COMMAND_KEY] and names [key]. *)
Definition named_key (key : cmd_key) (c : t) : option t :=
  _process_command_keys key c.

(** The pass for a key that is not in [_COMMAND_KEY], when the key is a
    str. *)
Definition plain_key (key : str) (c : t) : t :=
  on_cmd_line (Command.add (Some key)) c.

(** [self.cmd_line.add(key)] for what [getch] returned: [add] joins the
    key to the text of the line with [+] or [+=], in both of its branches,
    and for a bytes object that is a TypeError, [None] here. *)
Definition add_key (key : key_value) (c : t) : option t :=
  match key with
  | Str s => Some (plain_key s c)
  | Bytes _ => None
  end.

Definition is_enter (key : cmd_key) : bool :=
  match key with ENTER_POSIX | ENTER_WIN => true | _ => false end.

(** How [get_user_command] ends: it returns the line and leaves the keys
    not read, an exception leaves it, or [getch] waits for a key with no
    more input given. *)
Inductive reading :=
  | Entered (cmd_string : str) (keys : list key_value) (c : t)
  | Failed
  | Blocked (c : t).

(** The loop of [get_user_command] over the values that [getch] returns
    one after the other. *)
Fixpoint user_command_loop (keys : list key_value) (c : t) : reading :=
  match keys with
  | [] => Blocked c
  | key :: keys' =>
      match command_key key with
      | Some SPECIAL_WIN =>
          if negb os_posix then
            match keys' with
            | [] => Blocked c
            | key2 :: keys'' =>
                match win_command_key key2 with
                | None => user_command_loop keys'' c
                | Some k =>
                    match named_key k c with
                    | None => Failed
                    | Some c1 =>
                        if is_enter k
                        then Entered (Command.get_command (cmd_line c1))
                               keys'' (set_position 0 c1)
                        else user_command_loop keys'' c1
                    end
                end
            end
          else
            match named_key SPECIAL_WIN c with
            | None => Failed
            | Some c1 => user_command_loop keys' c1
            end
      | Some k =>
          match named_key k c with
          | None => Failed
          | Some c1 =>
              if is_enter k
              then Entered (Command.get_command (cmd_line c1)) keys'
                     (set_position 0 c1)
              else user_command_loop keys' c1
          end
      | None =>
          match add_key key c with
          | None => Failed
          | Some c1 => user_command_loop keys' c1
          end
      end
  end.

Definition get_user_command (keys : list key_value) (c : t) : reading :=
  let c1 := write (Command.display_command (cmd_line c)) c in
  user_command_loop keys (set_tab_count 0 c1).

(** What [run_console] does to a command before [_do_command]. *)
Definition prepare (command : str) : str :=
  let command := strip SP (strip NL command) in
  let command := if os_nt then strip QUOTE command else command in
  strip QUOTE command.

(** A [for] loop over commands that leaves at the first command for which
    [_do_command] returns True; the flag tells whether it left that way. *)
Fixpoint run_commands (fuel : nat) (command_list : list str) (c : t)
    : option (bool * t) :=
  match command_list with
  | [] => Some (false, c)
  | command :: rest =>
      match _do_command fuel (prepare command) c with
      | None => None
      | Some (true, c1) => Some (true, c1)
      | Some (false, c1) => run_commands fuel rest c1
      end
  end.

(** The loop over the lines of piped input: [stdin] is what
    [sys.stdin.readlines()] returns.  The [break] leaves the loop over the
    commands of one line; the loop over the lines goes on. *)
Fixpoint run_console_piped (fuel : nat) (stdin : list str) (c : t)
    : option t :=
  match stdin with
  | [] => Some c
  | command :: lines =>
      match run_commands fuel (split ";"%char command) c with
      | None => None
      | Some (_, c1) => run_console_piped fuel lines c1
      end
  end.

(** The interactive loop; [n] bounds the commands read, each of which
    takes at least one key.  [None] when a call raises or the keys run
    out. *)
Fixpoint run_console_interactive (n fuel : nat) (keys : list key_value)
    (c : t) : option t :=
  match n with
  | O => None
  | S n' =>
      match get_user_command keys c with
      | Entered command keys' c1 =>
          match CommandHistory.add command (history c1) with
          | None => None
          | Some h =>
              match _do_command fuel command (set_history h c1) with
              | None => None
              | Some (true, c2) => Some c2
              | Some (false, c2) => run_console_interactive n' fuel keys' c2
              end
          end
      | Failed | Blocked _ => None
      end
  end.

(** [run_console(lines)]: [isatty] is [os.isatty(sys.stdin.fileno())],
    [stdin] the lines of standard input and [reads] the bytes that the
    terminal delivers to the successive calls of [getch]. *)
Definition run_console (fuel : nat) (lines : list str) (isatty : bool)
    (stdin : list str) (reads : list (list ascii)) (c : t) : option t :=
  match commands c with
  | Some cs => snd <$> run_commands fuel (split ";"%char cs) c
  | None =>
      if negb isatty || (0 <? len lines) then run_console_piped fuel stdin c
      else
        let c1 := if quiet c then c else print welcome c in
        c2 ← run_console_interactive (S (length reads)) fuel
               (map getch reads) c1;
        Some (if quiet c2 then c2 else print goodbye c2)
  end.

End WithCollaborators.

Arguments t : clear implicits.
Arguments reading : clear implicits.

End Console.

(** ** [FailoverConsole]: the list window and the reconnection *)

Module FailoverConsole.

(** A row of a list is a tuple of strings. *)
Definition row := list str.

Definition _CONSOLE_FOOTER : str :=
  lit "Q-quit R-refresh H-health G-GTID Lists U-UUIDs".
Definition _CONSOLE_FOOTER_NO_KEYBOARD : str := lit "Press CTRL+C to quit".

Definition ARROW_UP_KEY : str := ESC :: lit "[A".
Definition ARROW_DN_KEY : str := ESC :: lit "[B".

Inductive scroll_key := ARROW_UP | ARROW_DN.

(** [_COMMAND_KEYS.get(key)] *)
Definition _COMMAND_KEYS (key : str) : option scroll_key :=
  if eqs key ARROW_UP_KEY then Some ARROW_UP
  else if eqs key ARROW_DN_KEY then Some ARROW_DN
  else None.

Definition _MINIMUM_ROWS : Z := 15.
Definition _HEALTH_LIST : str := lit "Replication Health Status".
Definition _MASTER_GTID_LIST : str := lit "Master GTID Executed Set".
Definition _MASTER_GTID_COLS : list str := [lit "gtid"].
Definition _GTID_LISTS : list str :=
  [lit "Transactions executed on the servers:";
   lit "Transactions purged from the servers:";
   lit "Transactions owned by another server:"].
Definition _UUID_LIST : str := lit "UUIDs".
Definition _LOG_LIST : str := lit "Log File".
Definition _GEN_UUID_COLS : list str :=
  [lit "host"; lit "port"; lit "role"; lit "uuid"].
Definition _GEN_GTID_COLS : list str :=
  [lit "host"; lit "port"; lit "role"; lit "gtid"].
Definition _DATE_LEN : Z := 22.

(** The first row of SHOW MASTER STATUS. *)
Record status := mk_status {
  binlog_file : str; binlog_pos : str; do_db : str; ignore_db : str;
  gtid_executed : str
}.

(** What the console does to the terminal, the master connection and the
    clock, in order.  The text of the header, of the master information
    and of the grids is laid out by code outside these sources. *)
Inductive event :=
  | EClear
  | EHeader (notice : bool)
  | EMasterStatus (st : status)
  | EPrint (line : str)
  | EGrid (cols : list str) (rows : list row)
  | EDisconnect
  | EConnect (ok : bool)
  | ESleep (seconds : Z).

(** The events of a reconnection. *)
Definition connection_event (e : event) : bool :=
  match e with
  | EConnect _ | ESleep _ => true
  | _ => false
  end.

Section WithMaster.

(** The [Master] object, the data callbacks, the terminal and the log file
    are outside these sources.  [M] is the state of the master object;
    [connect] gives the new state and whether it returned (it raises
    otherwise); [get_status] is [get_status()[0]], [None] when that
    raises.  A callback is [None] when the constructor was given [None],
    and its result is [None] when the call raises.  [terminal_size] is
    what [get_terminal_size()] returns and [log_lines] what [readlines()]
    returns for the log file, [None] when it cannot be read. *)
Context {M : Type}.
Variable is_alive : M → bool.
Variable connect : M → M * bool.
Variable disconnect : M → M.
Variable get_status : M → option status.
Variable get_health_data : option (option (list str * list row)).
Variable get_gtid_data : option (option (list (list row))).
Variable get_uuid_data : option (option (list row)).
Variable terminal_size : Z * Z.
Variable log_file : option str.
Variable log_lines : option (list str).

(** The fields of a [FailoverConsole], but for [alarm], which holds wall
    clock time; [screen] is the list of events so far. *)
Record t := mk {
  interval : Z;
  pingtime : Z;
  mode : str;
  logging : bool;
  no_keyboard : bool;
  gtid_list : Z;
  scroll_size : Z;
  start_list : Z;
  end_list : Z;
  stop_list : Z;
  rows_printed : Z;
  max_cols : Z;
  max_rows : Z;
  list_data : option (list str * list row);
  comment : str;
  scroll_on : bool;
  old_mode : option str;
  master_gtids : list row;
  warnings_dic : list (str * str);
  master : option M;
  report_mode : ascii;
  screen : list event
}.

Definition set_gtid_list (x : Z) (d : t) : t :=
  mk (interval d) (pingtime d) (mode d) (logging d) (no_keyboard d) x
    (scroll_size d) (start_list d) (end_list d) (stop_list d)
    (rows_printed d) (max_cols d) (max_rows d) (list_data d) (comment d)
    (scroll_on d) (old_mode d) (master_gtids d) (warnings_dic d) (master d)
    (report_mode d) (screen d).

Definition set_scroll_size (x : Z) (d : t) : t :=
  mk (interval d) (pingtime d) (mode d) (logging d) (no_keyboard d)
    (gtid_list d) x (start_list d) (end_list d) (stop_list d)
    (rows_printed d) (max_cols d) (max_rows d) (list_data d) (comment d)
    (scroll_on d) (old_mode d) (master_gtids d) (warnings_dic d) (master d)
    (report_mode d) (screen d).

Definition set_start_list (x : Z) (d : t) : t :=
  mk (interval d) (pingtime d) (mode d) (logging d) (no_keyboard d)
    (gtid_list d) (scroll_size d) x (end_list d) (stop_list d)
    (rows_printed d) (max_cols d) (max_rows d) (list_data d) (comment d)
    (scroll_on d) (old_mode d) (master_gtids d) (warnings_dic d) (master d)
    (report_mode d) (screen d).

Definition set_end_list (x : Z) (d : t) : t :=
  mk (interval d) (pingtime d) (mode d) (logging d) (no_keyboard d)
    (gtid_list d) (scroll_size d) (start_list d) x (stop_list d)
    (rows_printed d) (max_cols d) (max_rows d) (list_data d) (comment d)
    (scroll_on d) (old_mode d) (master_gtids d) (warnings_dic d) (master d)
    (report_mode d) (screen d).

Definition set_stop_list (x : Z) (d : t) : t :=
  mk (interval d) (pingtime d) (mode d) (logging d) (no_keyboard d)
    (gtid_list d) (scroll_size d) (start_list d) (end_list d) x
    (rows_printed d) (max_cols d) (max_rows d) (list_data d) (comment d)
    (scroll_on d) (old_mode d) (master_gtids d) (warnings_dic d) (master d)
    (report_mode d) (screen d).

Definition set_rows_printed (x : Z) (d : t) : t :=
  mk (interval d) (pingtime d) (mode d) (logging d) (no_keyboard d)
    (gtid_list d) (scroll_size d) (start_list d) (end_list d) (stop_list d)
    x (max_cols d) (max_rows d) (list_data d) (comment d) (scroll_on d)
    (old_mode d) (master_gtids d) (warnings_dic d) (master d)
    (report_mode d) (screen d).

Definition set_max_cols (x : Z) (d : t) : t :=
  mk (interval d) (pingtime d) (mode d) (logging d) (no_keyboard d)
    (gtid_list d) (scroll_size d) (start_list d) (end_list d) (stop_list d)
    (rows_printed d) x (max_rows d) (list_data d) (comment d) (scroll_on d)
    (old_mode d) (master_gtids d) (warnings_dic d) (master d)
    (report_mode d) (screen d).

Definition set_max_rows (x : Z) (d : t) : t :=
  mk (interval d) (pingtime d) (mode d) (logging d) (no_keyboard d)
    (gtid_list d) (scroll_size d) (start_list d) (end_list d) (stop_list d)
    (rows_printed d) (max_cols d) x (list_data d) (comment d) (scroll_on d)
    (old_mode d) (master_gtids d) (warnings_dic d) (master d)
    (report_mode d) (screen d).

Definition set_list_data (x : option (list str * list row)) (d : t) : t :=
  mk (interval d) (pingtime d) (mode d) (logging d) (no_keyboard d)
    (gtid_list d) (scroll_size d) (start_list d) (end_list d) (stop_list d)
    (rows_printed d) (max_cols d) (max_rows d) x (comment d) (scroll_on d)
    (old_mode d) (master_gtids d) (warnings_dic d) (master d)
    (report_mode d) (screen d).

Definition set_comment (x : str) (d : t) : t :=
  mk (interval d) (pingtime d) (mode d) (logging d) (no_keyboard d)
    (gtid_list d) (scroll_size d) (start_list d) (end_list d) (stop_list d)
    (rows_printed d) (max_cols d) (max_rows d) (list_data d) x (scroll_on d)
    (old_mode d) (master_gtids d) (warnings_dic d) (master d)
    (report_mode d) (screen d).

Definition set_scroll_on (x : bool) (d : t) : t :=
  mk (interval d) (pingtime d) (mode d) (logging d) (no_keyboard d)
    (gtid_list d) (scroll_size d) (start_list d) (end_list d) (stop_list d)
    (rows_printed d) (max_cols d) (max_rows d) (list_data d) (comment d) x
    (old_mode d) (master_gtids d) (warnings_dic d) (master d)
    (report_mode d) (screen d).

Definition set_master_gtids (x : list row) (d : t) : t :=
  mk (interval d) (pingtime d) (mode d) (logging d) (no_keyboard d)
    (gtid_list d) (scroll_size d) (start_list d) (end_list d) (stop_list d)
    (rows_printed d) (max_cols d) (max_rows d) (list_data d) (comment d)
    (scroll_on d) (old_mode d) x (warnings_dic d) (master d) (report_mode d)
    (screen d).

Definition set_warnings_dic (x : list (str * str)) (d : t) : t :=
  mk (interval d) (pingtime d) (mode d) (logging d) (no_keyboard d)
    (gtid_list d) (scroll_size d) (start_list d) (end_list d) (stop_list d)
    (rows_printed d) (max_cols d) (max_rows d) (list_data d) (comment d)
    (scroll_on d) (old_mode d) (master_gtids d) x (master d) (report_mode d)
    (screen d).

Definition set_master (x : option M) (d : t) : t :=
  mk (interval d) (pingtime d) (mode d) (logging d) (no_keyboard d)
    (gtid_list d) (scroll_size d) (start_list d) (end_list d) (stop_list d)
    (rows_printed d) (max_cols d) (max_rows d) (list_data d) (comment d)
    (scroll_on d) (old_mode d) (master_gtids d) (warnings_dic d) x
    (report_mode d) (screen d).

Definition set_report_mode (x : ascii) (d : t) : t :=
  mk (interval d) (pingtime d) (mode d) (logging d) (no_keyboard d)
    (gtid_list d) (scroll_size d) (start_list d) (end_list d) (stop_list d)
    (rows_printed d) (max_cols d) (max_rows d) (list_data d) (comment d)
    (scroll_on d) (old_mode d) (master_gtids d) (warnings_dic d) (master d)
    x (screen d).

Definition set_screen (x : list event) (d : t) : t :=
  mk (interval d) (pingtime d) (mode d) (logging d) (no_keyboard d)
    (gtid_list d) (scroll_size d) (start_list d) (end_list d) (stop_list d)
    (rows_printed d) (max_cols d) (max_rows d) (list_data d) (comment d)
    (scroll_on d) (old_mode d) (master_gtids d) (warnings_dic d) (master d)
    (report_mode d) x.

Definition set_mode (x : str) (d : t) : t :=
  mk (interval d) (pingtime d) x (logging d) (no_keyboard d) (gtid_list d)
    (scroll_size d) (start_list d) (end_list d) (stop_list d)
    (rows_printed d) (max_cols d) (max_rows d) (list_data d) (comment d)
    (scroll_on d) (old_mode d) (master_gtids d) (warnings_dic d) (master d)
    (report_mode d) (screen d).

Definition set_old_mode (x : option str) (d : t) : t :=
  mk (interval d) (pingtime d) (mode d) (logging d) (no_keyboard d)
    (gtid_list d) (scroll_size d) (start_list d) (end_list d) (stop_list d)
    (rows_printed d) (max_cols d) (max_rows d) (list_data d) (comment d)
    (scroll_on d) x (master_gtids d) (warnings_dic d) (master d)
    (report_mode d) (screen d).

Definition emit (e : event) (d : t) : t := set_screen (screen d ++ [e]) d.

Definition _reset_screen_size (d : t) : t :=
  let d := set_max_rows terminal_size.2 (set_max_cols terminal_size.1 d) in
  if max_rows d <? _MINIMUM_ROWS then set_max_rows _MINIMUM_ROWS d else d.

(** [__init__]; [master_gtids], [list_data] and the counters start empty,
    the report mode is H. *)
Definition init (master : option M) (interval pingtime : Z) (mode : str)
    (logging no_keyboard : bool) : t :=
  _reset_screen_size
    (mk interval pingtime mode logging no_keyboard (-1) 0 0 0 0 0 80 24
        None _HEALTH_LIST false None [] [] master "H"%char []).

Definition _format_gtid_data (d : t) : option ((list str * list row) * t) :=
  let d := set_gtid_list (gtid_list d + 1) d in
  let d := if 3 <? gtid_list d then set_gtid_list 0 d else d in
  r ← (if (gtid_list d =? 0) && truthy (master_gtids d)
       then Some (master_gtids d, set_comment _MASTER_GTID_LIST d)
       else match get_gtid_data with
            | Some call =>
                gtid_data ← call;
                c ← getitem _GTID_LISTS (gtid_list d - 1);
                rows ← getitem gtid_data (gtid_list d - 1);
                Some (rows, set_comment c d)
            | None => Some ([], d)
            end);
  let rows := r.1 in
  let d := set_report_mode "G"%char
             (set_end_list (len rows) (set_start_list 0 r.2)) in
  if gtid_list d =? 0 then Some ((_MASTER_GTID_COLS, rows), d)
  else Some ((_GEN_GTID_COLS, rows), d).

Definition _format_health_data (d : t) : option ((list str * list row) * t) :=
  match get_health_data with
  | Some call =>
      health_data ← call;
      Some (health_data,
            set_report_mode "H"%char
              (set_end_list (len health_data.2) (set_start_list 0 d)))
  | None => Some (([], []), d)
  end.

Definition _format_uuid_data (d : t) : option ((list str * list row) * t) :=
  r ← match get_uuid_data with
      | Some call => rows ← call; Some (rows, set_comment _UUID_LIST d)
      | None => Some ([], d)
      end;
  Some ((_GEN_UUID_COLS, r.1),
        set_report_mode "U"%char
          (set_end_list (len r.1) (set_start_list 0 r.2))).

Definition _format_log_entries (d : t) : option ((list str * list row) * t) :=
  r ← (if logging d && bool_decide (is_Some log_file) then
         lines ← log_lines;
         let rows :=
           map (λ line, [slice line 0 _DATE_LEN;
                         strip NL (slice_from line (_DATE_LEN + 1))]) lines in
         Some (rows,
               set_end_list (len rows)
                 (set_start_list 0 (set_comment _LOG_LIST d)))
       else Some ([], d));
  Some (([lit "Date"; lit "Entry"], r.1), set_report_mode "L"%char r.2).

Definition clear (d : t) : t := set_rows_printed 0 (emit EClear d).

Definition _print_header (d : t) : t :=
  let notice := match old_mode d with
                | Some m => negb (eqs m (mode d))
                | None => false
                end in
  let d := emit (EHeader notice) d in
  let d := if notice
           then set_max_rows (max_rows d - 3)
                  (set_rows_printed (rows_printed d + 2) d)
           else d in
  set_rows_printed (rows_printed d + 4) d.

Definition _print_master_status (d : t) : option t :=
  match master d with
  | None => Some d
  | Some m =>
      st ← get_status m;
      let gtids :=
        map (λ gtid, [strip ","%char gtid])
            (filter (λ gtid, truthy gtid = true)
                    (split NL (gtid_executed st))) in
      let d := emit (EMasterStatus st) (set_master_gtids gtids d) in
      Some (set_rows_printed (rows_printed d + 7) d)
  end.

Definition _print_warnings (d : t) : t :=
  foldl (λ acc kv,
           set_rows_printed (rows_printed acc + 1)
             (emit (EPrint (lit "WARNING: " ++ kv.2)) acc))
        d (warnings_dic d).

(** [dic[key] = msg] on a dictionary kept in insertion order. *)
Fixpoint dict_set (key msg : str) (dic : list (str * str)) : list (str * str) :=
  match dic with
  | [] => [(key, msg)]
  | kv :: dic' =>
      if eqs kv.1 key then (key, msg) :: dic' else kv :: dict_set key msg dic'
  end.

Definition add_warning (warning_key warning_msg : str) (d : t) : t :=
  set_warnings_dic (dict_set warning_key warning_msg (warnings_dic d)) d.

Definition del_warning (warning_key : str) (d : t) : t :=
  set_warnings_dic
    (filter (λ kv, eqs kv.1 warning_key = false) (warnings_dic d)) d.

Definition _print_footer (scroll : bool) (d : t) : t :=
  let blanks := Z.to_nat (max_rows d - 2 - rows_printed d) in
  let d := Nat.iter blanks (emit (EPrint [])) d in
  let footer :=
    if no_keyboard d then [_CONSOLE_FOOTER_NO_KEYBOARD]
    else [_CONSOLE_FOOTER] ++
         (if logging d then [lit "L-log entries"] else []) ++
         (if scroll then [lit "Up|Down-scroll"] else []) in
  set_rows_printed (max_rows d) (emit (EPrint (join [SP] footer)) d).

(** The part of [_print_list] that fits the window to the rows left on
    the screen: the result is the rows to print and the new state. *)
Definition fit_window (all_rows : list row) (d : t) : list row * t :=
  let footer_len := 2 in
  let remaining_rows := max_rows d - rows_printed d - 4 - footer_len in
  if remaining_rows <? len (slice all_rows (start_list d) (end_list d)) then
    (slice all_rows (start_list d) (start_list d + remaining_rows),
     set_scroll_on true (set_end_list (start_list d + remaining_rows) d))
  else
    (slice all_rows (start_list d) (end_list d),
     if (len all_rows =? end_list d) && (start_list d =? 0)
     then set_scroll_on false d else d).

(** The part of [_print_list] that prints the rows. *)
Definition print_rows (cols : list str) (rows : list row) (d : t) : t :=
  if 0 <? len rows then
    let d := set_scroll_size (len rows) d in
    let d := emit (EGrid cols rows) d in
    set_rows_printed (rows_printed d + scroll_size d + 4) d
  else
    set_rows_printed (rows_printed d + 1)
      (emit (EPrint (lit "0 Rows Found.")) d).

Definition _print_list (refresh : bool) (comment_arg : option str) (d : t)
    : option t :=
  match list_data d with
  | None => Some d
  | Some ld =>
      d ← (if refresh then _print_master_status (_print_header (clear d))
           else Some d);
      let comment := match comment_arg with
                     | Some c => c
                     | None => comment d
                     end in
      let d := set_rows_printed (rows_printed d + 1) (emit (EPrint comment) d) in
      let r := fit_window ld.2 d in
      let d := print_rows ld.1 r.1 r.2 in
      Some (if refresh then _print_footer (scroll_on d) d else d)
  end.

(** The first part of [_scroll], up to the call of [_print_list]: the
    result is [None] where the method returns early. *)
Definition scroll_window (key : scroll_key) (d : t) : option (option t) :=
  match key with
  | ARROW_UP =>
      if 0 <? start_list d then
        let d := set_start_list (start_list d - scroll_size d) d in
        let d := if start_list d <? 0 then set_start_list 0 d else d in
        Some (Some (set_stop_list (scroll_size d) d))
      else Some None
  | ARROW_DN =>
      ld ← list_data d;
      if end_list d <? len ld.2 then
        let d := set_start_list (end_list d) d in
        let d := set_end_list (end_list d + scroll_size d) d in
        Some (Some (if len ld.2 <? end_list d
                    then set_end_list (len ld.2) d else d))
      else Some None
  end.

(** [None] is the KeyError of [_COMMAND_KEYS[key]], or an error raised
    while the list is printed. *)
Definition _scroll (key : str) (d : t) : option t :=
  k ← _COMMAND_KEYS key;
  w ← scroll_window k d;
  match w with
  | None => Some d
  | Some d' => _print_list true None d'
  end.

Definition _refresh (d : t) : option t :=
  let d := _print_header (_reset_screen_size (clear d)) in
  d ← _print_master_status d;
  let d := _print_warnings d in
  d ← (if Ascii.eqb (report_mode d) "H"%char then
         r ← _format_health_data d; Some (set_list_data (Some r.1) r.2)
       else Some d);
  d ← _print_list false None d;
  Some (_print_footer (scroll_on d) d).

(** The [while i < 3] loop of [_reconnect_master] with [n] passes left.
    Without a master object the call of [connect] raises like a failed
    connection, which the bare [except] swallows. *)
Fixpoint reconnect_attempts (n : nat) (pingtime : Z) (d : t) : bool * t :=
  match n with
  | O => (false, d)
  | S n' =>
      match master d with
      | Some m =>
          let r := connect m in
          let d := emit (EConnect r.2) (set_master (Some r.1) d) in
          if r.2 then (true, d)
          else reconnect_attempts n' pingtime (emit (ESleep pingtime) d)
      | None => reconnect_attempts n' pingtime (emit (ESleep pingtime) d)
      end
  end.

Definition _reconnect_master (pingtime : Z) (d : t) : bool * t :=
  if match master d with Some m => is_alive m | None => false end
  then (true, d)
  else reconnect_attempts 3 pingtime d.

Definition _do_command (key : str) (d : t) : option t :=
  let d := set_max_rows terminal_size.2 (set_max_cols terminal_size.1 d) in
  let is_g := eqs key (lit "g") || eqs key (lit "G") in
  let d := if is_g then d else set_gtid_list (-1) d in
  if eqs key (lit "r") || eqs key (lit "R") then _refresh d
  else if is_g then
    r ← _format_gtid_data d; _print_list true None (set_list_data (Some r.1) r.2)
  else if eqs key (lit "h") || eqs key (lit "H") then
    r ← _format_health_data d; _print_list true None (set_list_data (Some r.1) r.2)
  else if eqs key (lit "u") || eqs key (lit "U") then
    r ← _format_uuid_data d; _print_list true None (set_list_data (Some r.1) r.2)
  else if eqs key (lit "l") || eqs key (lit "L") then
    if logging d then
      r ← _format_log_entries d;
      _print_list true None (set_list_data (Some r.1) r.2)
    else Some d
  else if bool_decide (is_Some (_COMMAND_KEYS key)) then _scroll key d
  else Some d.

(** [_do_command] for each key of a list, in order. *)
Fixpoint do_commands (keys : list str) (d : t) : option t :=
  match keys with
  | [] => Some d
  | key :: keys' => _do_command key d ≫= do_commands keys'
  end.

(** The window and the scroll step. *)
Definition window (d : t) : Z * Z * Z :=
  (start_list d, end_list d, scroll_size d).

(** The rows that [_print_list(True)] has left for the rows of the list
    when it comes to them: the rows of the screen less those of the header
    (4, and with the notice of a changed mode 2 more, which also takes 3
    rows from [max_rows]), of the master information (7, when there is a
    master), of the comment (1), of the frame of the grid (4) and of the
    footer (2). *)
Definition rows_for_list (d : t) : Z :=
  let notice := match old_mode d with
                | Some m => negb (eqs m (mode d))
                | None => false
                end in
  let screen := if notice then max_rows d - 3 else max_rows d in
  let header := if notice then 6 else 4 in
  let status := match master d with Some _ => 7 | None => 0 end in
  screen - (header + status + 1) - 4 - 2.

(** How [display_console] ends: it returns a value, an exception leaves
    it, or it waits for a key or the alarm with no more input given. *)
Inductive result :=
  | Returned (value : option bool) (d : t)
  | Raised
  | Waiting (d : t).

(** The loop of [display_console]; [keys] is what the successive calls of
    [_wait_for_interval] return, [None] when the interval expired. *)
Fixpoint display_loop (keys : list (option str)) (d : t) : result :=
  match master d with
  | None => Raised
  | Some m =>
      let d := emit EDisconnect (set_master (Some (disconnect m)) d) in
      match keys with
      | [] => Waiting d
      | key :: keys' =>
          let d := (_reconnect_master (pingtime d) d).2 in
          match key with
          | None => Returned None d
          | Some key =>
              if eqs key (lit "Q") || eqs key (lit "q")
              then Returned (Some true) d
              else
                match
                  (if Ascii.eqb (report_mode d) "H"%char then
                     r ← _format_health_data d;
                     _print_list true None (set_list_data (Some r.1) r.2)
                   else Some d) ≫= _do_command key
                with
                | Some d' => display_loop keys' d'
                | None => Raised
                end
          end
      end
  end.

Definition display_console (keys : list (option str)) (d : t) : result :=
  match
    (match list_data d with
     | Some _ => Some d
     | None =>
         call ← get_health_data;
         ld ← call;
         Some (set_gtid_list (-1)
                 (set_end_list (len ld.2)
                    (set_start_list 0 (set_list_data (Some ld) d))))
     end) ≫= _refresh
  with
  | Some d' => display_loop keys d'
  | None => Raised
  end.

(** The statements that [register_instance] sends to the master; the
    host and the port of the master are put into the last three. *)
Inductive query :=
  | DROP_FC_TABLE
  | CREATE_FC_TABLE
  | SELECT_FC_TABLE (host port : str)
  | INSERT_FC_TABLE (host port : str)
  | DELETE_FC_TABLE (host port : str).

(** What [register_instance] calls on the [Master] object: [host_port] is
    the pair of its attributes [host] and [port]; [toggle_binlog] takes
    [true] for ENABLE and [false] for DISABLE; [exec_query] gives the new
    state and the rows of the result.  A call is [None] when it raises. *)
Variable host_port : M → str * str.
Variable toggle_binlog : bool → M → option M.
Variable exec_query : query → M → option (M * list row).
Variable commit : M → option M.

(** [register_instance]; the result is the mode it returns and the new
    state, [None] when a call on the master raises. *)
Definition register_instance (clear register : bool) (d : t)
    : option (str * t) :=
  match master d with
  | None => Some (mode d, d)
  | Some m =>
      if eqs (mode d) (lit "fail") then Some (mode d, d)
      else
        m ← toggle_binlog false m;
        let hp := host_port m in
        m ← (if clear then fst <$> exec_query DROP_FC_TABLE m else Some m);
        r ← (if register then
               r1 ← exec_query CREATE_FC_TABLE m;
               r2 ← exec_query (SELECT_FC_TABLE hp.1 hp.2) r1.1;
               m ← commit r2.1;
               if truthy r2.2
               then Some (m, set_mode (lit "fail")
                               (set_old_mode (Some (mode d)) d))
               else
                 r3 ← exec_query (INSERT_FC_TABLE hp.1 hp.2) m;
                 Some (r3.1, d)
             else if negb (bool_decide (old_mode d = Some (mode d))) then
               r3 ← exec_query (DELETE_FC_TABLE hp.1 hp.2) m;
               Some (r3.1, d)
             else Some (m, d));
        m ← toggle_binlog true r.1;
        let d := set_master (Some m) r.2 in
        Some (mode d, d)
  end.

End WithMaster.

Arguments t : clear implicits.

End FailoverConsole.

(** ** Variable substitution as the specification words it

    These definitions follow the words of the specification, not the
    code: the text is scanned left to right; a [$] opens a token, which
    runs to the next character for which [ends] holds or to the end of
    the text; the token is replaced by the value stored under its name,
    and stays as it is when there is none.  [tok] holds the name read so
    far inside a token. *)

Module SubstitutionSpec.

Definition resolve (lookup : str → option str) (name : str) : str :=
  match lookup name with
  | Some value => value
  | None => DOLLAR :: name
  end.

Fixpoint scan_tokens (ends : ascii → bool) (lookup : str → option str)
    (tok : option str) (s : str) : str :=
  match s, tok with
  | [], None => []
  | [], Some name => resolve lookup name
  | x :: s', None =>
      if Ascii.eqb x DOLLAR then scan_tokens ends lookup (Some []) s'
      else x :: scan_tokens ends lookup None s'
  | x :: s', Some name =>
      if ends x
      then resolve lookup name ++ x :: scan_tokens ends lookup None s'
      else scan_tokens ends lookup (Some (name ++ [x])) s'
  end.

(** [x == ' '] *)
Definition is_sp (x : ascii) : bool := Ascii.eqb x SP.

(** Every token of the text substituted, the first character included,
    a token ending at whitespace. *)
Definition substitute_all (lookup : str → option str) (s : str) : str :=
  scan_tokens isspace lookup None s.

(** The same with the first character of the text kept as it is and a
    token ending at a space only. *)
Definition substitute_after_first (lookup : str → option str) (s : str) : str :=
  match s with
  | [] => []
  | x :: s' => x :: scan_tokens is_sp lookup None s'
  end.

End SubstitutionSpec.

(** Where a token ends: at the end of the text or at a space. *)
Definition ends_token (r : str) : Prop := r = [] ∨ ∃ r', r = SP :: r'.

(** The number of [$] in a text. *)
Definition dollars (s : str) : nat := length (filter (λ x, x = DOLLAR) s).

(** ** Instances of the collaborators for the examples

    A variable table as a list of pairs of name and value, the first pair
    of a name being its binding; a tokenizer for texts without quotes and
    escapes, which are the texts of the examples, splitting at spaces. *)

Module Examples.

Fixpoint assoc (n : str) (vs : list (str * str)) : option str :=
  match vs with
  | [] => None
  | kv :: vs' => if eqs kv.1 n then Some kv.2 else assoc n vs'
  end.

Definition find_variable (vs : list (str * str)) (n : str) : option str :=
  assoc n vs.

Definition add_variable (n v : str) (vs : list (str * str))
    : list (str * str) :=
  (n, v) :: vs.

Definition get_matches (vs : list (str * str)) (prefix : option str)
    : list (str * str) :=
  match prefix with
  | Some p => filter (λ kv, startswith kv.1 p = true) vs
  | None => vs
  end.

Definition show_variables (vs : list (str * str))
    (which : option (list (str * str))) : str :=
  concat (map (λ kv, kv.1 ++ lit "=" ++ kv.2 ++ [NL])
              (match which with Some l => l | None => vs end)).

Definition print_dictionary_list (rows : list Console.entry) (width : Z)
    : str :=
  concat (map (λ e, Console.name e ++ [NL]) rows).

Definition shlex_split (s : str) : str + list str :=
  inr (filter (λ w, truthy w = true) (split SP s)).


End Examples.

(** ** The completion mode as the specification words it

    This definition follows the words of the specification, not the code:
    a buffer without a space is completed as a command; otherwise the
    segment is the token nearest the cursor, read leftwards from the cursor
    to the previous space or to the edge of the line, and the mode is
    variable completion when the segment holds a [$], option completion
    when it does not. *)

Module CompletionSpec.

Fixpoint take_token (s : str) : str :=
  match s with
  | [] => []
  | x :: s' => if Ascii.eqb x SP then [] else x :: take_token s'
  end.

Definition nearest_token (buf : str) (cursor : nat) : str :=
  rev (take_token (rev (take cursor buf))).

Definition mode_in_words (buf : str) (cursor : nat) : Z :=
  if bool_decide (SP ∈ buf) then
    if bool_decide (DOLLAR ∈ nearest_token buf cursor)
    then Console._VARIABLE_COMPLETE
    else Console._OPTION_COMPLETE
  else Console._COMMAND_COMPLETE.

End CompletionSpec.

(** ** The arrow-up key as the specification words it

    This definition follows the words of the specification, not the code:
    arrow-up retreats the window as arrow-down advances it, so the start
    goes down by the scroll step, not below 0, and the end retreats. *)

Module ScrollSpec.

Definition up_retreats {M : Type} (d d' : FailoverConsole.t M) : Prop :=
  FailoverConsole.start_list d'
  = Z.max 0 (FailoverConsole.start_list d - FailoverConsole.scroll_size d) ∧
  FailoverConsole.end_list d' < FailoverConsole.end_list d.

End ScrollSpec.

(** ** The failed reconnection as the specification words it

    This definition follows the words of the specification, not the code:
    when all attempts fail the loop surfaces the failure by displaying a
    warning.  Between the states [d] and [d'] a warning was added to the
    warnings or a line starting with WARNING was printed. *)

Module ReconnectSpec.

Definition warning_surfaced {M : Type} (d d' : FailoverConsole.t M) : Prop :=
  FailoverConsole.warnings_dic d' ≠ FailoverConsole.warnings_dic d ∨
  ∃ msg, FailoverConsole.EPrint (lit "WARNING: " ++ msg)
         ∈ drop (length (FailoverConsole.screen d)) (FailoverConsole.screen d').

End ReconnectSpec.

(** ** A master and data for the dashboard examples

    A master that is reached when [reachable] holds, a status row, lists
    of [n] rows, and a terminal of 28 rows, on which ten rows of a list
    fit below the header and the master information. *)

Module DashboardExamples.

Record master := mk_master { reachable : bool; connected : bool }.

Definition is_alive (m : master) : bool := connected m.

Definition connect (m : master) : master * bool :=
  (mk_master (reachable m) (reachable m), reachable m).

Definition disconnect (m : master) : master := mk_master (reachable m) false.

Definition get_status (m : master) : option FailoverConsole.status :=
  if connected m
  then Some (FailoverConsole.mk_status (lit "binlog.000001") (lit "154")
               [] [] (lit "uuid:1-5"))
  else None.

Definition rows (n : nat) : list FailoverConsole.row :=
  map (λ i, [lit "host"; lit "3306"]) (seq 0 n).

Definition terminal_size : Z * Z := (80, 28).

(** A console on a connected master, and the keys pressed on it with
    [n] rows of UUIDs to show. *)
Definition console : FailoverConsole.t master :=
  FailoverConsole.init terminal_size (Some (mk_master true true)) 15 3
    (lit "auto") false false.

Definition press (n : nat) (keys : list str)
    : option (FailoverConsole.t master) :=
  FailoverConsole.do_commands get_status
    (Some (Some ([lit "host"; lit "port"], rows n))) None
    (Some (Some (rows n))) terminal_size None None keys console.

(** The same console on a master that cannot be reached. *)
Definition console_unreachable : FailoverConsole.t master :=
  FailoverConsole.init terminal_size (Some (mk_master false true)) 15 3
    (lit "auto") false false.

Definition UP : str := FailoverConsole.ARROW_UP_KEY.
Definition DN : str := FailoverConsole.ARROW_DN_KEY.

End DashboardExamples.

(** ** The catalog entries of the completion examples *)

(** The built-in entry [help], the first of [_BASE_COMMANDS]. *)
Definition help_entry : Console.entry :=
  Console.mk_entry (lit "help") (lit "help commands") (lit "Show this list.").

(** An entry [history] as a caller of [Console] would supply it. *)
Definition history_entry : Console.entry :=
  Console.mk_entry (lit "history") [] (lit "Show the command history.").

(** A console whose catalog holds these two entries and no other, with an
    empty line after the prompt, and the keys pressed on it. *)
Module CompletionExamples.

Definition console : Console.t (list (str * str)) :=
  Console.mk false 0 [help_entry; history_entry] Console._COMMAND_COMPLETE
    (Command.mk (lit "> ") 0 [] 0) 80 None false false []
    (CommandHistory.init 20) 0 [] (lit "> ").

Definition press : Console.cmd_key → Console.t (list (str * str))
    → option (Console.t (list (str * str))) :=
  Console._process_command_keys Examples.get_matches Examples.show_variables
    Examples.print_dictionary_list.

Definition type (key : string) : Console.t (list (str * str))
    → Console.t (list (str * str)) :=
  Console.plain_key (lit key).

End CompletionExamples.

(** ** The bounds of a history

    The list holds at most [max_size] commands, and [position] is an index
    of the list, or 0 when the list is empty. *)
Definition history_wf (h : CommandHistory.t) : Prop :=
  len (CommandHistory.commands h) <= CommandHistory.max_size h ∧
  0 <= CommandHistory.position h ∧
  CommandHistory.position h < Z.max 1 (len (CommandHistory.commands h)).

(** ** The line by the texts on the two sides of the cursor

    The line with the prompt [p], the text [a] left of the cursor and the
    text [b] from the cursor on. *)
Definition line (p a b : str) : Command.t :=
  Command.mk p (len a) (a ++ b) (len (a ++ b)).

(** ** The text that completes a command name

    [r] is what completes the typed text [t] to the entry [m]: the rest of
    its name, or the rest of its alias when the name does not start with
    [t]. *)
Definition completes (m : Console.entry) (t r : str) : Prop :=
  Console.name m = t ++ r ∨
  (¬ t `prefix_of` Console.name m) ∧ Console.alias m = t ++ r.

(** ** The terminal line

    The terminal that reads what the line editor writes, as far as one
    line goes: the cells left of the cursor, the nearest first, and the
    cells from the cursor on.  A backspace moves the cursor one cell to
    the left and stays at the left edge; any other character is put into
    the cell at the cursor, and the cursor moves one cell to the right. *)

Module Terminal.

Record t := mk { left : str; right : str }.

Definition put (l : t) (x : ascii) : t :=
  if Ascii.eqb x BS then
    match left l with
    | [] => l
    | y :: ys => mk ys (y :: right l)
    end
  else mk (x :: left l) (tail (right l)).

(** The line after the text [s] was written to it. *)
Definition feed (s : str) (l : t) : t := foldl put l s.

(** The text of the line and the column of the cursor. *)
Definition text (l : t) : str := rev (left l) ++ right l.
Definition column (l : t) : Z := len (left l).

End Terminal.

(** The terminal shows the line of the editor: its text is the prompt and
    the command, followed by blanks left from longer texts, and its cursor
    is at the position of the editor. *)
Definition shows (c : Command.t) (l : Terminal.t) : Prop :=
  (∃ n, Terminal.text l
        = Command.prompt c ++ Command.command c ++ replicate n SP) ∧
  Terminal.column l = len (Command.prompt c) + Command.position c.

(** The method [f] of the line editor keeps the terminal in step: after
    what it wrote, the terminal shows the line as the method left it. *)
Definition renders (f : Command.t → Command.t * str) (c : Command.t)
    (l : Terminal.t) : Prop :=
  shows (f c).1 (Terminal.feed (f c).2 l).

(** ** A master for the registration examples

    The master is the table [mysql.failover_console] as the list of its
    rows, [None] when the table does not exist; the statements do to it
    what their SQL says, and the binary log and the commit leave it. *)

Module RegistrationExamples.

Definition master := option (list (str * str)).

Definition host_port (m : master) : str * str := (lit "db1", lit "3306").

Definition toggle_binlog (enable : bool) (m : master) : option master :=
  Some m.

Definition commit (m : master) : option master := Some m.

Definition exec_query (q : FailoverConsole.query) (m : master)
    : option (master * list FailoverConsole.row) :=
  match q, m with
  | FailoverConsole.DROP_FC_TABLE, _ => Some (None, [])
  | FailoverConsole.CREATE_FC_TABLE, None => Some (Some [], [])
  | FailoverConsole.CREATE_FC_TABLE, Some t => Some (Some t, [])
  | FailoverConsole.SELECT_FC_TABLE h p, Some t =>
      Some (Some t,
            map (λ r, [r.1; r.2]) (filter (λ r, r = (h, p)) t))
  | FailoverConsole.INSERT_FC_TABLE h p, Some t => Some (Some (t ++ [(h, p)]), [])
  | FailoverConsole.DELETE_FC_TABLE h p, Some t =>
      Some (Some (filter (λ r, r ≠ (h, p)) t), [])
  | _, None => None
  end.

(** A console in the mode [auto] on the master [m]. *)
Definition console (m : master) : FailoverConsole.t master :=
  FailoverConsole.init (80, 24) (Some m) 15 3 (lit "auto") false false.

Definition register_instance :=
  FailoverConsole.register_instance host_port toggle_binlog exec_query commit.

End RegistrationExamples.

(** * Verification *)

(** Equalities of lists up to the bracketing of [++]. *)
Ltac app_eq :=
  repeat (rewrite <- ?app_assoc; simpl); rewrite ?app_nil_r; reflexivity.

(** Replace the closed tests of conditionals by their values. *)
Ltac eval_tests :=
  repeat match goal with
  | |- context [if ?b then _ else _] =>
      let v := eval vm_compute in b in
      match v with
      | true => change b with true
      | false => change b with false
      end; cbv iota
  | |- context [andb ?a ?b] =>
      let v := eval vm_compute in b in
      match v with
      | true => change b with true; rewrite (andb_true_r a)
      | false => change b with false; rewrite (andb_false_r a)
      end; cbv iota
  end.

(** Arithmetic on the lengths of concatenations. *)
Ltac len_lia :=
  unfold len in *;
  repeat (rewrite ?length_app, ?length_cons, ?length_nil in * );
  lia.

Section PyStrFacts.

Lemma len_app {A} (l k : list A) : len (l ++ k) = len l + len k.
Proof. unfold len. rewrite length_app. lia. Qed.

Lemma len_nonneg {A} (l : list A) : 0 <= len l.
Proof. unfold len. lia. Qed.

End PyStrFacts.

Lemma getitem_middle {A} (a b : list A) (y : A) :
  getitem (a ++ y :: b) (len a) = Some y.
Proof.
  unfold getitem. pose proof (len_nonneg a) as Ha.
  rewrite len_app. unfold len in *. rewrite length_cons.
  destruct (Z.ltb_spec (Z.of_nat (length a)) 0) as [?|_]; [lia|].
  destruct (Z.ltb_spec (Z.of_nat (length a)) 0) as [?|_]; [lia|].
  destruct (Z.leb_spec (Z.of_nat (length a) + Z.of_nat (S (length b)))
              (Z.of_nat (length a))) as [?|_]; [lia|].
  simpl. rewrite Nat2Z.id. by apply list_lookup_middle.
Qed.

Lemma setitem_middle {A} (a b : list A) (y z : A) :
  setitem (a ++ y :: b) (len a) z = Some (a ++ z :: b).
Proof.
  unfold setitem. pose proof (len_nonneg a) as Ha.
  rewrite len_app. unfold len in *. rewrite length_cons.
  destruct (Z.ltb_spec (Z.of_nat (length a)) 0) as [?|_]; [lia|].
  destruct (Z.ltb_spec (Z.of_nat (length a)) 0) as [?|_]; [lia|].
  destruct (Z.leb_spec (Z.of_nat (length a) + Z.of_nat (S (length b)))
              (Z.of_nat (length a))) as [?|_]; [lia|].
  simpl. rewrite Nat2Z.id.
  replace (length a) with (length a + 0)%nat at 1 by lia.
  by rewrite insert_app_r.
Qed.

(** ** The history ring *)

Section HistoryFacts.

Import CommandHistory.

(** While the list is below [max_size], [add] appends. *)
Lemma add_all_fill (l pre : list str) (M : Z) :
  len pre + len l <= M →
  add_all l (mk 0 pre M) = Some (mk 0 (pre ++ l) M).
Proof.
  revert pre. induction l as [|c l IH]; intros pre Hle.
  - simpl. by rewrite app_nil_r.
  - simpl. unfold add at 1. simpl.
    unfold len in Hle. rewrite length_cons in Hle.
    destruct (Z.ltb_spec (len pre) M) as [_|Hge]; [|unfold len in Hge; lia].
    simpl. rewrite IH.
    + by rewrite <- app_assoc.
    + rewrite len_app. unfold len. simpl length. lia.
Qed.

(** At capacity with [position = 0], [add] overwrites the slot
    [max_size - 1], which holds the command added last. *)
Lemma add_full_at_0 (pre : list str) (x c : str) :
  add c (mk 0 (pre ++ [x]) (len (pre ++ [x])))
  = Some (mk 0 (pre ++ [c]) (len (pre ++ [x]))).
Proof.
  unfold add. simpl. rewrite Z.ltb_irrefl.
  replace (len (pre ++ [x]) - 1) with (len pre)
    by (rewrite len_app; unfold len; simpl; lia).
  by rewrite setitem_middle.
Qed.

(** From a position past the commands [ys], [previous] called once per
    element of [ys] returns them last to first. *)
Lemma previous_n_walk (ys a b : list str) (M : Z) :
  previous_n (length ys) (mk (len (a ++ ys)) (a ++ ys ++ b) M)
  = Some (rev ys, mk (len a) (a ++ ys ++ b) M).
Proof.
  revert b. induction ys as [|y ys IH] using rev_ind; intros b.
  - simpl. by rewrite app_nil_r.
  - rewrite length_app. simpl length. rewrite Nat.add_1_r.
    cbn [previous_n]. unfold previous at 1. cbn [commands position max_size].
    pose proof (len_nonneg a) as Ha. pose proof (len_nonneg ys) as Hys.
    pose proof (len_nonneg b) as Hb.
    assert (Hl : len (a ++ (ys ++ [y]) ++ b) = len a + len ys + 1 + len b).
    { rewrite !len_app. unfold len. simpl. lia. }
    assert (Hp : len (a ++ ys ++ [y]) = len a + len ys + 1).
    { rewrite !len_app. unfold len. simpl. lia. }
    rewrite Hl, Hp.
    destruct (Z.eqb_spec (len a + len ys + 1 + len b) 0) as [?|_]; [lia|].
    destruct (Z.eqb_spec (len a + len ys + 1) 0) as [?|_]; [lia|].
    replace (len a + len ys + 1 - 1) with (len (a ++ ys))
      by (rewrite len_app; lia).
    replace (a ++ (ys ++ [y]) ++ b) with ((a ++ ys) ++ y :: b)
      by (by rewrite <- !app_assoc).
    rewrite getitem_middle. simpl.
    replace ((a ++ ys) ++ y :: b) with (a ++ ys ++ (y :: b))
      by (by rewrite <- !app_assoc).
    rewrite IH. simpl. by rewrite rev_app_distr.
Qed.

(** With [position = 0], the first [previous] wraps to the last slot. *)
Lemma previous_n_from_0 (a : list str) (y : str) (M : Z) :
  previous_n (S (length a)) (mk 0 (a ++ [y]) M)
  = Some (y :: rev a, mk 0 (a ++ [y]) M).
Proof.
  cbn [previous_n]. unfold previous at 1. cbn [commands position max_size].
  pose proof (len_nonneg a) as Ha.
  assert (Hl : len (a ++ [y]) = len a + 1).
  { rewrite len_app. unfold len. simpl. lia. }
  rewrite Hl.
  destruct (Z.eqb_spec (len a + 1) 0) as [?|_]; [lia|].
  simpl. replace (len a + 1 - 1) with (len a) by lia.
  rewrite getitem_middle. simpl.
  pose proof (previous_n_walk a [] [y] M) as Hw. simpl in Hw.
  by rewrite Hw.
Qed.

End HistoryFacts.

Example history_run_3 :
  (h ← CommandHistory.add_all [lit "a"; lit "b"; lit "c"] (CommandHistory.init 2);
   CommandHistory.previous_n 2 h) =
  Some ([lit "c"; lit "a"], CommandHistory.mk 0 [lit "a"; lit "c"] 2).
Proof. reflexivity. Qed.

(** The reading of the history property as the specification words it:
    from the commands [cs], one more than the capacity [N], [previous]
    called [N] times returns the last [N] of them, newest first, and the
    first command added is no longer stored. *)
Definition ring_keeps_newest (N : nat) (cs : list str) : Prop :=
  ∃ h out h',
    CommandHistory.add_all cs (CommandHistory.init (Z.of_nat N)) = Some h ∧
    CommandHistory.previous_n N h = Some (out, h') ∧
    out = take N (rev cs) ∧
    ∀ c, head cs = Some c → c ∉ CommandHistory.commands h.

(** C1, counterexample: with capacity 2 and the commands a, b, c, two
    calls of [previous] return c then a, and a is still stored. *)
Lemma history_ring_counterexample :
  ¬ ring_keeps_newest 2 [lit "a"; lit "b"; lit "c"].
Proof.
  intros (h & out & h' & Hadd & Hprev & Hout & Hgone).
  vm_compute in Hadd. injection Hadd as <-.
  apply (Hgone (lit "a")); [reflexivity|].
  vm_compute. apply list_elem_of_here.
Qed.

(** C1, as the code has it: a history of capacity [N >= 1] that received
    [N] commands [pre ++ [x]] and then one more, [c], stores
    [pre ++ [c]]: the slot of the command added last is overwritten, the
    first [N - 1] commands stay.  [previous] called [N] times returns [c]
    and then [pre] newest first, and leaves the list as it was.  When the
    commands are distinct, [x] is gone and every command of [pre], the
    first one added included, is still stored. *)
Theorem history_overflow_overwrites_last (pre : list str) (x c : str) :
  let N := S (length pre) in
  ∃ h h',
    CommandHistory.add_all (pre ++ [x; c]) (CommandHistory.init (Z.of_nat N))
      = Some h ∧
    CommandHistory.commands h = pre ++ [c] ∧
    CommandHistory.position h = 0 ∧
    CommandHistory.previous_n N h = Some (c :: rev pre, h') ∧
    CommandHistory.commands h' = pre ++ [c] ∧
    (NoDup (pre ++ [x; c]) → x ∉ CommandHistory.commands h) ∧
    (∀ y, y ∈ pre → y ∈ CommandHistory.commands h).
Proof.
  intros N.
  assert (HN : Z.of_nat N = len (pre ++ [x])).
  { unfold N, len. rewrite length_app. simpl. lia. }
  exists (CommandHistory.mk 0 (pre ++ [c]) (Z.of_nat N)),
         (CommandHistory.mk 0 (pre ++ [c]) (Z.of_nat N)).
  split; [|split; [done|split; [done|split; [|split; [done|split]]]]].
  - replace (pre ++ [x; c]) with ((pre ++ [x]) ++ [c])
      by (by rewrite <- app_assoc).
    assert (Hfill : ∀ l k h,
      CommandHistory.add_all l (CommandHistory.init (Z.of_nat N)) = Some h →
      CommandHistory.add_all (l ++ k) (CommandHistory.init (Z.of_nat N))
      = CommandHistory.add_all k h).
    { intros l k. generalize (CommandHistory.init (Z.of_nat N)).
      induction l as [|e l IH]; intros h0 h Hh; simpl in *.
      - by injection Hh as ->.
      - destruct (CommandHistory.add e h0) as [h1|]; simpl in *; [|done].
        by apply IH. }
    rewrite (Hfill _ _ (CommandHistory.mk 0 (pre ++ [x]) (Z.of_nat N))).
    + simpl. rewrite HN. by rewrite add_full_at_0.
    + unfold CommandHistory.init. rewrite add_all_fill; [done|].
      rewrite HN. unfold len. simpl. lia.
  - unfold N. apply previous_n_from_0.
  - simpl. intros Hnd Hin.
    apply NoDup_app in Hnd as (_ & Hdisj & Hnd2).
    apply elem_of_app in Hin as [Hin|Hin].
    + apply (Hdisj x Hin). apply list_elem_of_here.
    + apply list_elem_of_singleton in Hin as ->.
      apply NoDup_cons in Hnd2 as [Hn _]. apply Hn, list_elem_of_here.
  - simpl. intros y Hy. apply elem_of_app. by left.
Qed.

(** ** Slices and [find] *)

Lemma clamp_index_id (n i : Z) : 0 <= i <= n → clamp_index n i = i.
Proof.
  intros [H0 Hn]. unfold clamp_index.
  destruct (Z.ltb_spec i 0); lia.
Qed.

Lemma slice_in_range {A} (l : list A) (lo hi : Z) :
  0 <= lo <= hi → hi <= len l →
  slice l lo hi = take (Z.to_nat (hi - lo)) (drop (Z.to_nat lo) l).
Proof.
  intros H1 H2. unfold slice.
  rewrite !clamp_index_id by lia. reflexivity.
Qed.

Lemma slice_from_in_range {A} (l : list A) (lo : Z) :
  0 <= lo <= len l → slice_from l lo = drop (Z.to_nat lo) l.
Proof. intros H. unfold slice_from. by rewrite clamp_index_id. Qed.

Lemma slice_prefix {A} (a b : list A) : slice (a ++ b) 0 (len a) = a.
Proof.
  pose proof (len_nonneg a). pose proof (len_nonneg b).
  rewrite slice_in_range by (rewrite ?len_app; lia).
  rewrite Z.sub_0_r. change (Z.to_nat 0) with 0%nat. rewrite drop_0.
  unfold len. rewrite Nat2Z.id. apply take_app_length.
Qed.

Lemma slice_from_suffix {A} (a b : list A) : slice_from (a ++ b) (len a) = b.
Proof.
  pose proof (len_nonneg a). pose proof (len_nonneg b).
  rewrite slice_from_in_range by (rewrite ?len_app; lia).
  unfold len. rewrite Nat2Z.id. apply drop_app_length.
Qed.

Lemma slice_middle {A} (a b c : list A) (lo hi : Z) :
  lo = len a → hi = len a + len b → slice (a ++ b ++ c) lo hi = b.
Proof.
  intros -> ->.
  pose proof (len_nonneg a). pose proof (len_nonneg b).
  pose proof (len_nonneg c).
  rewrite slice_in_range by (rewrite ?len_app; lia).
  replace (len a + len b - len a) with (len b) by lia.
  unfold len. rewrite !Nat2Z.id. rewrite drop_app_length.
  apply take_app_length.
Qed.

Lemma len_slice_prefix {A} (l : list A) (p : Z) :
  0 <= p <= len l → len (slice l 0 p) = p.
Proof.
  intros H. rewrite slice_in_range by lia.
  rewrite Z.sub_0_r. change (Z.to_nat 0) with 0%nat. rewrite drop_0.
  unfold len in *. rewrite length_take. lia.
Qed.

Lemma len_slice_from {A} (l : list A) (p : Z) :
  0 <= p <= len l → len (slice_from l p) = len l - p.
Proof.
  intros H. rewrite slice_from_in_range by lia.
  unfold len in *. rewrite length_drop. lia.
Qed.

Lemma find_aux_absent (c : ascii) (s : str) (k : Z) :
  c ∉ s → find_aux c s k = -1.
Proof.
  revert k. induction s as [|x s IH]; intros k Hc; [done|].
  simpl. apply not_elem_of_cons in Hc as [Hx Hs].
  destruct (Ascii.eqb_spec x c) as [->|_]; [done|]. by apply IH.
Qed.

Lemma find_aux_first (c : ascii) (u w : str) (k : Z) :
  c ∉ u → find_aux c (u ++ c :: w) k = k + len u.
Proof.
  revert k. induction u as [|x u IH]; intros k Hc; simpl.
  - rewrite Ascii.eqb_refl. unfold len. simpl. lia.
  - apply not_elem_of_cons in Hc as [Hx Hu].
    destruct (Ascii.eqb_spec x c) as [->|_]; [done|].
    rewrite IH by done. unfold len. simpl length. lia.
Qed.

Lemma find_from (a b : str) (c : ascii) (i : Z) :
  i = len a → find (a ++ b) c i = find_aux c b i.
Proof.
  intros ->. unfold find.
  pose proof (len_nonneg a). pose proof (len_nonneg b).
  rewrite clamp_index_id by (rewrite len_app; lia).
  unfold len at 1. rewrite Nat2Z.id. by rewrite drop_app_length.
Qed.

Lemma find_0 (s : str) (c : ascii) : find s c 0 = find_aux c s 0.
Proof. by apply (find_from [] s c 0). Qed.

(** A text is a run of characters other than [c], and then nothing or
    [c] and the rest. *)
Lemma split_at_first (c : ascii) (s : str) :
  c ∉ s ∨ ∃ u w, s = u ++ c :: w ∧ c ∉ u.
Proof.
  destruct (decide (c ∈ s)) as [Hin|Hn]; [right|by left].
  apply list_elem_of_split_l in Hin as (u & w & -> & Hu). eauto.
Qed.

(** ** The line buffer invariant *)

Section CommandFacts.

Import Command.

Lemma init_wf (p : str) : wf (init p).
Proof. unfold wf, init, len. simpl. lia. Qed.

Lemma clear_wf (c : t) : wf (clear c).
Proof. unfold wf, clear, len. simpl. lia. Qed.

Lemma add_wf (key : option str) (c : t) : wf c → wf (add key c).1.
Proof.
  intros (H0 & H1 & H2). destruct key as [key|]; [|done].
  pose proof (len_nonneg key) as Hk. unfold add.
  destruct (Z.ltb_spec (position c) (length c)); unfold wf; simpl.
  - rewrite !len_app, len_slice_prefix, len_slice_from by lia. lia.
  - rewrite len_app. lia.
Qed.

Lemma backspace_keypress_wf (c : t) : wf c → wf (backspace_keypress c).1.
Proof.
  intros (H0 & H1 & H2). unfold backspace_keypress.
  destruct (Z.leb_spec (position c) 0); [done|].
  destruct (Z.ltb_spec (position c) (length c)); unfold wf; simpl.
  - rewrite !len_app, len_slice_prefix, len_slice_from by lia. lia.
  - rewrite len_slice_prefix by lia. lia.
Qed.

Lemma delete_keypress_wf (c : t) : wf c → wf (delete_keypress c).1.
Proof.
  intros (H0 & H1 & H2). unfold delete_keypress.
  destruct (Z.ltb_spec (position c) (length c)); [|done].
  destruct (Z.eqb_spec (length c) 1).
  { unfold wf, len. simpl. lia. }
  destruct (Z.ltb_spec 0 (length c)); [|done].
  unfold wf; simpl.
  rewrite !len_app, len_slice_prefix, len_slice_from by lia. lia.
Qed.

Lemma left_arrow_keypress_wf (c : t) : wf c → wf (left_arrow_keypress c).1.
Proof.
  intros (H0 & H1 & H2). unfold left_arrow_keypress.
  destruct (Z.ltb_spec 0 (position c)); unfold wf; simpl; lia.
Qed.

Lemma right_arrow_keypress_wf (c : t) : wf c → wf (right_arrow_keypress c).1.
Proof.
  intros (H0 & H1 & H2). unfold right_arrow_keypress.
  destruct (Z.ltb_spec (position c) (length c)); unfold wf; simpl; lia.
Qed.

Lemma home_keypress_wf (c : t) : wf c → wf (home_keypress c).1.
Proof. intros (H0 & H1 & H2). unfold wf; simpl; lia. Qed.

Lemma end_keypress_wf (c : t) : wf c → wf (end_keypress c).1.
Proof. intros (H0 & H1 & H2). unfold wf; simpl; lia. Qed.

Lemma replace_command_wf (new_cmd : str) (c : t) :
  wf c → wf (replace_command new_cmd c).1.
Proof.
  intros Hc. destruct new_cmd as [|x new_cmd]; [done|].
  pose proof (len_nonneg (x :: new_cmd)).
  unfold wf, replace_command. cbn [fst position length command]. lia.
Qed.

End CommandFacts.

(** C6: [erase_command] empties [command] and leaves [position] and
    [length] as they were, so on a line that holds text the invariant
    [0 <= position <= length == len(command)] is lost when it returns.
    ([clear] resets all three; the other operations keep the invariant,
    see the lemmas above.) *)
Theorem erase_command_loses_invariant (c : Command.t) :
  Command.wf c → 0 < Command.length c →
  let c' := (Command.erase_command c).1 in
  Command.command c' = [] ∧
  Command.position c' = Command.position c ∧
  Command.length c' = Command.length c ∧
  ¬ Command.wf c'.
Proof.
  intros (H0 & H1 & H2) Hpos. simpl.
  repeat split. intros (_ & _ & H). simpl in H. unfold len in H.
  simpl in H. lia.
Qed.

Lemma erase_command_loses_invariant_witness :
  let c := Command.mk (lit "> ") 3 (lit "abc") 3 in
  Command.wf c ∧ ¬ Command.wf (Command.erase_command c).1.
Proof.
  assert (Hwf : Command.wf (Command.mk (lit "> ") 3 (lit "abc") 3)).
  { unfold Command.wf, len. simpl. lia. }
  split; [exact Hwf|].
  apply (erase_command_loses_invariant _ Hwf). simpl. lia.
Defined.

(** What the lost invariant leads to: with [abc def] typed, ESCAPE empties
    the text and keeps [position = length = 7]; after a left arrow the
    cursor is taken to be inside the line, and Tab reads [command[5]] of
    the empty text, an IndexError. *)
Example escape_then_tab_raises :
  let press := Console._process_command_keys Examples.get_matches
                 Examples.show_variables Examples.print_dictionary_list in
  let c0 := Console.plain_key (lit "abc def")
              (Console.init [] (lit "> ") 80 None false false false
                 ([] : list (str * str))) in
  (c1 ← press Console.ESCAPE c0;
   c2 ← press Console.ARROW_LT c1;
   Some (Console.cmd_line c2))
  = Some (Command.mk (lit "> ") 6 [] 7) ∧
  (c1 ← press Console.ESCAPE c0;
   c2 ← press Console.ARROW_LT c1;
   press Console.TAB c2) = None.
Proof. split; reflexivity. Qed.

(** ** Variable substitution *)

Section ReplaceVariables.

Import Console SubstitutionSpec.

Context {V : Type} (find_variable : V → str → option str) (vars : V).

Let lookup := find_variable vars.
Local Abbreviation scan := (scan_tokens is_sp lookup).

Lemma token_split (w : str) :
  ∃ name r, w = name ++ r ∧ (SP ∉ name) ∧ ends_token r.
Proof.
  destruct (split_at_first SP w) as [Hn|(u & w' & -> & Hu)].
  - exists w, []. rewrite app_nil_r. repeat split; [done|by left].
  - exists u, (SP :: w'). repeat split; [done|right; eauto].
Qed.

Lemma scan_plain (v r : str) :
  DOLLAR ∉ v →
  scan None (v ++ r) = v ++ scan None r.
Proof.
  induction v as [|x v IH]; intros Hv; [done|].
  apply not_elem_of_cons in Hv as [Hx Hv]. simpl.
  destruct (Ascii.eqb_spec x DOLLAR) as [->|_]; [done|].
  by rewrite IH.
Qed.

Lemma scan_name (name r acc : str) :
  SP ∉ name → ends_token r →
  scan (Some acc) (name ++ r) = resolve lookup (acc ++ name) ++ scan None r.
Proof.
  revert acc. induction name as [|x name IH]; intros acc Hn Hr.
  - rewrite app_nil_r. simpl. destruct Hr as [->|(r' & ->)].
    + simpl. by rewrite app_nil_r.
    + reflexivity.
  - apply not_elem_of_cons in Hn as [Hx Hn]. simpl. unfold is_sp at 1.
    destruct (Ascii.eqb_spec x SP) as [->|_]; [done|].
    rewrite IH by done. by rewrite <- app_assoc.
Qed.

Lemma dollars_app (a b : str) : dollars (a ++ b) = (dollars a + dollars b)%nat.
Proof. unfold dollars. by rewrite filter_app, length_app. Qed.

Lemma dollars_absent (v : str) : DOLLAR ∉ v → dollars v = 0%nat.
Proof.
  induction v as [|x v IH]; intros Hv; [done|].
  apply not_elem_of_cons in Hv as [Hx Hv].
  unfold dollars in *. rewrite filter_cons_False by done. by apply IH.
Qed.

Lemma dollars_cons_dollar (w : str) : dollars (DOLLAR :: w) = S (dollars w).
Proof. unfold dollars. by rewrite filter_cons_True. Qed.

(** One pass of the loop when no [$] is left. *)
Lemma replace_step_done (done todo : str) :
  DOLLAR ∉ todo →
  replace_step find_variable vars (len done, done ++ todo)
  = (-1, done ++ todo).
Proof.
  intros Hn. unfold replace_step. cbn [fst snd].
  rewrite find_from by done. by rewrite find_aux_absent.
Qed.

(** One pass of the loop at the next token. *)
Lemma replace_step_token (done u name r : str) :
  1 <= len done → DOLLAR ∉ u → SP ∉ name → ends_token r →
  replace_step find_variable vars
    (len done, done ++ u ++ DOLLAR :: name ++ r)
  = match lookup name with
    | Some value => (len (done ++ u), (done ++ u) ++ value ++ r)
    | None => (len ((done ++ u) ++ DOLLAR :: name),
               done ++ u ++ DOLLAR :: name ++ r)
    end.
Proof.
  intros Hd Hu Hn Hr. unfold replace_step. cbn [fst snd].
  pose proof (len_nonneg u) as Hlu. pose proof (len_nonneg name) as Hln.
  pose proof (len_nonneg r) as Hlr.
  rewrite find_from by done. rewrite find_aux_first by done.
  destruct (Z.ltb_spec 0 (len done + len u)) as [_|?]; [|lia].
  assert (Hj : find (done ++ u ++ DOLLAR :: name ++ r) SP (len done + len u)
               = if decide (r = []) then -1
                 else len done + len u + 1 + len name).
  { replace (done ++ u ++ DOLLAR :: name ++ r)
      with ((done ++ u) ++ DOLLAR :: name ++ r) by (by rewrite <- app_assoc).
    rewrite find_from by (by rewrite len_app).
    simpl. change (Ascii.eqb DOLLAR SP) with false. cbn iota.
    destruct Hr as [->|(r' & ->)].
    - rewrite app_nil_r. rewrite find_aux_absent by done. by case_decide.
    - rewrite find_aux_first by done. case_decide; [done|lia]. }
  rewrite Hj. clear Hj.
  set (j := len done + len u + 1 + len name).
  assert (Hlen : len (done ++ u ++ DOLLAR :: name ++ r) = j + len r).
  { unfold j, len. rewrite !length_app, length_cons, length_app. lia. }
  assert (Hjj : (let j0 := if decide (r = []) then -1 else j in
                 if j0 =? -1 then len (done ++ u ++ DOLLAR :: name ++ r)
                 else j0) = j).
  { simpl. case_decide as Hre.
    - subst r. rewrite Z.eqb_refl, Hlen. unfold len. simpl. lia.
    - destruct (Z.eqb_spec j (-1)); [unfold j in *; lia|done]. }
  simpl in Hjj. rewrite Hjj. clear Hjj.
  destruct (Z.ltb_spec (len done + len u) j) as [_|?]; [|unfold j in *; lia].
  assert (Hname : slice (done ++ u ++ DOLLAR :: name ++ r)
                    (len done + len u + 1) j = name).
  { replace (done ++ u ++ DOLLAR :: name ++ r)
      with ((done ++ u ++ [DOLLAR]) ++ name ++ r)
      by (by rewrite <- !app_assoc).
    apply slice_middle.
    - rewrite !len_app. unfold len. simpl. lia.
    - rewrite !len_app. unfold j, len. simpl. lia. }
  rewrite Hname. fold lookup.
  destruct (lookup name) as [value|].
  - f_equal; [by rewrite len_app|].
    replace (done ++ u ++ DOLLAR :: name ++ r)
      with ((done ++ u) ++ (DOLLAR :: name) ++ r) at 1
      by (by rewrite <- !app_assoc).
    rewrite <- len_app. rewrite slice_prefix.
    replace (done ++ u ++ DOLLAR :: name ++ r)
      with (((done ++ u) ++ DOLLAR :: name) ++ r)
      by (by rewrite <- !app_assoc).
    replace j with (len ((done ++ u) ++ DOLLAR :: name)).
    + by rewrite slice_from_suffix.
    + rewrite !len_app. unfold j, len. simpl length. lia.
  - f_equal. rewrite !len_app. unfold j, len. simpl length. lia.
Qed.

(** When no stored value holds a [$], the loop returns within one pass per
    [$] of the text and one more, and what it returns is the text with
    the tokens after [done] substituted. *)
Lemma replace_loop_scan (fuel : nat) (done todo : str) :
  (∀ name value, lookup name = Some value → DOLLAR ∉ value) →
  1 <= len done → (dollars todo < fuel)%nat →
  replace_loop find_variable fuel vars (len done, done ++ todo)
  = Some (done ++ scan None todo).
Proof.
  intros Hval. revert done todo.
  induction fuel as [|fuel IH]; intros done todo Hd Hf; [lia|].
  cbn [replace_loop fst].
  destruct (Z.ltb_spec 0 (len done)) as [_|?]; [|lia].
  destruct (split_at_first DOLLAR todo) as [Hn|(u & w & -> & Hu)].
  - rewrite replace_step_done by done.
    destruct fuel; simpl; rewrite <- (app_nil_r todo) at 2;
      by rewrite scan_plain, app_nil_r.
  - destruct (token_split w) as (name & r & -> & Hname & Hr).
    rewrite replace_step_token by done.
    rewrite dollars_app, dollars_cons_dollar, dollars_app in Hf.
    rewrite scan_plain by done. simpl.
    rewrite (scan_name name r []) by done. simpl. unfold resolve.
    destruct (lookup name) as [value|] eqn:Hl.
    + rewrite IH; [|rewrite len_app; pose proof (len_nonneg u); lia|].
      * rewrite scan_plain by eauto. by rewrite <- !app_assoc.
      * rewrite dollars_app, dollars_absent by eauto. lia.
    + replace (done ++ u ++ DOLLAR :: name ++ r)
        with (((done ++ u) ++ DOLLAR :: name) ++ r)
        by (by rewrite <- !app_assoc).
      rewrite IH; [|rewrite !len_app; pose proof (len_nonneg u);
                     pose proof (len_nonneg (DOLLAR :: name)); lia|lia].
      by rewrite <- !app_assoc.
Qed.

End ReplaceVariables.

Example replace_use_name_now :
  Console._replace_variables Examples.find_variable 2
    [(lit "name", lit "db1")] (lit "use $name now")
  = Some (lit "use db1 now").
Proof. reflexivity. Qed.

Example replace_missing_verbatim :
  Console._replace_variables Examples.find_variable 2
    [(lit "name", lit "db1")] (lit "use $missing now")
  = Some (lit "use $missing now").
Proof. reflexivity. Qed.

(** C3, counterexample.  With [name] bound to [db1], substituting every
    token of [$name now] gives [db1 now], while [_replace_variables]
    returns the text as it is: its search starts at index 1.  A token
    that a tab ends is not replaced either: the code ends a token at a
    space only.  And with [a] bound to [$b] and [b] bound to [c], the
    token [$a] does not become the stored [$b]: the inserted value is
    substituted again. *)
Lemma replace_variables_counterexample :
  let run := Console._replace_variables Examples.find_variable in
  let spec vars := SubstitutionSpec.substitute_all
                     (Examples.find_variable vars) in
  let name_db1 := [(lit "name", lit "db1")] in
  let nested := [(lit "a", lit "$b"); (lit "b", lit "c")] in
  (spec name_db1 (lit "$name now") = lit "db1 now" ∧
   run 2%nat name_db1 (lit "$name now") = Some (lit "$name now") ∧
   ¬ ∃ fuel, run fuel name_db1 (lit "$name now")
             = Some (spec name_db1 (lit "$name now"))) ∧
  (spec name_db1 (lit "use $name" ++ [HT] ++ lit "now")
   = lit "use db1" ++ [HT] ++ lit "now" ∧
   ¬ ∃ fuel, run fuel name_db1 (lit "use $name" ++ [HT] ++ lit "now")
             = Some (spec name_db1 (lit "use $name" ++ [HT] ++ lit "now"))) ∧
  (spec nested (lit "x $a") = lit "x $b" ∧
   run 3%nat nested (lit "x $a") = Some (lit "x c") ∧
   ¬ ∃ fuel, run fuel nested (lit "x $a") = Some (spec nested (lit "x $a"))).
Proof.
  intros run spec name_db1 nested. split; [|split].
  - split; [reflexivity|]. split; [reflexivity|].
    intros [fuel H]. destruct fuel as [|[|fuel]];
      vm_compute in H; discriminate.
  - split; [reflexivity|].
    intros [fuel H]. destruct fuel as [|[|[|fuel]]];
      vm_compute in H; discriminate.
  - split; [reflexivity|]. split; [reflexivity|].
    intros [fuel H]. destruct fuel as [|[|[|[|fuel]]]];
      vm_compute in H; discriminate.
Qed.

(** C3, as the code has it: when no stored value holds a [$], the
    substitution returns, and returns the text with its first character
    kept and, after it, every [$name] token, from the [$] to the next
    space or to the end, replaced by the value stored under [name], or
    left as it is when nothing is stored.  One pass per [$] of the text
    and one more are enough. *)
Theorem replace_variables_substitutes_tokens {V : Type}
    (find_variable : V → str → option str) (vars : V) (cmd_string : str)
    (fuel : nat) :
  (∀ name value, find_variable vars name = Some value → DOLLAR ∉ value) →
  (dollars cmd_string < fuel)%nat →
  Console._replace_variables find_variable fuel vars cmd_string
  = Some (SubstitutionSpec.substitute_after_first (find_variable vars)
            cmd_string).
Proof.
  intros Hval Hf. unfold Console._replace_variables.
  destruct cmd_string as [|x s].
  - destruct fuel as [|[|fuel]]; [lia|done|done].
  - change (x :: s) with ([x] ++ s). change 1 with (len [x]).
    rewrite replace_loop_scan; [done|done|unfold len; simpl; lia|].
    unfold dollars in *. simpl in Hf.
    destruct (decide (x = DOLLAR)).
    + rewrite filter_cons_True in Hf by done. simpl in Hf. lia.
    + by rewrite filter_cons_False in Hf by done.
Qed.

Lemma replace_variables_substitutes_tokens_witness :
  Console._replace_variables Examples.find_variable 2
    [(lit "name", lit "db1")] (lit "use $name now")
  = Some (lit "use db1 now").
Proof.
  apply (replace_variables_substitutes_tokens Examples.find_variable
           [(lit "name", lit "db1")] (lit "use $name now") 2).
  - intros name value. unfold Examples.find_variable. simpl.
    destruct (eqs _ name); [|discriminate].
    intros [= <-]. apply (bool_decide_unpack _). vm_compute. exact I.
  - vm_compute. lia.
Defined.

(** A state that a pass of the loop maps to itself is never left. *)
Lemma replace_loop_stuck {V : Type} (find_variable : V → str → option str)
    (vars : V) (st : Z * str) (fuel : nat) :
  0 < st.1 → Console.replace_step find_variable vars st = st →
  Console.replace_loop find_variable fuel vars st = None.
Proof.
  intros Hpos Hfix. induction fuel as [|fuel IH]; simpl.
  - by destruct (Z.ltb_spec 0 st.1); [|lia].
  - destruct (Z.ltb_spec 0 st.1); [|lia]. by rewrite Hfix.
Qed.

Lemma replace_variables_self_reference_stuck (fuel : nat) :
  Console._replace_variables Examples.find_variable fuel
    [(lit "x", lit "$x")] (lit "echo $x")
  = None.
Proof.
  unfold Console._replace_variables.
  destruct fuel as [|fuel]; [reflexivity|].
  change (Console.replace_loop Examples.find_variable fuel
            [(lit "x", lit "$x")] (5, lit "echo $x") = None).
  apply replace_loop_stuck; [simpl; lia|reflexivity].
Qed.

(** C9: with [x] bound to the text [$x], the substitution of [echo $x]
    has not returned after any number of passes: the first pass moves the
    index to the [$], and every pass from there replaces [$x] by [$x] and
    leaves the index where it is. *)
Theorem replace_variables_self_reference_diverges (fuel : nat) :
  Console._replace_variables Examples.find_variable fuel
    [(lit "x", lit "$x")] (lit "echo $x") = None ∧
  Console.replace_step Examples.find_variable [(lit "x", lit "$x")]
    (1, lit "echo $x") = (5, lit "echo $x") ∧
  Console.replace_step Examples.find_variable [(lit "x", lit "$x")]
    (5, lit "echo $x") = (5, lit "echo $x").
Proof.
  split; [|split; reflexivity].
  destruct fuel as [|fuel]; [reflexivity|].
  unfold Console._replace_variables.
  change (Console.replace_loop Examples.find_variable fuel
            [(lit "x", lit "$x")] (5, lit "echo $x") = None).
  apply replace_loop_stuck; [simpl; lia|reflexivity].
Qed.

(** How the table of C9 comes about: [set x=$x] stores the text [$x]
    under [x], since [x] is not defined when the command is substituted;
    [echo $x] then does not return. *)
Example set_self_reference_then_echo :
  let do_command := Console._do_command Examples.find_variable
                      Examples.add_variable Examples.show_variables
                      Examples.print_dictionary_list Examples.shlex_split in
  let c0 := Console.init [] (lit "> ") 80 None false true false
              ([] : list (str * str)) in
  (Console.variables <$> (snd <$> do_command 2%nat (lit "set x=$x") c0))
  = Some [(lit "x", lit "$x")] ∧
  ∀ fuel c, Console.variables c = [(lit "x", lit "$x")] →
            do_command fuel (lit "echo $x") c = None.
Proof.
  split; [reflexivity|]. intros fuel c Hv.
  unfold Console._do_command. rewrite Hv.
  change (strip SP (lit "echo $x")) with (lit "echo $x").
  by rewrite replace_variables_self_reference_stuck.
Qed.

(** ** Splitting at spaces and the nearest option *)

Lemma split_absent (c : ascii) (s : str) : c ∉ s → split c s = [s].
Proof.
  induction s as [|x s IH]; intros Hc; [done|].
  apply not_elem_of_cons in Hc as [Hx Hs]. simpl.
  destruct (Ascii.eqb_spec x c) as [->|_]; [done|]. by rewrite IH.
Qed.

Lemma split_app (c : ascii) (u w : str) :
  c ∉ u → split c (u ++ c :: w) = u :: split c w.
Proof.
  induction u as [|x u IH]; intros Hc; simpl.
  - by rewrite Ascii.eqb_refl.
  - apply not_elem_of_cons in Hc as [Hx Hu].
    destruct (Ascii.eqb_spec x c) as [->|_]; [done|]. by rewrite IH.
Qed.

Lemma split_nonempty (c : ascii) (s : str) : ∃ p ps, split c s = p :: ps.
Proof.
  destruct (split_at_first c s) as [Hn|(u & w & -> & Hu)].
  - rewrite split_absent by done. eauto.
  - rewrite split_app by done. eauto.
Qed.

(** The last part of a split is what follows the last separator. *)
Lemma split_last (c : ascii) (pre seg : str) :
  c ∉ seg → last (split c (pre ++ c :: seg)) = Some seg.
Proof.
  intros Hseg. remember (length pre) as n eqn:Hn.
  revert pre Hn. induction n as [n IH] using lt_wf_ind. intros pre Hn.
  destruct (split_at_first c pre) as [Hp|(u & w & -> & Hu)].
  - rewrite split_app by done. rewrite split_absent by done. done.
  - rewrite <- app_assoc. simpl. rewrite split_app by done.
    destruct (split_nonempty c (w ++ c :: seg)) as (p & ps & Hs).
    rewrite Hs. rewrite last_cons. rewrite <- Hs.
    rewrite (IH (length w)); [done| |done].
    subst n. rewrite length_app. simpl. lia.
Qed.

(** The first part of a split is no longer than the text before any
    separator. *)
Lemma split_first_short (c : ascii) (pre rest : str) :
  ∃ p ps, split c (pre ++ c :: rest) = p :: ps ∧ ps ≠ [] ∧ len p <= len pre.
Proof.
  destruct (split_at_first c pre) as [Hp|(u & w & -> & Hu)].
  - rewrite split_app by done.
    destruct (split_nonempty c rest) as (q & qs & Hq).
    exists pre, (split c rest). rewrite Hq. split; [done|]. split; [done|lia].
  - rewrite <- app_assoc. simpl. rewrite split_app by done.
    destruct (split_nonempty c (w ++ c :: rest)) as (q & qs & Hq).
    exists u, (split c (w ++ c :: rest)). rewrite Hq.
    split; [done|]. split; [done|]. rewrite len_app.
    pose proof (len_nonneg (c :: w)). lia.
Qed.

Lemma lstrip_by_id (p : ascii → bool) (s : str) :
  (∀ x, x ∈ s → p x = false) → lstrip_by p s = s.
Proof.
  destruct s as [|x s]; [done|]. intros H. simpl.
  by rewrite (H x) by apply list_elem_of_here.
Qed.

Lemma strip_absent (c : ascii) (s : str) : c ∉ s → strip c s = s.
Proof.
  intros Hc. unfold strip, strip_by.
  assert (Hp : ∀ x, x ∈ s → Ascii.eqb c x = false).
  { intros x Hx. destruct (Ascii.eqb_spec c x) as [->|]; done. }
  rewrite (lstrip_by_id _ s) by done.
  rewrite lstrip_by_id; [by rewrite rev_involutive|].
  intros x Hx. apply Hp. apply list_elem_of_In in Hx.
  apply in_rev in Hx. by apply list_elem_of_In.
Qed.

Section NearestOption.

Import Command.

(** The scan from inside a token reaches the space before it and returns
    the text from there to the cursor. *)
Lemma nearest_scan_token (seg1 seg2 pre post : str) (n : nat) (c : t) :
  command c = pre ++ SP :: (seg1 ++ seg2) ++ post →
  SP ∉ seg1 → (Datatypes.length seg1 < n)%nat →
  nearest_scan n (len pre + len seg1) c
  = Some (strip SP (slice (command c) (len pre + 1) (position c))).
Proof.
  revert seg2 n. induction seg1 as [|x seg1 IH] using rev_ind;
    intros seg2 n Hc Hs Hn.
  - destruct n as [|n]; [simpl in Hn; lia|]. simpl.
    replace (len pre + len []) with (len pre) by (unfold len; simpl; lia).
    rewrite Hc at 1. rewrite getitem_middle. simpl.
    change (Ascii.eqb SP SP) with true. done.
  - destruct n as [|n]; [simpl in Hn; lia|].
    rewrite length_app in Hn. simpl in Hn.
    apply not_elem_of_app in Hs as [Hs Hx].
    apply not_elem_of_cons in Hx as [Hx _].
    cbn [nearest_scan].
    assert (Hc' : command c = (pre ++ SP :: seg1) ++ x :: seg2 ++ post).
    { rewrite Hc. app_eq. }
    replace (len pre + len (seg1 ++ [x])) with (len (pre ++ SP :: seg1)).
    2:{ len_lia. }
    rewrite Hc' at 1. rewrite getitem_middle. simpl.
    destruct (Ascii.eqb_spec x SP) as [->|_]; [done|].
    replace (len (pre ++ SP :: seg1) - 1) with (len pre + len seg1).
    2:{ len_lia. }
    apply (IH (x :: seg2)); [|done|lia].
    rewrite Hc. app_eq.
Qed.

(** With the cursor right after [seg], a run without spaces that follows a
    space, the nearest option is [seg]. *)
Lemma get_nearest_option_token (pre seg post : str) (c : t) :
  wf c → command c = pre ++ SP :: seg ++ post → SP ∉ seg →
  position c = len pre + 1 + len seg →
  get_nearest_option c = Some seg.
Proof.
  intros (H0 & H1 & H2) Hc Hs Hp. unfold get_nearest_option.
  pose proof (len_nonneg pre) as Hlp. pose proof (len_nonneg seg) as Hls.
  pose proof (len_nonneg post) as Hlq.
  assert (Hlen : len (command c) = len pre + 1 + len seg + len post).
  { rewrite Hc. unfold len. rewrite length_app, length_cons, length_app. lia. }
  destruct (Z.ltb_spec (position c) (length c)) as [Hlt|Hge].
  - destruct (split_first_short SP pre (seg ++ post)) as (p & ps & Hsp & _ & Hle).
    rewrite Hc at 1. rewrite Hsp. unfold getitem at 1. simpl.
    replace (position c - 1) with (len pre + len seg) by lia.
    assert (Hscan := nearest_scan_token seg [] pre post
              (Z.to_nat (len pre + len seg - (len p - 1))) c).
    rewrite app_nil_r in Hscan.
    pose proof (len_nonneg p).
    rewrite Hscan; [|done|done|unfold len in *; lia].
    f_equal. rewrite Hp.
    replace (command c) with ((pre ++ [SP]) ++ seg ++ post).
    2:{ rewrite Hc. app_eq. }
    rewrite slice_middle.
    + by apply strip_absent.
    + rewrite len_app. unfold len. simpl. lia.
    + rewrite len_app. unfold len. simpl. lia.
  - assert (post = []) as ->.
    { destruct post; [done|]. unfold len in *. simpl in *. lia. }
    rewrite app_nil_r in Hc. rewrite Hc.
    destruct (split_nonempty SP (pre ++ SP :: seg)) as (q & qs & Hq).
    pose proof (split_last SP pre seg Hs) as Hl. rewrite Hq in *.
    unfold getitem.
    pose proof (len_nonneg (q :: qs)) as Hlq'.
    assert (0 < len (q :: qs)) by (unfold len; simpl; lia).
    destruct (Z.ltb_spec (len (q :: qs) - 1) 0); [lia|].
    destruct (Z.ltb_spec (len (q :: qs) - 1) 0); [lia|].
    destruct (Z.leb_spec (len (q :: qs)) (len (q :: qs) - 1)); [lia|].
    simpl. rewrite last_lookup in Hl. rewrite <- Hl. f_equal.
    unfold len. simpl length. lia.
Qed.

End NearestOption.

(** ** The completion mode *)

(** The empty line with the cursor at its start. *)
Example complete_mode_empty_line :
  let k := Console.init (V:=unit) [] (lit "> ") 80 None false false false tt in
  (Console.type_complete_mode <$> (snd <$> Console._set_complete_mode k))
  = Some Console._OPTION_COMPLETE.
Proof. reflexivity. Qed.

(** C4, counterexample.  On the empty line, which holds no space, the
    mode the words of the specification give is command completion; the
    code sets option completion.  And on [a$b cd] with the cursor after
    [a$b], the token nearest the cursor holds a [$], so the words give
    variable completion; the code, with the cursor inside the line and no
    space to its left, takes the segment to be ERROR and sets option
    completion. *)
Lemma complete_mode_counterexample :
  let k0 := Console.init (V:=unit) [] (lit "> ") 80 None false false false tt in
  let mode k := Console.type_complete_mode <$>
                  (snd <$> Console._set_complete_mode k) in
  let words k := CompletionSpec.mode_in_words
                   (Command.command (Console.cmd_line k))
                   (Z.to_nat (Command.position (Console.cmd_line k))) in
  let k1 := Console.set_cmd_line
              (Command.mk (lit "> ") 3 (lit "a$b cd") 6) k0 in
  (words k0 = Console._COMMAND_COMPLETE ∧
   mode k0 = Some Console._OPTION_COMPLETE ∧
   ¬ (mode k0 = Some (words k0))) ∧
  (words k1 = Console._VARIABLE_COMPLETE ∧
   Console._set_complete_mode k1
   = Some (lit "ERROR",
           Console.set_type_complete_mode Console._OPTION_COMPLETE k1) ∧
   ¬ (mode k1 = Some (words k1))).
Proof.
  intros k0 mode words k1. split.
  - split; [reflexivity|]. split; [reflexivity|]. vm_compute. discriminate.
  - split; [reflexivity|]. split; [reflexivity|]. vm_compute. discriminate.
Qed.

(** A segment that starts with [$]: [segment.find('$')] is 0, which the
    test [> 0] takes for no [$] at all. *)
Example complete_mode_leading_dollar :
  let k := Console.plain_key (lit "echo $x")
             (Console.init (V:=unit) [] (lit "> ") 80 None
                false false false tt) in
  Console._set_complete_mode k
  = Some (lit "$x",
          Console.set_type_complete_mode Console._OPTION_COMPLETE k).
Proof. reflexivity. Qed.

(** C4, as the code has it.  On a line buffer that satisfies its
    invariant: a buffer that is not empty and holds no space is completed
    as a command; the empty buffer is completed as an option; and when
    the cursor stands right after [seg], a run without spaces that follows
    a space, the segment is [seg], and the mode is variable completion
    when [seg] holds a [$] after its first character and none at its
    first, option completion when [seg] holds no [$]. *)
Theorem complete_mode_selection {V : Type} (k : Console.t V) :
  Command.wf (Console.cmd_line k) →
  let buf := Command.command (Console.cmd_line k) in
  (buf ≠ [] → SP ∉ buf →
   Console._set_complete_mode k
   = Some ([], Console.set_type_complete_mode Console._COMMAND_COMPLETE k)) ∧
  (buf = [] →
   Console._set_complete_mode k
   = Some ([], Console.set_type_complete_mode Console._OPTION_COMPLETE k)) ∧
  (∀ pre seg post,
     buf = pre ++ SP :: seg ++ post → SP ∉ seg →
     Command.position (Console.cmd_line k) = len pre + 1 + len seg →
     (∀ x u w, seg = x :: u ++ DOLLAR :: w → DOLLAR ∉ x :: u →
        Console._set_complete_mode k
        = Some (seg, Console.set_type_complete_mode
                       Console._VARIABLE_COMPLETE k)) ∧
     (DOLLAR ∉ seg →
        Console._set_complete_mode k
        = Some (seg, Console.set_type_complete_mode
                       Console._OPTION_COMPLETE k))).
Proof.
  intros Hwf buf. unfold Console._set_complete_mode, Command.get_command.
  fold buf. split; [|split].
  - intros Hne Hsp. rewrite split_absent by done.
    destruct buf; [done|]. reflexivity.
  - intros Hb. destruct Hwf as (H0 & H1 & H2). fold buf in H2.
    rewrite Hb in *. simpl. unfold Command.get_nearest_option.
    fold buf. rewrite Hb. unfold len in H2. simpl in H2.
    destruct (Z.ltb_spec (Command.position (Console.cmd_line k))
                (Command.length (Console.cmd_line k))); [lia|].
    reflexivity.
  - intros pre seg post Hb Hs Hp.
    destruct (split_first_short SP pre (seg ++ post))
      as (p & ps & Hsp & Hps & _).
    assert (Hone : (0 <? len buf) && (len (split SP buf) =? 1) = false).
    { rewrite Hb, Hsp. destruct ps; [done|]. unfold len. simpl length.
      destruct (Z.eqb_spec (Z.of_nat (S (S (length ps)))) 1); [lia|].
      apply andb_false_r. }
    rewrite Hone.
    rewrite (get_nearest_option_token pre seg post) by done. simpl.
    split.
    + intros x u w -> Hd.
      change (x :: u ++ DOLLAR :: w) with ((x :: u) ++ DOLLAR :: w).
      rewrite find_0, find_aux_first by done.
      destruct (Z.ltb_spec 0 (0 + len (x :: u))); [done|].
      unfold len in *. simpl in *. lia.
    + intros Hd. by rewrite find_0, find_aux_absent.
Qed.

Lemma complete_mode_selection_witness :
  let k := Console.plain_key (lit "echo a$x")
             (Console.init (V:=unit) [] (lit "> ") 80 None
                false false false tt) in
  Console._set_complete_mode k
  = Some (lit "a$x",
          Console.set_type_complete_mode Console._VARIABLE_COMPLETE k).
Proof.
  intros k.
  assert (Hwf : Command.wf (Console.cmd_line k)).
  { unfold k, Command.wf. simpl. unfold len. simpl. lia. }
  destruct (complete_mode_selection k Hwf) as (_ & _ & H).
  destruct (H (lit "echo") (lit "a$x") []) as [Hv _].
  - reflexivity.
  - apply (bool_decide_unpack _). vm_compute. exact I.
  - reflexivity.
  - apply (Hv "a"%char [] (lit "x")); [reflexivity|].
    apply (bool_decide_unpack _). vm_compute. exact I.
Defined.

(** ** Tab completion of commands *)

Section TabCompletion.

Context {V : Type}.
Variable get_matches : V → option str → list (str * str).
Variable show_variables : V → option (list (str * str)) → str.
Variable print_dictionary_list : list Console.entry → Z → str.

Let press := Console._process_command_keys get_matches show_variables
               print_dictionary_list.

(** C10: with the catalog of the entries help and history and the press
    counter at 0: on the buffer [he] with the cursor at its end one Tab
    completes the buffer to [help ], writing the remainder [lp ], and
    leaves the counter at 0; on the buffer [h], wherever the cursor is, the
    first Tab changes nothing but the counter, and the second prints both
    entries, then the prompt and the unchanged buffer [h], and resets the
    counter. *)
Theorem tab_completion_help_history (c : Console.t V) (prompt : str) :
  Console.base_commands c = [help_entry; history_entry] →
  Console.tab_count c = 0 →
  (Console.cmd_line c = Command.mk prompt 2 (lit "he") 2 →
   ∃ c1, press Console.TAB c = Some c1 ∧
         Console.cmd_line c1 = Command.mk prompt 5 (lit "help ") 5 ∧
         Console.tab_count c1 = 0 ∧
         Console.stdout c1 = Console.stdout c ++ lit "lp ") ∧
  (∀ p, Console.cmd_line c = Command.mk prompt p (lit "h") 1 →
   ∃ c1 c2, press Console.TAB c = Some c1 ∧
            Console.cmd_line c1 = Command.mk prompt p (lit "h") 1 ∧
            Console.tab_count c1 = 1 ∧
            Console.stdout c1 = Console.stdout c ∧
            press Console.TAB c1 = Some c2 ∧
            Console.cmd_line c2 = Command.mk prompt p (lit "h") 1 ∧
            Console.tab_count c2 = 0 ∧
            Console.stdout c2
            = (((Console.stdout c ++ [NL; NL]) ++
                print_dictionary_list [help_entry; history_entry]
                  (Console.width c)) ++ [NL]) ++ prompt ++ lit "h").
Proof.
  destruct c. simpl. intros -> ->. split; [intros ->|intros p ->].
  - eexists. split; [reflexivity|]. repeat split; reflexivity.
  - eexists. eexists. split; [reflexivity|].
    do 3 (split; [reflexivity|]). split; [reflexivity|].
    repeat split; reflexivity.
Qed.

End TabCompletion.

Lemma tab_completion_help_history_witness :
  (∃ c1,
     CompletionExamples.press Console.TAB
       (CompletionExamples.type "he" CompletionExamples.console) = Some c1 ∧
     Console.cmd_line c1 = Command.mk (lit "> ") 5 (lit "help ") 5 ∧
     Console.tab_count c1 = 0 ∧
     Console.stdout c1 = lit "> help ") ∧
  (∃ c1 c2,
     CompletionExamples.press Console.TAB
       (CompletionExamples.type "h" CompletionExamples.console) = Some c1 ∧
     CompletionExamples.press Console.TAB c1 = Some c2 ∧
     Console.cmd_line c2 = Command.mk (lit "> ") 1 (lit "h") 1 ∧
     Console.stdout c2
     = lit "> h" ++ [NL; NL] ++ lit "help" ++ [NL] ++ lit "history" ++
       [NL; NL] ++ lit "> h").
Proof.
  split.
  - destruct (tab_completion_help_history Examples.get_matches
                Examples.show_variables Examples.print_dictionary_list
                (CompletionExamples.type "he" CompletionExamples.console)
                (lit "> ")) as [H _]; [reflexivity|reflexivity|].
    destruct H as (c1 & H1 & H2 & H3 & H4); [reflexivity|].
    exists c1. repeat split; [exact H1|exact H2|exact H3|].
    rewrite H4. reflexivity.
  - destruct (tab_completion_help_history Examples.get_matches
                Examples.show_variables Examples.print_dictionary_list
                (CompletionExamples.type "h" CompletionExamples.console)
                (lit "> ")) as [_ H]; [reflexivity|reflexivity|].
    destruct (H 1) as (c1 & c2 & H1 & _ & _ & _ & H5 & H6 & _ & H8);
      [reflexivity|].
    exists c1, c2. repeat split; [exact H1|exact H5|exact H6|].
    rewrite H8. reflexivity.
Defined.

(** C10, counterexample: on the same catalog the buffer [he] is not
    completed to [help ], and two Tabs on the buffer [h] print nothing, in
    states that the keys lead to.  After h, e and the left arrow the cursor
    stands after [h], and one Tab turns [he] into [hlp e].  After h, Tab
    and e the counter is at 1, and one Tab prints the list of the matches
    and leaves [he].  After x, Tab, Tab, BACKSPACE and h the counter is at
    2, and two Tabs print nothing and leave the counter at 4. *)
Lemma tab_completion_counterexample :
  (c1 ← CompletionExamples.press Console.ARROW_LT
          (CompletionExamples.type "e"
             (CompletionExamples.type "h" CompletionExamples.console));
   c2 ← CompletionExamples.press Console.TAB c1;
   Some (Console.cmd_line c1, Console.tab_count c1, Console.cmd_line c2))
  = Some (Command.mk (lit "> ") 1 (lit "he") 2, 0,
          Command.mk (lit "> ") 4 (lit "hlp e") 5) ∧
  (c1 ← CompletionExamples.press Console.TAB
          (CompletionExamples.type "h" CompletionExamples.console);
   let c2 := CompletionExamples.type "e" c1 in
   c3 ← CompletionExamples.press Console.TAB c2;
   Some (Console.cmd_line c2, Console.tab_count c2, Console.cmd_line c3,
         Console.stdout c3))
  = Some (Command.mk (lit "> ") 2 (lit "he") 2, 1,
          Command.mk (lit "> ") 2 (lit "he") 2,
          lit "> he" ++ [NL; NL] ++ lit "help" ++ [NL; NL] ++ lit "> he") ∧
  (c1 ← CompletionExamples.press Console.TAB
          (CompletionExamples.type "x" CompletionExamples.console);
   c2 ← CompletionExamples.press Console.TAB c1;
   c3 ← CompletionExamples.press Console.BACKSPACE_POSIX c2;
   let c4 := CompletionExamples.type "h" c3 in
   c5 ← CompletionExamples.press Console.TAB c4;
   c6 ← CompletionExamples.press Console.TAB c5;
   Some (Console.cmd_line c4, Console.tab_count c4,
         bool_decide (Console.stdout c6 = Console.stdout c4),
         Console.cmd_line c6, Console.tab_count c6))
  = Some (Command.mk (lit "> ") 1 (lit "h") 1, 2, true,
          Command.mk (lit "> ") 1 (lit "h") 1, 4).
Proof. vm_compute. repeat split; reflexivity. Qed.

(** The same on a console as the constructor builds it, with the entry
    history supplied and the built-in entries after it: typing [he] and
    one Tab gives [help ]; typing [h] and two Tabs prints the entries
    history and help and leaves [h]. *)
Example tab_completion_on_built_console :
  let c0 := Console.init [history_entry] (lit "> ") 80 None false false false
              ([] : list (str * str)) in
  let press := Console._process_command_keys Examples.get_matches
                 Examples.show_variables Examples.print_dictionary_list in
  (Command.command <$>
     (Console.cmd_line <$> press Console.TAB (Console.plain_key (lit "he") c0)))
  = Some (lit "help ") ∧
  (c1 ← press Console.TAB (Console.plain_key (lit "h") c0);
   c2 ← press Console.TAB c1;
   Some (Command.command (Console.cmd_line c2), Console.tab_count c2,
         Console.stdout c2))
  = Some (lit "h", 0,
          lit "h" ++ [NL; NL] ++ lit "history" ++ [NL] ++ lit "help" ++
          [NL; NL] ++ lit "> h").
Proof. split; reflexivity. Qed.

(** ** The Tab press counter *)

Section TabCount.

Context {V : Type}.
Variable get_matches : V → option str → list (str * str).
Variable show_variables : V → option (list (str * str)) → str.
Variable print_dictionary_list : list Console.entry → Z → str.

Let press := Console._process_command_keys get_matches show_variables
               print_dictionary_list.

(** Tab adds one to [tab_count]; the completion that follows leaves it
    there, or sets it to 0 when it completes a single match or, at the
    second press, prints the matches. *)
Lemma tab_key_counts (c c' : Console.t V) :
  press Console.TAB c = Some c' →
  Console.tab_count c' = Console.tab_count c + 1 ∨ Console.tab_count c' = 0.
Proof.
  unfold press, Console._process_command_keys.
  destruct (Console._set_complete_mode c) as [[seg c0]|] eqn:Hm; [|done].
  assert (Ht : Console.tab_count c0 = Console.tab_count c).
  { unfold Console._set_complete_mode in Hm.
    destruct ((0 <? len _) && _); [by injection Hm as _ <-|].
    destruct (Command.get_nearest_option _); [|done]. simpl in Hm.
    by destruct (0 <? find _ _ _); injection Hm as _ <-. }
  cbn [mbind option_bind fst snd]. rewrite Ht.
  set (c1 := Console.set_tab_count (Console.tab_count c + 1) c0).
  assert (Hbase : ∀ text ms,
    let r := Console.do_base_command_tab print_dictionary_list text ms c1 in
    Console.tab_count r = Console.tab_count c + 1 ∨ Console.tab_count r = 0).
  { intros text ms. unfold Console.do_base_command_tab.
    destruct (Console.tab_count c1 =? 2); [by right|].
    destruct ms as [|m [|m' ms]]; [by left|by right|by left]. }
  destruct (Console.type_complete_mode c1 =? Console._COMMAND_COMPLETE).
  { intros [= <-]. unfold Console.do_command_tab.
    destruct (0 <? len _); [apply Hbase|].
    destruct (Console.custom_commands c1); by left. }
  destruct (Console.type_complete_mode c1 =? Console._OPTION_COMPLETE).
  { intros [= <-]. unfold Console.do_option_tab.
    destruct (0 <? len _); [apply Hbase|].
    destruct (Console.custom_commands c1); [|by left].
    destruct (eqs _ _); [by left|].
    unfold Console.do_custom_option_tab.
    destruct (Console.quiet c1); by left. }
  unfold Console.do_variable_tab.
  destruct (Console.last_dollar _ _ _ _) as [r|]; [|done].
  cbn [mbind option_bind].
  destruct (Console.tab_count c1 =? 2); [intros [= <-]; by right|].
  destruct (if r.2 =? len seg then _ else _) as [|m [|m' ms]];
    intros [= <-]; [by left|by right|by left].
Qed.

(** C7: a key that is added to the buffer leaves [tab_count] as it is,
    and so do ESCAPE, the left and right arrows, BACKSPACE, HOME and END;
    the up and down arrows leave it as it is whenever they return.  Of
    the keys that are not Tab only DELETE sets [tab_count] to 0. *)
Theorem non_tab_keys_keep_tab_count (c : Console.t V) (key : str) :
  Console.tab_count (Console.plain_key key c) = Console.tab_count c ∧
  Forall (λ k, Console.tab_count <$> press k c = Some (Console.tab_count c))
    [Console.ESCAPE; Console.ARROW_LT; Console.ARROW_RT;
     Console.BACKSPACE_POSIX; Console.BACKSPACE_WIN; Console.HOME;
     Console.END] ∧
  Forall (λ k, default (Console.tab_count c)
                 (Console.tab_count <$> press k c) = Console.tab_count c)
    [Console.ARROW_UP; Console.ARROW_DN] ∧
  Forall (λ k, Console.tab_count <$> press k c = Some 0)
    [Console.DELETE_POSIX; Console.DELETE_MAC; Console.DELETE_WIN].
Proof.
  split; [reflexivity|]. split; [|split].
  - repeat constructor.
  - repeat constructor; unfold press; simpl.
    + by destruct (CommandHistory.previous (Console.history c)).
    + by destruct (CommandHistory.__next__ (Console.history c)).
  - repeat constructor.
Qed.

End TabCount.

(** After [h] and one Tab the counter is 1; typing [e] leaves it at 1, so
    the next Tab counts as the second press: it prints the list of matches
    and does not complete [he] to [help ]. *)
Example tab_char_tab :
  let c0 := Console.init [history_entry] (lit "> ") 80 None false false false
              ([] : list (str * str)) in
  let press := Console._process_command_keys Examples.get_matches
                 Examples.show_variables Examples.print_dictionary_list in
  (c1 ← press Console.TAB (Console.plain_key (lit "h") c0);
   let c2 := Console.plain_key (lit "e") c1 in
   c3 ← press Console.TAB c2;
   Some (Console.tab_count c1, Console.tab_count c2,
         Command.command (Console.cmd_line c3)))
  = Some (1, 1, lit "he").
Proof. reflexivity. Qed.

(** ** Piped input *)

Section PipedInput.

Context {V : Type}.
Variable find_variable : V → str → option str.
Variable add_variable : str → str → V → V.
Variable show_variables : V → option (list (str * str)) → str.
Variable print_dictionary_list : list Console.entry → Z → str.
Variable shlex_split : str → str + list str.
Variable os_nt : bool.

Let do_command := Console._do_command find_variable add_variable
                    show_variables print_dictionary_list shlex_split.
Let run_commands := Console.run_commands find_variable add_variable
                      show_variables print_dictionary_list shlex_split os_nt.
Let run_piped := Console.run_console_piped find_variable add_variable
                   show_variables print_dictionary_list shlex_split os_nt.

(** [exit] makes [_do_command] return True. *)
Lemma do_command_exit (fuel : nat) (c : Console.t V) :
  shlex_split (lit "exit") = inr [lit "exit"] →
  ∃ c', do_command (S fuel) (lit "exit") c = Some (true, c') ∧
        Console.variables c' = Console.variables c.
Proof.
  intros Hsh. unfold do_command, Console._do_command.
  replace (Console._replace_variables find_variable (S fuel)
             (Console.variables c) (strip SP (lit "exit")))
    with (Some (lit "exit")) by (by destruct fuel).
  cbn -[lit]. eval_tests.
  unfold Console._get_util_parameters. rewrite Hsh. cbn -[lit]. eval_tests.
  eexists. split; [reflexivity|]. by destruct (Console.verbosity c).
Qed.

(** C5: on piped input whose first line is [exit] and whose second line
    is [set x=5], the command of the second line is executed after the
    exit: the variable is stored.  The same two commands in one line, or
    in a command string, stop at [exit]. *)
Theorem piped_exit_leaves_one_line_only (fuel : nat) (c : Console.t V) :
  shlex_split (lit "exit") = inr [lit "exit"] →
  (∃ c1, run_piped (S fuel) [lit "exit" ++ [NL]; lit "set x=5" ++ [NL]] c
         = Some c1 ∧
         Console.variables c1
         = add_variable (lit "x") (lit "5") (Console.variables c)) ∧
  (∃ c2, run_piped (S fuel) [lit "exit;set x=5" ++ [NL]] c = Some c2 ∧
         Console.variables c2 = Console.variables c) ∧
  (∃ c3, run_commands (S fuel) (split ";"%char (lit "exit;set x=5")) c
         = Some (true, c3) ∧
         Console.variables c3 = Console.variables c).
Proof.
  intros Hsh.
  assert (Hprep : ∀ s, s = lit "exit" ∨ s = lit "exit" ++ [NL] →
            Console.prepare os_nt s = lit "exit").
  { intros s [->| ->]; unfold Console.prepare; by destruct os_nt. }
  assert (Hset : Console.prepare os_nt (lit "set x=5" ++ [NL])
                 = lit "set x=5").
  { unfold Console.prepare; by destruct os_nt. }
  split; [|split].
  - unfold run_piped. cbn [Console.run_console_piped].
    change (split ";"%char (lit "exit" ++ [NL])) with [lit "exit" ++ [NL]].
    cbn [Console.run_commands]. rewrite Hprep by auto.
    destruct (do_command_exit fuel c Hsh) as (c' & Hc' & Hv).
    fold do_command. rewrite Hc'.
    change (split ";"%char (lit "set x=5" ++ [NL]))
      with [lit "set x=5" ++ [NL]].
    cbn [Console.run_commands]. rewrite Hset.
    unfold Console._do_command.
    replace (Console._replace_variables find_variable (S fuel)
               (Console.variables c') (strip SP (lit "set x=5")))
      with (Some (lit "set x=5")) by (by destruct fuel).
    cbn -[lit]. eval_tests. unfold Console._add_variable.
    change (slice_from (lit "set x=5") 4) with (lit "x=5"). eval_tests.
    change (split "="%char (lit "x=5")) with [lit "x"; lit "5"].
    cbn -[lit]. rewrite <- Hv. eexists. split; [reflexivity|].
    clear Hc' Hv. destruct c' as [vb ? ? ? ? ? ? ? qt ? ? ? ? ?].
    by destruct vb, qt.
  - unfold run_piped. cbn [Console.run_console_piped].
    change (split ";"%char (lit "exit;set x=5" ++ [NL]))
      with [lit "exit"; lit "set x=5" ++ [NL]].
    cbn [Console.run_commands]. rewrite Hprep by auto.
    destruct (do_command_exit fuel c Hsh) as (c' & Hc' & Hv).
    fold do_command. rewrite Hc'. eauto.
  - unfold run_commands.
    change (split ";"%char (lit "exit;set x=5"))
      with [lit "exit"; lit "set x=5"].
    cbn [Console.run_commands]. rewrite Hprep by auto.
    destruct (do_command_exit fuel c Hsh) as (c' & Hc' & Hv).
    fold do_command. rewrite Hc'. eauto.
Qed.

End PipedInput.

Lemma piped_exit_leaves_one_line_only_witness :
  let c := Console.init [] (lit "> ") 80 None false true false
             ([] : list (str * str)) in
  ∃ c1,
    Console.run_console_piped Examples.find_variable Examples.add_variable
      Examples.show_variables Examples.print_dictionary_list
      Examples.shlex_split false 1
      [lit "exit" ++ [NL]; lit "set x=5" ++ [NL]] c
    = Some c1 ∧
    Console.variables c1 = [(lit "x", lit "5")].
Proof.
  intros c.
  destruct (piped_exit_leaves_one_line_only Examples.find_variable
              Examples.add_variable Examples.show_variables
              Examples.print_dictionary_list Examples.shlex_split false
              0 c) as [H _]; [reflexivity|].
  exact H.
Defined.

(** ** The list window of the dashboard *)

Section ListWindow.

Import FailoverConsole.

Context {M : Type}.
Variable get_status : M → option status.

Lemma emit_iter_window (n : nat) (e : event) (d : t M) :
  start_list (Nat.iter n (emit e) d) = start_list d ∧
  end_list (Nat.iter n (emit e) d) = end_list d ∧
  scroll_size (Nat.iter n (emit e) d) = scroll_size d ∧
  list_data (Nat.iter n (emit e) d) = list_data d.
Proof. induction n as [|n IH]; [done|]. simpl. exact IH. Qed.

Lemma print_footer_window (b : bool) (d : t M) :
  start_list (_print_footer b d) = start_list d ∧
  end_list (_print_footer b d) = end_list d ∧
  scroll_size (_print_footer b d) = scroll_size d ∧
  list_data (_print_footer b d) = list_data d.
Proof. unfold _print_footer. simpl. apply emit_iter_window. Qed.

Lemma print_header_window (d : t M) :
  start_list (_print_header (clear d)) = start_list d ∧
  end_list (_print_header (clear d)) = end_list d ∧
  scroll_size (_print_header (clear d)) = scroll_size d ∧
  list_data (_print_header (clear d)) = list_data d.
Proof.
  unfold _print_header, clear.
  by destruct (match old_mode _ with Some _ => _ | None => _ end).
Qed.

Lemma print_master_status_window (d d' : t M) :
  _print_master_status get_status d = Some d' →
  start_list d' = start_list d ∧ end_list d' = end_list d ∧
  scroll_size d' = scroll_size d ∧ list_data d' = list_data d.
Proof.
  unfold _print_master_status. destruct (master d) as [m|].
  - destruct (get_status m) as [st|]; [|done]. simpl. by intros [= <-].
  - by intros [= <-].
Qed.

Lemma len_slice_le {A} (l : list A) (lo hi : Z) :
  0 <= lo <= hi → len (slice l lo hi) <= hi - lo.
Proof.
  intros H. unfold slice, clamp_index.
  pose proof (len_nonneg l) as Hl.
  destruct (Z.ltb_spec lo 0); [lia|]. destruct (Z.ltb_spec hi 0); [lia|].
  unfold len in *. rewrite length_take, length_drop. lia.
Qed.

(** Fitting the window keeps [start_list]; it keeps [end_list] when the
    rows of the window fit, and else lowers it to [start_list] plus the
    rows that fit. *)
Lemma fit_window_window (all_rows : list row) (d : t M) :
  let d' := (fit_window all_rows d).2 in
  start_list d' = start_list d ∧ list_data d' = list_data d ∧
  scroll_size d' = scroll_size d ∧
  (end_list d' = end_list d ∨
   end_list d' = start_list d + (max_rows d - rows_printed d - 4 - 2) ∧
   max_rows d - rows_printed d - 4 - 2
   < len (slice all_rows (start_list d) (end_list d))).
Proof.
  unfold fit_window.
  destruct (Z.ltb_spec (max_rows d - rows_printed d - 4 - 2)
              (len (slice all_rows (start_list d) (end_list d)))); simpl.
  - repeat split; auto.
  - destruct ((len all_rows =? end_list d) && (start_list d =? 0));
      repeat split; auto.
Qed.

Lemma print_rows_window (cols : list str) (rows : list row) (d : t M) :
  start_list (print_rows cols rows d) = start_list d ∧
  end_list (print_rows cols rows d) = end_list d ∧
  list_data (print_rows cols rows d) = list_data d.
Proof. unfold print_rows. by destruct (0 <? len rows). Qed.

(** Printing the list keeps [start_list], and keeps [end_list] or lowers
    it. *)
Lemma print_list_window (refresh : bool) (d d' : t M) :
  _print_list get_status refresh None d = Some d' →
  start_list d' = start_list d ∧
  list_data d' = list_data d ∧
  (0 <= start_list d <= end_list d → end_list d' <= end_list d).
Proof.
  unfold _print_list. destruct (list_data d) as [ld|] eqn:Hld.
  2:{ intros [= <-]. rewrite Hld. repeat split; lia. }
  destruct (if refresh
            then _print_master_status get_status (_print_header (clear d))
            else Some d) as [d1|] eqn:Hd1; [|done].
  assert (H1 : start_list d1 = start_list d ∧ end_list d1 = end_list d ∧
               list_data d1 = list_data d).
  { destruct refresh.
    - apply print_master_status_window in Hd1 as (-> & -> & _ & ->).
      by destruct (print_header_window d) as (-> & -> & _ & ->).
    - by injection Hd1 as <-. }
  destruct H1 as (Hs & He & Hl). cbn [mbind option_bind].
  set (d2 := set_rows_printed _ (emit _ d1)).
  intros [= <-].
  assert (Hs2 : start_list d2 = start_list d) by done.
  assert (He2 : end_list d2 = end_list d) by done.
  assert (Hl2 : list_data d2 = list_data d) by done.
  destruct (fit_window_window ld.2 d2) as (Hs3 & Hl3 & _ & He3).
  set (d3 := (fit_window ld.2 d2).2) in *.
  destruct (print_rows_window ld.1 (fit_window ld.2 d2).1 d3)
    as (Hs4 & He4 & Hl4).
  set (d4 := print_rows ld.1 (fit_window ld.2 d2).1 d3) in *.
  assert (H5 : start_list (if refresh then _print_footer (scroll_on d4) d4
                           else d4) = start_list d4 ∧
               end_list (if refresh then _print_footer (scroll_on d4) d4
                         else d4) = end_list d4 ∧
               list_data (if refresh then _print_footer (scroll_on d4) d4
                          else d4) = list_data d4).
  { destruct refresh; [|done].
    by destruct (print_footer_window (scroll_on d4) d4) as (-> & -> & _ & ->). }
  destruct H5 as (-> & -> & ->).
  rewrite Hs4, He4, Hl4, Hs3, Hl3, Hs2, Hl2, Hld. repeat split.
  intros Hw. destruct He3 as [->|[-> Hlt]]; [lia|].
  rewrite Hs2, He2 in Hlt. pose proof (len_slice_le ld.2 _ _ Hw). lia.
Qed.

End ListWindow.

Section ScrollExamples.

Import FailoverConsole DashboardExamples.

(** Fifty rows on a screen with room for ten: the list opens on (0, 10);
    each down moves one screen on, to (40, 50); a further down changes
    nothing; ups from there move one screen back. *)
Example scroll_50_rows :
  window <$> press 50 [lit "u"] = Some (0, 10, 10) ∧
  window <$> press 50 [lit "u"; DN] = Some (10, 20, 10) ∧
  window <$> press 50 [lit "u"; DN; DN] = Some (20, 30, 10) ∧
  window <$> press 50 [lit "u"; DN; DN; DN; DN] = Some (40, 50, 10) ∧
  press 50 [lit "u"; DN; DN; DN; DN; DN] = press 50 [lit "u"; DN; DN; DN; DN] ∧
  window <$> press 50 [lit "u"; DN; DN; DN; DN; UP] = Some (30, 40, 10) ∧
  window <$> press 50 [lit "u"; DN; UP] = Some (0, 10, 10) ∧
  press 50 [lit "u"; UP] = press 50 [lit "u"].
Proof. vm_compute. repeat split; reflexivity. Qed.

(** C2, counterexample: with 45 rows and room for ten, four downs lead
    to the window (40, 45) with scroll step 5; arrow-up then gives
    (35, 45): the start went down by the step and the end stayed. *)
Lemma scroll_up_counterexample :
  ∃ d d',
    press 45 [lit "u"; DN; DN; DN; DN] = Some d ∧
    window d = (40, 45, 5) ∧
    _scroll get_status UP d = Some d' ∧
    window d' = (35, 45, 10) ∧
    ¬ ScrollSpec.up_retreats d d'.
Proof.
  destruct (press 45 [lit "u"; DN; DN; DN; DN]) as [d|] eqn:Hd;
    [|vm_compute in Hd; discriminate].
  destruct (_scroll get_status UP d) as [d'|] eqn:Hd';
    [|vm_compute in Hd; injection Hd as <-; vm_compute in Hd'; discriminate].
  exists d, d'.
  vm_compute in Hd. injection Hd as <-.
  vm_compute in Hd'. injection Hd' as <-.
  repeat split; try reflexivity.
  intros [_ H]. vm_compute in H. discriminate.
Qed.

End ScrollExamples.

(** ** Reconnecting to the master *)

Section Reconnect.

Import FailoverConsole.

Context {M : Type}.
Variable is_alive : M → bool.
Variable connect : M → M * bool.
Variable disconnect : M → M.
Variable get_status : M → option status.
Variable get_health_data : option (option (list str * list row)).
Variable get_gtid_data : option (option (list (list row))).
Variable get_uuid_data : option (option (list row)).
Variable terminal_size : Z * Z.
Variable log_file : option str.
Variable log_lines : option (list str).

Let reconnect := _reconnect_master is_alive connect.
Let loop := display_loop is_alive connect disconnect get_status
              get_health_data get_gtid_data get_uuid_data terminal_size
              log_file log_lines.
Let handle := FailoverConsole._do_command get_status get_health_data
                get_gtid_data get_uuid_data terminal_size log_file log_lines.

Lemma emit_unfold (e : event) (d : t M) :
  emit e d = set_screen (screen d ++ [e]) d.
Proof. reflexivity. Qed.

Lemma screen_set_screen (s : list event) (d : t M) :
  screen (set_screen s d) = s.
Proof. reflexivity. Qed.

Lemma screen_set_master (m : option M) (d : t M) :
  screen (set_master m d) = screen d.
Proof. reflexivity. Qed.

Lemma set_screen_set_screen (s s' : list event) (d : t M) :
  set_screen s (set_screen s' d) = set_screen s d.
Proof. reflexivity. Qed.

Lemma set_master_set_screen (m : option M) (s : list event) (d : t M) :
  set_master m (set_screen s d) = set_screen s (set_master m d).
Proof. reflexivity. Qed.

Lemma set_master_set_master (m m' : option M) (d : t M) :
  set_master m (set_master m' d) = set_master m d.
Proof. reflexivity. Qed.

(** Bring a state built by connection attempts to the form of one
    [set_screen] over one [set_master]. *)
Ltac flatten_attempts :=
  repeat (rewrite ?emit_unfold, ?screen_set_screen, ?screen_set_master,
            ?set_screen_set_screen, ?set_master_set_screen,
            ?set_master_set_master);
  do 2 f_equal; app_eq.

(** The attempts touch the master and the list of events only, and the
    events they add are connection attempts and sleeps. *)
Lemma reconnect_attempts_frame (n : nat) (p : Z) (d : t M) :
  let d' := (reconnect_attempts connect n p d).2 in
  warnings_dic d' = warnings_dic d ∧ pingtime d' = pingtime d ∧
  report_mode d' = report_mode d ∧
  ∃ evs, screen d' = screen d ++ evs ∧
         Forall (λ e, connection_event e = true) evs.
Proof.
  revert d. induction n as [|n IH]; intros d; simpl.
  - repeat split. exists []. by rewrite app_nil_r.
  - destruct (master d) as [m|].
    + destruct (connect m) as [m1 [|]]; simpl.
      * repeat split. exists [EConnect true]. split; [done|].
        by repeat constructor.
      * destruct (IH (emit (ESleep p)
                        (emit (EConnect false) (set_master (Some m1) d))))
          as (-> & -> & -> & evs & -> & Hevs).
        repeat split. exists (EConnect false :: ESleep p :: evs).
        split; [simpl; app_eq|]. by repeat constructor.
    + destruct (IH (emit (ESleep p) d)) as (-> & -> & -> & evs & -> & Hevs).
      repeat split. exists (ESleep p :: evs).
      split; [simpl; app_eq|]. by repeat constructor.
Qed.

Lemma reconnect_master_frame (p : Z) (d : t M) :
  let d' := (reconnect p d).2 in
  warnings_dic d' = warnings_dic d ∧ pingtime d' = pingtime d ∧
  report_mode d' = report_mode d ∧
  ∃ evs, screen d' = screen d ++ evs ∧
         Forall (λ e, connection_event e = true) evs.
Proof.
  unfold reconnect, _reconnect_master.
  destruct (match master d with Some m => is_alive m | None => false end).
  - simpl. repeat split. exists []. by rewrite app_nil_r.
  - apply reconnect_attempts_frame.
Qed.

(** C8, as the code has it.  When the master is not alive,
    [_reconnect_master] calls [connect] at most three times, sleeps
    [pingtime] after each call that fails, the third included, returns
    True at the first call that succeeds and False after three failures.
    The loop of [display_console] does not look at that result: it adds
    no warning and prints nothing, and goes on as it does after a
    successful reconnection, returning None when the interval expired
    and True on Q, and handling any other key. *)
Theorem reconnect_master_three_attempts (d : t M) (m : M) (p : Z) :
  master d = Some m →
  (is_alive m = false →
   ∃ ok evs m',
     reconnect p d
     = (ok, set_screen (screen d ++ evs) (set_master (Some m') d)) ∧
     (ok = true ∧
      (evs = [EConnect true] ∨
       evs = [EConnect false; ESleep p; EConnect true] ∨
       evs = [EConnect false; ESleep p; EConnect false; ESleep p;
              EConnect true]) ∨
      ok = false ∧
      evs = [EConnect false; ESleep p; EConnect false; ESleep p;
             EConnect false; ESleep p])) ∧
  (let d1 := emit EDisconnect (set_master (Some (disconnect m)) d) in
   let d2 := (reconnect (pingtime d) d1).2 in
   warnings_dic d2 = warnings_dic d ∧
   (∃ evs, screen d2 = screen d ++ EDisconnect :: evs ∧
           Forall (λ e, connection_event e = true) evs) ∧
   ∀ keys,
     loop (None :: keys) d = Returned None d2 ∧
     loop (Some (lit "Q") :: keys) d = Returned (Some true) d2 ∧
     loop (Some (lit "q") :: keys) d = Returned (Some true) d2 ∧
     ∀ key, eqs key (lit "Q") || eqs key (lit "q") = false →
       loop (Some key :: keys) d
       = match
           (if Ascii.eqb (report_mode d2) "H"%char then
              r ← _format_health_data get_health_data d2;
              _print_list get_status true None (set_list_data (Some r.1) r.2)
            else Some d2) ≫= handle key
         with
         | Some d' => loop keys d'
         | None => Raised
         end).
Proof.
  intros Hm. split.
  - intros Ha. unfold reconnect, _reconnect_master. rewrite Hm, Ha.
    unfold reconnect_attempts. rewrite Hm. simpl.
    destruct (connect m) as [m1 [|]] eqn:H1; simpl.
    { exists true, [EConnect true], m1. split; [done|]. left. auto. }
    destruct (connect m1) as [m2 [|]] eqn:H2; simpl.
    { exists true, [EConnect false; ESleep p; EConnect true], m2.
      split; [|left; auto]. flatten_attempts. }
    destruct (connect m2) as [m3 [|]] eqn:H3; simpl.
    { exists true, [EConnect false; ESleep p; EConnect false; ESleep p;
                    EConnect true], m3.
      split; [|left; auto]. flatten_attempts. }
    exists false, [EConnect false; ESleep p; EConnect false; ESleep p;
                   EConnect false; ESleep p], m3.
    split; [|right; auto]. flatten_attempts.
  - intros d1 d2.
    destruct (reconnect_master_frame (pingtime d) d1)
      as (Hw & Hp & Hr & evs & Hsc & Hevs). fold d2 in Hw, Hp, Hr, Hsc.
    split; [by rewrite Hw|]. split.
    { exists evs. split; [|done]. rewrite Hsc. unfold d1. simpl. app_eq. }
    intros keys. unfold loop. cbn [display_loop]. rewrite Hm.
    fold d1. change (pingtime d1) with (pingtime d).
    fold reconnect. fold d2. repeat split.
    intros key Hk. rewrite Hk. reflexivity.
Qed.

End Reconnect.

Section ReconnectExamples.

Import FailoverConsole DashboardExamples.

Let loop := display_loop is_alive connect disconnect get_status
              None None None terminal_size None None.

(** C8, counterexample: on a master that cannot be reached the interval
    expires; the loop disconnects, fails to connect three times, and
    returns None.  No warning was added and nothing was printed. *)
Lemma reconnect_failure_counterexample :
  ∃ d2,
    loop [None] console_unreachable = Returned None d2 ∧
    screen d2 = screen console_unreachable ++
                [EDisconnect; EConnect false; ESleep 3; EConnect false;
                 ESleep 3; EConnect false; ESleep 3] ∧
    ¬ ReconnectSpec.warning_surfaced console_unreachable d2.
Proof.
  eexists. split; [reflexivity|]. split; [reflexivity|].
  intros [H|[msg H]]; [by apply H|].
  vm_compute in H.
  repeat (apply elem_of_cons in H as [H|H]; [discriminate|]).
  by apply elem_of_nil in H.
Qed.

(** With a key pressed instead, the console goes on to print the list;
    reading the status of the master that is not connected raises, and
    the error leaves [display_console]. *)
Example reconnect_failure_then_key :
  loop [Some (lit "u")] console_unreachable = Raised.
Proof. reflexivity. Qed.

End ReconnectExamples.

Lemma reconnect_master_three_attempts_witness :
  let m := DashboardExamples.mk_master false false in
  let d := FailoverConsole.set_master (Some m)
             DashboardExamples.console_unreachable in
  ∃ evs m',
    FailoverConsole._reconnect_master DashboardExamples.is_alive
      DashboardExamples.connect 3 d
    = (false,
       FailoverConsole.set_screen (FailoverConsole.screen d ++ evs)
         (FailoverConsole.set_master (Some m') d)) ∧
    length evs = 6%nat.
Proof.
  intros m d.
  destruct (reconnect_master_three_attempts DashboardExamples.is_alive
              DashboardExamples.connect DashboardExamples.disconnect
              DashboardExamples.get_status None None None
              DashboardExamples.terminal_size None None d m 3)
    as [H _]; [reflexivity|].
  destruct H as (ok & evs & m' & Hr & Hc); [reflexivity|].
  destruct Hc as [[-> Hc]|[-> ->]].
  - vm_compute in Hr. discriminate.
  - eexists. exists m'. split; [exact Hr|reflexivity].
Defined.

(** * The history: bounds, recall and round trips *)

(** A list splits at each of its indexes. *)
Lemma split_at_index {A} (l : list A) (i : Z) :
  0 <= i < len l → ∃ a y b, l = a ++ y :: b ∧ len a = i.
Proof.
  intros Hi.
  destruct (l !! Z.to_nat i) as [y|] eqn:Hy.
  - exists (take (Z.to_nat i) l), y, (drop (S (Z.to_nat i)) l). split.
    + symmetry. apply take_drop_middle, Hy.
    + unfold len in *. rewrite length_take. lia.
  - apply lookup_ge_None in Hy. unfold len in Hi. lia.
Qed.

Section HistoryBounds.

Import CommandHistory.

Lemma add_below_capacity (c : str) (h : t) :
  len (commands h) < max_size h →
  add c h = Some (mk 0 (commands h ++ [c]) (max_size h)).
Proof.
  intros H. unfold add.
  destruct (Z.ltb_spec (len (commands h)) (max_size h)); [reflexivity | lia].
Qed.

Lemma add_at_capacity (c x : str) (a b : list str) (p M : Z) :
  M <= len (a ++ x :: b) →
  len a = (if p =? 0 then M - 1 else p - 1) →
  add c (mk p (a ++ x :: b) M) = Some (mk p (a ++ c :: b) M).
Proof.
  intros HM Ha. unfold add. cbn [commands max_size position].
  destruct (Z.ltb_spec (len (a ++ x :: b)) M); [lia|].
  destruct (p =? 0); rewrite <- Ha, setitem_middle; reflexivity.
Qed.

Lemma previous_at (x : str) (a b : list str) (p M : Z) :
  len a = (if p =? 0 then len (a ++ x :: b) - 1 else p - 1) →
  previous (mk p (a ++ x :: b) M) = Some (x, mk (len a) (a ++ x :: b) M).
Proof.
  intros Ha. unfold previous. cbn [commands max_size position].
  destruct (Z.eqb_spec (len (a ++ x :: b)) 0) as [E|_].
  { rewrite len_app in E. pose proof (len_nonneg a). unfold len in E. simpl in E. lia. }
  rewrite <- Ha, getitem_middle. reflexivity.
Qed.

Lemma next_at (x : str) (a b : list str) (p M : Z) :
  len a = (if p =? len (a ++ x :: b) - 1 then 0 else p + 1) →
  __next__ (mk p (a ++ x :: b) M) = Some (x, mk (len a) (a ++ x :: b) M).
Proof.
  intros Ha. unfold __next__. cbn [commands max_size position].
  destruct (Z.eqb_spec (len (a ++ x :: b)) 0) as [E|_].
  { rewrite len_app in E. pose proof (len_nonneg a). unfold len in E. simpl in E. lia. }
  rewrite <- Ha, getitem_middle. reflexivity.
Qed.

End HistoryBounds.

(** X1: [add] on a history within its bounds, of capacity 1 or more, never
    raises; the result is within its bounds again, and holds one command
    more until the capacity is reached and as many from then on. *)
Theorem history_add_keeps_bounds (c : str) (h : CommandHistory.t) :
  history_wf h → 1 <= CommandHistory.max_size h →
  ∃ h', CommandHistory.add c h = Some h' ∧
        history_wf h' ∧
        CommandHistory.max_size h' = CommandHistory.max_size h ∧
        len (CommandHistory.commands h')
        = Z.min (len (CommandHistory.commands h) + 1)
                (CommandHistory.max_size h).
Proof.
  destruct h as [p cs M]. unfold history_wf. cbn. intros (Hl & Hp0 & Hp) HM.
  destruct (Z.lt_ge_cases (len cs) M) as [Hlt|Hge].
  - eexists. split; [apply add_below_capacity; exact Hlt|].
    cbn. rewrite len_app. change (len [c]) with 1.
    pose proof (len_nonneg cs). repeat split; lia.
  - destruct (split_at_index cs (if p =? 0 then M - 1 else p - 1))
      as (a & x & b & -> & Ha).
    { destruct (Z.eqb_spec p 0); lia. }
    eexists. split; [apply add_at_capacity; [lia | exact Ha]|].
    cbn. rewrite !len_app in *. change (len (c :: b)) with (len (x :: b)).
    destruct (Z.eqb_spec p 0); repeat split. all: lia.
Qed.

Lemma history_add_keeps_bounds_witness :
  ∃ h', CommandHistory.add (lit "c")
          (CommandHistory.mk 1 [lit "a"; lit "b"] 2) = Some h' ∧
        history_wf h' ∧ len (CommandHistory.commands h') = 2.
Proof.
  destruct (history_add_keeps_bounds (lit "c")
              (CommandHistory.mk 1 [lit "a"; lit "b"] 2))
    as (h' & H1 & H2 & _ & H3).
  - unfold history_wf, len; simpl; lia.
  - simpl; lia.
  - exists h'. repeat split; [exact H1 | apply H2 | apply H2 | apply H2 | exact H3].
Defined.

(** X2: the command that [add] has just stored is the one that the next
    [previous] returns, whether it was appended or written over an older
    command. *)
Theorem history_previous_recalls_added (c : str) (h : CommandHistory.t) :
  history_wf h → 1 <= CommandHistory.max_size h →
  ∃ h' h'', CommandHistory.add c h = Some h' ∧
            CommandHistory.previous h' = Some (c, h'').
Proof.
  destruct h as [p cs M]. unfold history_wf. cbn. intros (Hl & Hp0 & Hp) HM.
  destruct (Z.lt_ge_cases (len cs) M) as [Hlt|Hge].
  - do 2 eexists. split; [apply add_below_capacity; exact Hlt|].
    cbn. apply previous_at. rewrite len_app. change (len [c]) with 1.
    cbn. lia.
  - destruct (split_at_index cs (if p =? 0 then M - 1 else p - 1))
      as (a & x & b & -> & Ha).
    { destruct (Z.eqb_spec p 0); lia. }
    do 2 eexists. split; [apply add_at_capacity; [lia | exact Ha]|].
    apply previous_at. rewrite Ha.
    rewrite !len_app in *. change (len (c :: b)) with (len (x :: b)).
    destruct (Z.eqb_spec p 0); lia.
Qed.

Lemma history_previous_recalls_added_witness :
  ∃ h' h'', CommandHistory.add (lit "c")
              (CommandHistory.mk 1 [lit "a"; lit "b"] 2) = Some h' ∧
            CommandHistory.previous h' = Some (lit "c", h'').
Proof.
  apply (history_previous_recalls_added (lit "c")
           (CommandHistory.mk 1 [lit "a"; lit "b"] 2)).
  - unfold history_wf, len; simpl; lia.
  - simpl; lia.
Defined.

Lemma next_in_bounds (p M : Z) (cs : list str) :
  0 <= p < len cs →
  ∃ x, CommandHistory.__next__ (CommandHistory.mk p cs M)
       = Some (x, CommandHistory.mk (if p =? len cs - 1 then 0 else p + 1)
                    cs M).
Proof.
  intros Hp.
  destruct (split_at_index cs (if p =? len cs - 1 then 0 else p + 1))
    as (a & x & b & E & Ha).
  { destruct (Z.eqb_spec p (len cs - 1)); lia. }
  exists x. rewrite <- Ha. subst cs. apply next_at. exact Ha.
Qed.

Lemma previous_in_bounds (p M : Z) (cs : list str) :
  0 <= p < len cs →
  ∃ x, CommandHistory.previous (CommandHistory.mk p cs M)
       = Some (x, CommandHistory.mk (if p =? 0 then len cs - 1 else p - 1)
                    cs M).
Proof.
  intros Hp.
  destruct (split_at_index cs (if p =? 0 then len cs - 1 else p - 1))
    as (a & x & b & E & Ha).
  { destruct (Z.eqb_spec p 0); lia. }
  exists x. rewrite <- Ha. subst cs. apply previous_at. exact Ha.
Qed.

Lemma next_keeps_bounds (h : CommandHistory.t) :
  history_wf h →
  ∃ x h', CommandHistory.__next__ h = Some (x, h') ∧ history_wf h'.
Proof.
  destruct h as [p cs M]. unfold history_wf. cbn. intros (Hl & Hp0 & Hp).
  destruct (Z.eq_dec (len cs) 0) as [E|E].
  { destruct cs; [|discriminate E]. eexists _, _. split; [reflexivity|].
    cbn. lia. }
  pose proof (len_nonneg cs) as Hn.
  destruct (next_in_bounds p M cs) as (x & Hx); [lia|].
  eexists _, _. split; [exact Hx|]. cbn.
  destruct (Z.eqb_spec p (len cs - 1)); lia.
Qed.

Lemma previous_keeps_bounds (h : CommandHistory.t) :
  history_wf h →
  ∃ x h', CommandHistory.previous h = Some (x, h') ∧ history_wf h'.
Proof.
  destruct h as [p cs M]. unfold history_wf. cbn. intros (Hl & Hp0 & Hp).
  destruct (Z.eq_dec (len cs) 0) as [E|E].
  { destruct cs; [|discriminate E]. eexists _, _. split; [reflexivity|].
    cbn. lia. }
  pose proof (len_nonneg cs) as Hn.
  destruct (previous_in_bounds p M cs) as (x & Hx); [lia|].
  eexists _, _. split; [exact Hx|]. cbn.
  destruct (Z.eqb_spec p 0); lia.
Qed.

(** X3: [__next__] and [previous] never raise on a history within its
    bounds, keep it within its bounds, and undo each other: the state after
    one and then the other is the state before. *)
Theorem history_next_previous_inverse (h : CommandHistory.t) :
  history_wf h →
  (∃ c h', CommandHistory.__next__ h = Some (c, h') ∧ history_wf h' ∧
           snd <$> CommandHistory.previous h' = Some h) ∧
  (∃ c h', CommandHistory.previous h = Some (c, h') ∧ history_wf h' ∧
           snd <$> CommandHistory.__next__ h' = Some h).
Proof.
  destruct h as [p cs M]. unfold history_wf. cbn. intros (Hl & Hp0 & Hp).
  destruct (Z.eq_dec (len cs) 0) as [E|E].
  { destruct cs; [|discriminate E].
    assert (p = 0) as -> by (unfold len in Hp; simpl in Hp; lia).
    split; exists [], (CommandHistory.mk 0 [] M);
      (split; [reflexivity | split; [cbn; lia | reflexivity]]). }
  pose proof (len_nonneg cs) as Hn.
  assert (0 <= p < len cs) as Hin by lia.
  split.
  - destruct (next_in_bounds p M cs Hin) as (x & Hx).
    eexists _, _. split; [exact Hx|]. split; [cbn|].
    + destruct (Z.eqb_spec p (len cs - 1)); lia.
    + destruct (previous_in_bounds (if p =? len cs - 1 then 0 else p + 1) M cs)
        as (y & Hy).
      { destruct (Z.eqb_spec p (len cs - 1)); lia. }
      rewrite Hy. cbn. do 2 f_equal.
      destruct (Z.eqb_spec p (len cs - 1)); cbv iota;
        repeat match goal with
               | |- context [?u =? ?v] => destruct (Z.eqb_spec u v)
               end; lia.
  - destruct (previous_in_bounds p M cs Hin) as (x & Hx).
    eexists _, _. split; [exact Hx|]. split; [cbn|].
    + destruct (Z.eqb_spec p 0); lia.
    + destruct (next_in_bounds (if p =? 0 then len cs - 1 else p - 1) M cs)
        as (y & Hy).
      { destruct (Z.eqb_spec p 0); lia. }
      rewrite Hy. cbn. do 2 f_equal.
      destruct (Z.eqb_spec p 0); cbv iota;
        repeat match goal with
               | |- context [?u =? ?v] => destruct (Z.eqb_spec u v)
               end; lia.
Qed.

Lemma history_next_previous_inverse_witness :
  let h := CommandHistory.mk 1 [lit "a"; lit "b"] 2 in
  ∃ c h', CommandHistory.__next__ h = Some (c, h') ∧
          snd <$> CommandHistory.previous h' = Some h.
Proof.
  intros h.
  destruct (history_next_previous_inverse h) as [(c & h' & H1 & _ & H2) _].
  - unfold history_wf, len; simpl; lia.
  - exists c, h'. split; [exact H1 | exact H2].
Defined.

(** X4: a history made with a capacity of 0 or less takes no command:
    [add] raises IndexError. *)
Theorem history_add_without_capacity_raises (n : Z) (c : str) :
  n <= 0 → CommandHistory.add c (CommandHistory.init n) = None.
Proof.
  intros Hn. unfold CommandHistory.add, CommandHistory.init, setitem, len.
  simpl. change (Z.of_nat 0) with 0.
  rewrite (proj2 (Z.ltb_ge 0 n)) by lia.
  rewrite (proj2 (Z.ltb_lt (n - 1) 0)) by lia.
  rewrite (proj2 (Z.ltb_lt (n - 1 + 0) 0)) by lia.
  reflexivity.
Qed.

Lemma history_add_without_capacity_raises_witness :
  CommandHistory.add (lit "a") (CommandHistory.init 0) = None.
Proof. apply history_add_without_capacity_raises. lia. Defined.

Section HistoryRound.

Import CommandHistory.

Lemma previous_n_add (n m : nat) (h : t) :
  previous_n (n + m) h
  = (r ← previous_n n h;
     r' ← previous_n m r.2;
     Some (r.1 ++ r'.1, r'.2)).
Proof.
  revert h. induction n as [|n IH]; intros h.
  - cbn. destruct (previous_n m h) as [[? ?]|]; reflexivity.
  - cbn [Nat.add previous_n]. destruct (previous h) as [[x h1]|]; [|reflexivity].
    cbn. rewrite IH. destruct (previous_n n h1) as [[l h2]|]; [|reflexivity].
    cbn. destruct (previous_n m h2) as [[l' h3]|]; reflexivity.
Qed.

Lemma previous_n_round (a b : list str) (z : str) (M : Z) :
  previous_n (Datatypes.length (a ++ b ++ [z])) (mk (len a) (a ++ b ++ [z]) M)
  = Some (rev a ++ z :: rev b, mk (len a) (a ++ b ++ [z]) M).
Proof.
  replace (Datatypes.length (a ++ b ++ [z]))
    with (Datatypes.length a + (1 + Datatypes.length b))%nat
    by (rewrite !length_app; simpl; lia).
  rewrite previous_n_add.
  pose proof (previous_n_walk a [] (b ++ [z]) M) as H1.
  cbn [app] in H1. rewrite H1. cbn [mbind option_bind fst snd].
  rewrite previous_n_add.
  assert (previous_n 1 (mk (len ([] : list str)) (a ++ b ++ [z]) M)
          = Some ([z], mk (len (a ++ b)) (a ++ b ++ [z]) M)) as H2.
  { cbn [previous_n]. rewrite (app_assoc a b [z]).
    rewrite previous_at; [reflexivity|].
    change (len ([] : list str) =? 0) with true. cbv iota.
    rewrite (len_app (a ++ b)). change (len [z]) with 1. lia. }
  rewrite H2. cbn [mbind option_bind fst snd].
  pose proof (previous_n_walk b a [z] M) as H3.
  rewrite H3. cbn [mbind option_bind fst snd]. f_equal.
Qed.

End HistoryRound.

(** X5: as many calls of [previous] as the history holds commands return
    each command once, those before the position first and then the others,
    each run from the newest to the oldest, and leave the history as it
    was. *)
Theorem history_previous_full_round (h : CommandHistory.t) (a b : list str) :
  CommandHistory.commands h = a ++ b → b ≠ [] →
  CommandHistory.position h = len a →
  CommandHistory.previous_n (length (a ++ b)) h = Some (rev a ++ rev b, h).
Proof.
  destruct h as [p cs M]. cbn. intros -> Hb ->.
  destruct (exists_last Hb) as (b' & z & ->).
  rewrite previous_n_round, rev_app_distr. reflexivity.
Qed.

Lemma history_previous_full_round_witness :
  CommandHistory.previous_n 3
    (CommandHistory.mk 1 [lit "a"; lit "b"; lit "c"] 5)
  = Some ([lit "a"; lit "c"; lit "b"],
          CommandHistory.mk 1 [lit "a"; lit "b"; lit "c"] 5).
Proof.
  apply (history_previous_full_round
           (CommandHistory.mk 1 [lit "a"; lit "b"; lit "c"] 5)
           [lit "a"] [lit "b"; lit "c"]).
  - reflexivity.
  - discriminate.
  - reflexivity.
Defined.

(** * The line editor: what each key does to the text *)

Section CommandEdits.

Import Command.

Lemma wf_line (c : t) :
  wf c → ∃ a b, c = line (prompt c) a b ∧ command c = a ++ b.
Proof.
  destruct c as [pr p cmd L]. unfold wf. cbn. intros (H0 & H1 & ->).
  exists (take (Z.to_nat p) cmd), (drop (Z.to_nat p) cmd).
  unfold line. rewrite take_drop. split; [|reflexivity]. f_equal.
  unfold len in *. rewrite length_take. lia.
Qed.

Lemma line_wf (p a b : str) : wf (line p a b).
Proof.
  unfold wf, line. cbn. rewrite len_app.
  pose proof (len_nonneg a). pose proof (len_nonneg b). lia.
Qed.

Lemma times_len_nil (x : ascii) : times x 0 = [].
Proof. reflexivity. Qed.

Lemma add_line (p a b key : str) :
  add (Some key) (line p a b)
  = (line p (a ++ key) b,
     match b with
     | [] => key
     | _ => times SP (len b) ++ times BS (len b) ++ (key ++ b) ++
            times BS (len b)
     end).
Proof.
  unfold add, line. cbn [position length command prompt].
  pose proof (len_nonneg a) as Ha. pose proof (len_nonneg b) as Hb.
  destruct b as [|y b].
  - rewrite app_nil_r.
    destruct (Z.ltb_spec (len a) (len a)); [lia|].
    rewrite !app_nil_r, !len_app. reflexivity.
  - destruct (Z.ltb_spec (len a) (len (a ++ y :: b))) as [_|H].
    2: { rewrite len_app in H. unfold len in H. simpl in H. lia. }
    rewrite slice_prefix, slice_from_suffix.
    replace (slice_from (a ++ key ++ y :: b) (len a)) with (key ++ y :: b)
      by (symmetry; apply slice_from_suffix).
    f_equal.
    + rewrite <- !app_assoc, !len_app. f_equal. lia.
    + rewrite !len_app.
      replace (len a + len (y :: b) - len a) with (len (y :: b)) by lia.
      replace (len a + len (y :: b) - (len a + len key) + len key)
        with (len (y :: b)) by lia.
      reflexivity.
Qed.

Lemma backspace_line (p a b : str) (x : ascii) :
  backspace_keypress (line p (a ++ [x]) b)
  = (line p a b,
     match b with
     | [] => [BS; SP; BS]
     | _ => [BS] ++ times SP (1 + len b) ++ times BS (1 + len b) ++ b ++
            times BS (len b)
     end).
Proof.
  unfold backspace_keypress, line. cbn [position length command prompt].
  pose proof (len_nonneg a) as Ha. pose proof (len_nonneg b) as Hb.
  rewrite !len_app. change (len [x]) with 1.
  destruct (Z.leb_spec (len a + 1) 0); [lia|].
  replace (len a + 1 - 1) with (len a) by lia.
  destruct b as [|y b].
  - change (len []) with 0.
    destruct (Z.ltb_spec (len a + 1) (len a + 1 + 0)); [lia|].
    rewrite !app_nil_r. replace (len a + 1 + 0 - 1) with (len a) by lia.
    rewrite slice_prefix, Z.add_0_r. reflexivity.
  - destruct (Z.ltb_spec (len a + 1) (len a + 1 + len (y :: b))) as [_|H'].
    2: { unfold len in H'. simpl in H'. lia. }
    rewrite <- (app_assoc a [x]). rewrite slice_prefix.
    replace (len a + 1) with (len (a ++ [x])) by (rewrite len_app; reflexivity).
    rewrite (app_assoc a [x]), slice_from_suffix, slice_from_suffix.
    unfold _erase_inline. cbn [position length].
    rewrite !len_app. change (len [x]) with 1.
    destruct (Z.ltb_spec (len a + 1) (len a + 1 + len (y :: b))) as [_|H'].
    2: { unfold len in H'. simpl in H'. lia. }
    f_equal.
    + f_equal. lia.
    + replace (1 + (len a + 1 + len (y :: b)) - (len a + 1))
        with (1 + len (y :: b)) by lia.
      replace (len a + 1 + len (y :: b) - (len a + 1))
        with (len (y :: b)) by lia.
      rewrite <- !app_assoc. reflexivity.
Qed.

Lemma delete_line (p a b : str) (x : ascii) :
  delete_keypress (line p a (x :: b))
  = (line p a b,
     match a ++ b with
     | [] => [SP; BS]
     | _ => times SP (2 + len b) ++ times BS (2 + len b) ++ b ++
            times BS (len b)
     end).
Proof.
  unfold delete_keypress, line. cbn [position length command prompt].
  pose proof (len_nonneg a) as Ha. pose proof (len_nonneg b) as Hb.
  assert (len (a ++ x :: b) = len a + 1 + len b) as HL.
  { rewrite len_app. unfold len. simpl. lia. }
  rewrite HL.
  destruct (Z.ltb_spec (len a) (len a + 1 + len b)); [|lia].
  destruct (Z.eqb_spec (len a + 1 + len b) 1) as [E|E].
  - assert (a = []) as -> by (destruct a; [done | unfold len in *; simpl in *; lia]).
    assert (b = []) as -> by (destruct b; [done | unfold len in *; simpl in *; lia]).
    reflexivity.
  - destruct (Z.ltb_spec 0 (len a + 1 + len b)); [|lia].
    rewrite slice_prefix.
    replace (len a + 1) with (len (a ++ [x])) by (rewrite len_app; reflexivity).
    replace (a ++ x :: b) with ((a ++ [x]) ++ b) by (rewrite <- app_assoc; reflexivity).
    rewrite slice_from_suffix, slice_from_suffix.
    unfold _erase_inline. cbn [position length].
    rewrite !len_app. change (len [x]) with 1.
    destruct (Z.ltb_spec (len a) (len a + 1 + len b)); [|lia].
    replace (1 + (len a + 1 + len b) - len a) with (2 + len b) by lia.
    destruct (a ++ b) eqn:Eab.
    { apply app_eq_nil in Eab as [-> ->]. unfold len in E. simpl in E. lia. }
    rewrite <- !app_assoc. reflexivity.
Qed.

Lemma left_arrow_line (p a b : str) (x : ascii) :
  left_arrow_keypress (line p (a ++ [x]) b) = (line p a (x :: b), [BS]).
Proof.
  unfold left_arrow_keypress, line. cbn [position length command prompt].
  pose proof (len_nonneg a) as Ha.
  rewrite (len_app a [x]). change (len [x]) with 1.
  destruct (Z.ltb_spec 0 (len a + 1)); [|lia].
  rewrite <- !app_assoc. do 2 f_equal. lia.
Qed.

Lemma right_arrow_line (p a b : str) (x : ascii) :
  right_arrow_keypress (line p a (x :: b)) = (line p (a ++ [x]) b, [x]).
Proof.
  unfold right_arrow_keypress, line. cbn [position length command prompt].
  pose proof (len_nonneg a) as Ha. pose proof (len_nonneg b) as Hb.
  assert (len (a ++ x :: b) = len a + 1 + len b) as HL.
  { rewrite len_app. unfold len. simpl. lia. }
  rewrite HL.
  destruct (Z.ltb_spec (len a) (len a + 1 + len b)); [|lia].
  f_equal.
  - rewrite <- !app_assoc, (len_app a [x]). cbn [app]. rewrite HL. reflexivity.
  - apply (slice_middle a [x] b); [reflexivity | reflexivity].
Qed.

Lemma home_line (p a b : str) :
  home_keypress (line p a b) = (line p [] (a ++ b), times BS (len a)).
Proof. reflexivity. Qed.

Lemma end_line (p a b : str) :
  end_keypress (line p a b) = (line p (a ++ b) [], b).
Proof.
  unfold end_keypress, line. cbn [position length command prompt].
  rewrite app_nil_r. f_equal.
  rewrite <- (app_nil_r (a ++ b)) at 1. rewrite <- app_assoc.
  apply slice_middle; [reflexivity | rewrite len_app; reflexivity].
Qed.

End CommandEdits.

(** X6: a typed key goes into the text at the cursor, which moves to its
    end: the text left of the cursor grows by the key and the text from
    the cursor on stays, whether the cursor is at the end of the line or
    inside it. *)
Theorem add_inserts_at_cursor (p a b key : str) :
  (Command.add (Some key) (line p a b)).1 = line p (a ++ key) b ∧
  Command.add None (line p a b) = (line p a b, []).
Proof. rewrite add_line. split; reflexivity. Qed.

(** X7: backspace removes the character left of the cursor and moves the
    cursor one place to the left; at the left edge it changes nothing and
    writes nothing; after a typed character it restores the line. *)
Theorem backspace_removes_left_of_cursor (p a b : str) (x : ascii) :
  (Command.backspace_keypress (line p (a ++ [x]) b)).1 = line p a b ∧
  Command.backspace_keypress (line p [] b) = (line p [] b, []) ∧
  (Command.backspace_keypress (Command.add (Some [x]) (line p a b)).1).1
  = line p a b.
Proof.
  rewrite add_line, backspace_line. cbn [fst]. rewrite backspace_line.
  repeat split; reflexivity.
Qed.

(** X8: delete removes the character at the cursor and leaves the cursor
    where it is; at the end of the line it changes nothing and writes
    nothing. *)
Theorem delete_removes_at_cursor (p a b : str) (x : ascii) :
  (Command.delete_keypress (line p a (x :: b))).1 = line p a b ∧
  Command.delete_keypress (line p a []) = (line p a [], []).
Proof.
  rewrite delete_line. split; [reflexivity|].
  unfold Command.delete_keypress, line. cbn.
  destruct (Z.ltb_spec (len a) (len (a ++ []))) as [H|_]; [|reflexivity].
  rewrite app_nil_r in H. lia.
Qed.

(** X9: the arrow keys move the cursor by one character and undo each
    other, and do nothing at the edge they point to; home and end move the
    cursor to the edges; none of them changes the text. *)
Theorem cursor_keys_move_cursor (p a b : str) (x : ascii) :
  (Command.left_arrow_keypress (line p (a ++ [x]) b)).1 = line p a (x :: b) ∧
  (Command.right_arrow_keypress (line p a (x :: b))).1 = line p (a ++ [x]) b ∧
  Command.left_arrow_keypress (line p [] b) = (line p [] b, []) ∧
  Command.right_arrow_keypress (line p a []) = (line p a [], []) ∧
  (Command.home_keypress (line p a b)).1 = line p [] (a ++ b) ∧
  (Command.end_keypress (line p a b)).1 = line p (a ++ b) [].
Proof.
  rewrite left_arrow_line, right_arrow_line, home_line, end_line.
  repeat split; try reflexivity.
  unfold Command.right_arrow_keypress, line. cbn.
  destruct (Z.ltb_spec (len a) (len (a ++ []))) as [H|_]; [|reflexivity].
  rewrite app_nil_r in H. lia.
Qed.

(** * The line editor: what the terminal shows *)

Section Rendering.

Import Terminal.

Lemma feed_app (s s' : str) (l : t) : feed (s ++ s') l = feed s' (feed s l).
Proof. apply foldl_app. Qed.

Lemma feed_text (s L R : str) :
  BS ∉ s →
  feed s (mk L R) = mk (rev s ++ L) (drop (length s) R).
Proof.
  revert L R. induction s as [|x s IH]; intros L R Hs; [reflexivity|].
  apply not_elem_of_cons in Hs as [Hx Hs]. cbn [feed foldl].
  unfold put at 2. cbn [left right].
  destruct (Ascii.eqb_spec x BS) as [->|_]; [done|].
  change (foldl put ?l s) with (feed s l). rewrite IH by exact Hs.
  cbn [rev]. rewrite <- app_assoc. cbn [app].
  f_equal. destruct R; cbn; [by rewrite drop_nil | reflexivity].
Qed.

Lemma feed_backspaces (m L R : str) :
  feed (replicate (length m) BS) (mk (rev m ++ L) R) = mk L (m ++ R).
Proof.
  revert R. induction m as [|y m IH] using rev_ind; intros R; [reflexivity|].
  rewrite length_app, Nat.add_comm. cbn [length Nat.add replicate feed foldl].
  rewrite rev_app_distr. cbn [rev app]. unfold put at 2. cbn [left right].
  change (Ascii.eqb BS BS) with true. cbv iota.
  change (foldl put ?l (replicate ?n BS)) with (feed (replicate n BS) l).
  rewrite IH, <- app_assoc. reflexivity.
Qed.

Lemma rev_replicate {A} (n : nat) (x : A) :
  rev (replicate n x) = replicate n x.
Proof.
  induction n as [|n IH]; [reflexivity|].
  cbn [replicate rev]. rewrite IH. symmetry. apply replicate_cons_app.
Qed.

Lemma feed_blanks (n : nat) (L R : str) :
  feed (replicate n SP) (mk L R) = mk (replicate n SP ++ L) (drop n R).
Proof.
  rewrite feed_text.
  - rewrite length_replicate. f_equal. f_equal. apply rev_replicate.
  - intros H%elem_of_replicate. destruct H as [H _]. discriminate H.
Qed.

Lemma times_replicate (x : ascii) (s : str) :
  times x (len s) = replicate (length s) x.
Proof. unfold times, len. by rewrite Nat2Z.id. Qed.

Lemma times_S (x : ascii) (k : Z) (s : str) :
  0 <= k → times x (k + len s) = replicate (Z.to_nat k + length s) x.
Proof. intros Hk. unfold times, len. f_equal. lia. Qed.

(** The terminal that shows the line with [a] left of the cursor and [b]
    from the cursor on has the prompt and [a] left of its cursor, and [b]
    and blanks from its cursor on. *)
Lemma shows_line (p a b : str) (l : t) :
  shows (line p a b) l ↔
  ∃ n, l = mk (rev (p ++ a)) (b ++ replicate n SP).
Proof.
  unfold shows, line, text, column. cbn [Command.prompt Command.command
    Command.position]. split.
  - intros ((n & Ht) & Hc). exists n. destruct l as [L R]. cbn in *.
    replace (p ++ (a ++ b) ++ replicate n SP)
      with ((p ++ a) ++ b ++ replicate n SP) in Ht
      by (rewrite <- !app_assoc; reflexivity).
    apply app_inj_1 in Ht as [H1 H2].
    + f_equal; [|exact H2]. rewrite <- H1, rev_involutive. reflexivity.
    + rewrite length_rev. unfold len in Hc.
      rewrite length_app. lia.
  - intros (n & ->). cbn. split.
    + exists n. rewrite rev_involutive, <- !app_assoc. reflexivity.
    + unfold len. rewrite length_rev, length_app. lia.
Qed.

Lemma blanks_add (n m : nat) :
  replicate n SP ++ replicate m SP = replicate (n + m) SP.
Proof. symmetry. apply replicate_add. Qed.

Lemma drop_text_blanks (b : str) (k n : nat) :
  drop (length b + k) (b ++ replicate n SP) = replicate (n - k) SP.
Proof. rewrite drop_app_add, drop_replicate. reflexivity. Qed.

Lemma drop_blanks (k m n : nat) :
  drop k (replicate m SP ++ replicate n SP) = replicate (m + n - k) SP.
Proof. by rewrite blanks_add, drop_replicate. Qed.

Lemma drop_text (b r : str) : drop (length b) (b ++ r) = r.
Proof. apply drop_app_length. Qed.

(** Backspaces after blanks that were written. *)
Lemma feed_backspaces_blanks (k : nat) (L R : str) :
  feed (replicate k BS) (mk (replicate k SP ++ L) R)
  = mk L (replicate k SP ++ R).
Proof.
  rewrite <- (rev_replicate k SP) at 1.
  rewrite <- (length_replicate k SP) at 1. apply feed_backspaces.
Qed.

(** One step of [_erase_portion]: backspace, blank, backspace. *)
Lemma feed_erase_one (y : ascii) (L R : str) :
  feed [BS; SP; BS] (mk (y :: L) R) = mk L (SP :: R).
Proof. reflexivity. Qed.

Lemma feed_erase_portion (m L R : str) :
  feed (Command._erase_portion (len m)) (mk (rev m ++ L) R)
  = mk L (replicate (length m) SP ++ R).
Proof.
  unfold Command._erase_portion, len. rewrite Nat2Z.id.
  revert R. induction m as [|y m IH] using rev_ind; intros R; [reflexivity|].
  rewrite length_app, Nat.add_comm. cbn [length Nat.add replicate concat].
  rewrite feed_app, rev_app_distr. cbn [rev app].
  rewrite feed_erase_one, IH. f_equal.
  change (SP :: replicate (length m) SP ++ R)
    with ((SP :: replicate (length m) SP) ++ R).
  rewrite replicate_cons_app, <- app_assoc. reflexivity.
Qed.

Lemma erase_portion_column (k : nat) (l : t) :
  length (left (feed (concat (replicate k [BS; SP; BS])) l))
  = (length (left l) - k)%nat.
Proof.
  revert l. induction k as [|k IH]; intros l; [cbn; lia|].
  cbn [replicate concat]. rewrite feed_app, IH.
  destruct l as [[|y L] R].
  - change (feed [BS; SP; BS] (mk [] R)) with (mk [] (SP :: tail R)).
    cbn. lia.
  - rewrite feed_erase_one. cbn. lia.
Qed.

Lemma no_bs_app (u w : str) : (BS ∉ u ++ w) ↔ (BS ∉ u) ∧ (BS ∉ w).
Proof. apply not_elem_of_app. Qed.

(** What the keys write, fed to the terminal that shows the line. *)

Lemma add_renders (p a b key : str) (n : nat) :
  (BS ∉ key) → (BS ∉ b) →
  feed (Command.add (Some key) (line p a b)).2
    (mk (rev (p ++ a)) (b ++ replicate n SP))
  = mk (rev (p ++ a ++ key)) (b ++ replicate (n - length key) SP).
Proof.
  intros Hk Hb. rewrite add_line. cbn [snd].
  assert (rev (p ++ a ++ key) = rev key ++ rev (p ++ a)) as ->
    by (rewrite (app_assoc p), rev_app_distr; reflexivity).
  destruct b as [|y b'].
  - rewrite feed_text by exact Hk. cbn [app]. by rewrite drop_replicate.
  - set (b := y :: b') in *.
    rewrite !times_replicate, feed_app, feed_blanks, drop_text.
    rewrite feed_app, feed_backspaces_blanks, feed_app.
    rewrite feed_text by (apply no_bs_app; done).
    rewrite length_app, drop_blanks.
    rewrite rev_app_distr, <- app_assoc, feed_backspaces.
    do 3 f_equal. lia.
Qed.

Lemma backspace_renders (p a b : str) (x : ascii) (n : nat) :
  (BS ∉ b) →
  feed (Command.backspace_keypress (line p (a ++ [x]) b)).2
    (mk (rev (p ++ a ++ [x])) (b ++ replicate n SP))
  = mk (rev (p ++ a)) (b ++ replicate (S n) SP).
Proof.
  intros Hb. rewrite backspace_line. cbn [snd].
  assert (rev (p ++ a ++ [x]) = x :: rev (p ++ a)) as ->
    by (rewrite (app_assoc p), rev_app_distr; reflexivity).
  destruct b as [|y b'].
  - reflexivity.
  - set (b := y :: b') in *.
    rewrite feed_app. change (feed [BS] (mk (x :: ?L) ?R)) with (mk L (x :: R)).
    rewrite (times_S SP 1 b), times_replicate by lia.
    rewrite (times_S BS 1 b) by lia.
    change (Z.to_nat 1 + length b)%nat with (S (length b)).
    rewrite feed_app, feed_blanks.
    change (drop (S (length b)) (x :: ?r)) with (drop (length b) r).
    rewrite drop_text, feed_app, feed_backspaces_blanks, feed_app.
    rewrite feed_text by exact Hb.
    rewrite drop_blanks, feed_backspaces.
    do 3 f_equal. lia.
Qed.

Lemma delete_renders (p a b : str) (x : ascii) (n : nat) :
  (BS ∉ b) →
  ∃ n', feed (Command.delete_keypress (line p a (x :: b))).2
          (mk (rev (p ++ a)) ((x :: b) ++ replicate n SP))
        = mk (rev (p ++ a)) (b ++ replicate n' SP).
Proof.
  intros Hb. rewrite delete_line. cbn [snd].
  destruct (a ++ b) eqn:Eab.
  - apply app_eq_nil in Eab as [-> ->]. exists (S n). reflexivity.
  - clear Eab. exists (2 + (n - 1))%nat.
    rewrite (times_S SP 2 b), times_replicate by lia.
    rewrite (times_S BS 2 b) by lia.
    change (Z.to_nat 2 + length b)%nat with (S (S (length b))).
    rewrite feed_app, feed_blanks.
    change (drop (S (S (length b))) ((x :: b) ++ ?r))
      with (drop (S (length b)) (b ++ r)).
    replace (drop (S (length b)) (b ++ replicate n SP))
      with (replicate (n - 1) SP)
      by (replace (S (length b)) with (length b + 1)%nat by lia;
          symmetry; apply drop_text_blanks).
    rewrite feed_app, feed_backspaces_blanks, feed_app.
    rewrite feed_text by exact Hb.
    rewrite drop_blanks, feed_backspaces.
    do 3 f_equal. lia.
Qed.

Lemma home_renders (p a b : str) (R : str) :
  feed (Command.home_keypress (line p a b)).2 (mk (rev (p ++ a)) R)
  = mk (rev p) (a ++ R).
Proof.
  rewrite home_line. cbn [snd]. rewrite times_replicate, rev_app_distr.
  apply feed_backspaces.
Qed.

Lemma end_renders (p a b : str) (n : nat) :
  (BS ∉ b) →
  feed (Command.end_keypress (line p a b)).2
    (mk (rev (p ++ a)) (b ++ replicate n SP))
  = mk (rev (p ++ a ++ b)) (replicate n SP).
Proof.
  intros Hb. rewrite end_line. cbn [snd]. rewrite feed_text by exact Hb.
  rewrite drop_text, (app_assoc p), (rev_app_distr (p ++ a) b). reflexivity.
Qed.

Lemma erase_renders (p a b : str) (n : nat) :
  feed (Command.erase_command (line p a b)).2
    (mk (rev (p ++ a)) (b ++ replicate n SP))
  = mk (rev p) (replicate (length (a ++ b) + n) SP).
Proof.
  unfold Command.erase_command, line. cbn [snd Command.length Command.position].
  replace (len (a ++ b) - len a) with (len b)
    by (rewrite len_app; lia).
  rewrite times_replicate, feed_app, feed_blanks, drop_text.
  assert (replicate (length b) SP ++ rev (p ++ a)
          = rev (a ++ replicate (length b) SP) ++ rev p) as ->.
  { rewrite !rev_app_distr, rev_replicate, <- app_assoc. reflexivity. }
  replace (len (a ++ b)) with (len (a ++ replicate (length b) SP))
    by (rewrite !len_app; unfold len; rewrite length_replicate; reflexivity).
  rewrite feed_erase_portion, blanks_add. do 2 f_equal.
  rewrite !length_app, length_replicate. reflexivity.
Qed.

Lemma replace_renders_at_end (p a new : str) (n : nat) :
  new ≠ [] → (BS ∉ new) →
  feed (Command.replace_command new (line p a [])).2
    (mk (rev (p ++ a)) (replicate n SP))
  = mk (rev (p ++ new)) (replicate (length a + n - length new) SP).
Proof.
  intros Hnew Hbs. unfold Command.replace_command.
  destruct new as [|x new']; [done|]. set (new := x :: new') in *.
  unfold line. cbn [snd Command.length]. rewrite app_nil_r.
  rewrite feed_app, (rev_app_distr p a), feed_erase_portion.
  rewrite feed_text by exact Hbs.
  rewrite drop_blanks, rev_app_distr. reflexivity.
Qed.

Lemma replace_column_inside (p a b new : str) (R : str) :
  new ≠ [] → (BS ∉ new) →
  length (left (feed (Command.replace_command new (line p a b)).2
                  (mk (rev (p ++ a)) R)))
  = (length p - length b + length new)%nat.
Proof.
  intros Hnew Hbs. unfold Command.replace_command.
  destruct new as [|x new']; [done|]. set (new := x :: new') in *.
  unfold line, Command._erase_portion, len.
  cbn [snd Command.length]. rewrite Nat2Z.id, feed_app.
  pose proof (erase_portion_column (length (a ++ b)) (mk (rev (p ++ a)) R))
    as Hcol.
  destruct (feed (concat _) _) as [L' R'].
  rewrite feed_text by exact Hbs. cbn [left] in *.
  rewrite length_app, Hcol, !length_rev, !length_app. lia.
Qed.

End Rendering.

(** X10: on a line within its bounds that the terminal shows, every typed
    text and each of the keys backspace, delete, arrow left, arrow right,
    home and end writes what keeps the terminal in step: afterwards the
    terminal shows the edited line, with its cursor where the editor has
    it.  The texts hold no backspace character. *)
Theorem editing_keys_show_line (c : Command.t) (l : Terminal.t) :
  Command.wf c → (BS ∉ Command.command c) → shows c l →
  (∀ key, (BS ∉ key) → renders (Command.add (Some key)) c l) ∧
  renders Command.backspace_keypress c l ∧
  renders Command.delete_keypress c l ∧
  renders Command.left_arrow_keypress c l ∧
  renders Command.right_arrow_keypress c l ∧
  renders Command.home_keypress c l ∧
  renders Command.end_keypress c l.
Proof.
  intros Hwf Hbs Hshows.
  destruct (wf_line c Hwf) as (a & b & Hc & Hcmd).
  rewrite Hcmd in Hbs. apply not_elem_of_app in Hbs as [Ha Hb].
  rewrite Hc in *. clear Hc Hcmd. set (p := Command.prompt c) in *.
  apply shows_line in Hshows as (n & ->). unfold renders.
  split; [|split; [|split; [|split; [|split; [|split]]]]].
  - intros key Hkey. rewrite add_renders by assumption.
    rewrite add_line. cbn [fst]. apply shows_line. by eexists.
  - destruct a as [|x a'] using rev_ind.
    + change (Command.backspace_keypress (line p [] b))
        with (line p [] b, ([] : str)).
      apply shows_line. by eexists.
    + clear IHa'. apply not_elem_of_app in Ha as [Ha _].
      rewrite backspace_renders by exact Hb.
      rewrite backspace_line. apply shows_line. by eexists.
  - destruct b as [|x b'].
    + assert (Command.delete_keypress (line p a [])
              = (line p a [], [])) as ->.
      { unfold Command.delete_keypress, line. cbn.
        destruct (Z.ltb_spec (len a) (len (a ++ []))) as [H|_]; [|done].
        rewrite app_nil_r in H. lia. }
      apply shows_line. by eexists.
    + apply not_elem_of_cons in Hb as [_ Hb].
      destruct (delete_renders p a b' x n Hb) as (n' & ->).
      rewrite delete_line. apply shows_line. by eexists.
  - destruct a as [|x a'] using rev_ind.
    + change (Command.left_arrow_keypress (line p [] b))
        with (line p [] b, ([] : str)).
      apply shows_line. by eexists.
    + clear IHa'. rewrite left_arrow_line. cbn [fst snd].
      rewrite (app_assoc p), rev_app_distr. apply shows_line.
      exists n. reflexivity.
  - destruct b as [|x b'].
    + assert (Command.right_arrow_keypress (line p a [])
              = (line p a [], [])) as ->.
      { unfold Command.right_arrow_keypress, line. cbn.
        destruct (Z.ltb_spec (len a) (len (a ++ []))) as [H|_]; [|done].
        rewrite app_nil_r in H. lia. }
      apply shows_line. by eexists.
    + apply not_elem_of_cons in Hb as [Hx Hb].
      rewrite right_arrow_line. cbn [fst snd]. apply shows_line. exists n.
      rewrite feed_text
        by (apply not_elem_of_cons; split; [exact Hx | apply not_elem_of_nil]).
      rewrite (app_assoc p), (rev_app_distr (p ++ a) [x]). reflexivity.
  - rewrite home_renders, home_line. apply shows_line.
    exists n. rewrite app_nil_r, <- app_assoc. reflexivity.
  - rewrite end_renders by exact Hb. rewrite end_line. apply shows_line.
    exists n. reflexivity.
Qed.



Lemma editing_keys_show_line_witness :
  let c := line (lit "> ") (lit "ab") (lit "cd") in
  let l := Terminal.mk (rev (lit "> ab")) (lit "cd") in
  renders (Command.add (Some (lit "x"))) c l ∧
  renders Command.backspace_keypress c l.
Proof.
  intros c l.
  destruct (editing_keys_show_line c l) as (H1 & H2 & _).
  - apply line_wf.
  - apply (bool_decide_unpack _). vm_compute. exact I.
  - apply shows_line. exists 0%nat. reflexivity.
  - split; [apply H1 | exact H2].
    apply (bool_decide_unpack _). vm_compute. exact I.
Defined.

(** X11: what the ESCAPE key writes clears the terminal: afterwards the
    terminal shows the empty line with the cursor behind the prompt.  The
    editor is not in step with it unless its cursor was at the start: it
    keeps its position, which the terminal does not show. *)
Theorem escape_clears_terminal_only (c : Command.t) (l : Terminal.t) :
  Command.wf c → shows c l →
  let l' := Terminal.feed (Command.erase_command c).2 l in
  shows (Command.clear c) l' ∧
  (0 < Command.position c → ¬ shows (Command.erase_command c).1 l').
Proof.
  intros Hwf Hshows.
  destruct (wf_line c Hwf) as (a & b & Hc & Hcmd).
  rewrite Hc in *. clear Hc Hcmd. set (p := Command.prompt c) in *.
  apply shows_line in Hshows as (n & ->). cbv zeta.
  rewrite erase_renders. split.
  - change (Command.clear (line p a b)) with (line p [] []).
    apply shows_line. eexists. rewrite app_nil_r. reflexivity.
  - cbn [line Command.position]. intros Hpos (_ & Hcol).
    unfold Terminal.column, Command.erase_command, line in Hcol.
    cbn [fst Terminal.left Command.prompt Command.position] in Hcol.
    unfold len in *. rewrite length_rev in Hcol. lia.
Qed.

Lemma escape_clears_terminal_only_witness :
  let c := line (lit "> ") (lit "ab") (lit "cd") in
  let l := Terminal.mk (rev (lit "> ab")) (lit "cd") in
  Terminal.feed (Command.erase_command c).2 l
  = Terminal.mk (rev (lit "> ")) (lit "    ") ∧
  ¬ shows (Command.erase_command c).1
      (Terminal.feed (Command.erase_command c).2 l).
Proof.
  intros c l. split; [reflexivity|].
  apply (escape_clears_terminal_only c l).
  - apply line_wf.
  - apply shows_line. exists 0%nat. reflexivity.
  - reflexivity.
Defined.

(** X12: a command recalled from the history is shown right when the cursor
    is at the end of the line.  With the cursor inside the line, and a
    prompt, it is not: the old line is erased from the cursor leftwards by
    its whole length, which reaches into the prompt, and the recalled
    command is written from there, so that the cursor of the terminal is
    left of where the editor has it. *)
Theorem recall_shows_line_from_end_only (c : Command.t) (l : Terminal.t)
    (new_cmd : str) :
  Command.wf c → shows c l → new_cmd ≠ [] → (BS ∉ new_cmd) →
  (Command.position c = Command.length c →
   renders (Command.replace_command new_cmd) c l) ∧
  (Command.position c < Command.length c → Command.prompt c ≠ [] →
   ¬ renders (Command.replace_command new_cmd) c l).
Proof.
  intros Hwf Hshows Hnew Hbs.
  destruct (wf_line c Hwf) as (a & b & Hc & Hcmd).
  rewrite Hc in *. clear Hc Hcmd. set (p := Command.prompt c) in *.
  apply shows_line in Hshows as (n & ->). unfold renders.
  cbn [line Command.position Command.length Command.prompt].
  assert ((Command.replace_command new_cmd (line p a b)).1
          = line p new_cmd []) as Hstate.
  { unfold Command.replace_command, line.
    destruct new_cmd; [done|]. cbn [fst Command.prompt].
    rewrite app_nil_r. reflexivity. }
  split.
  - intros Hend. assert (b = []) as ->.
    { rewrite len_app in Hend. destruct b; [done|].
      unfold len in Hend. simpl in Hend. lia. }
    rewrite Hstate. change ([] ++ replicate n SP) with (replicate n SP).
    rewrite replace_renders_at_end by assumption.
    apply shows_line. eexists. reflexivity.
  - intros Hin Hp (_ & Hcol). rewrite Hstate in Hcol.
    unfold Terminal.column, len in Hcol.
    rewrite replace_column_inside in Hcol by assumption.
    cbn in Hcol. rewrite len_app in Hin. unfold len in *.
    assert (0 < length p)%nat by (destruct p; [done | simpl; lia]).
    lia.
Qed.

Lemma recall_shows_line_from_end_only_witness :
  let c := line (lit "> ") (lit "ab") (lit "cd") in
  let l := Terminal.mk (rev (lit "> ab")) (lit "cd") in
  Terminal.feed (Command.replace_command (lit "exit") c).2 l
  = Terminal.mk (rev (lit "exit")) (lit "cd") ∧
  ¬ renders (Command.replace_command (lit "exit")) c l.
Proof.
  intros c l. split; [reflexivity|].
  apply (recall_shows_line_from_end_only c l (lit "exit")).
  - apply line_wf.
  - apply shows_line. exists 0%nat. reflexivity.
  - discriminate.
  - apply (bool_decide_unpack _). vm_compute. exact I.
  - vm_compute. reflexivity.
  - discriminate.
Defined.

(** * The keys of the console: no key raises on a line within its bounds *)

Lemma getitem_in_range {A} (l : list A) (i : Z) :
  0 <= i < len l → is_Some (getitem l i).
Proof.
  intros Hi. unfold getitem.
  cbv zeta. rewrite !(proj2 (Z.ltb_ge i 0)) by lia.
  rewrite (proj2 (Z.leb_gt (len l) i)) by lia. cbn.
  apply lookup_lt_is_Some. unfold len in Hi. lia.
Qed.

Lemma nearest_scan_total (n : nat) (i : Z) (c : Command.t) :
  i < len (Command.command c) → Z.of_nat n <= i + 1 →
  is_Some (Command.nearest_scan n i c).
Proof.
  revert i. induction n as [|n IH]; intros i Hi Hn; [by eexists|].
  cbn [Command.nearest_scan].
  destruct (getitem_in_range (Command.command c) i) as [ch ->]; [lia|].
  cbn. destruct (Ascii.eqb ch SP); [by eexists|]. apply IH; lia.
Qed.

Lemma get_nearest_option_total (c : Command.t) :
  Command.wf c → is_Some (Command.get_nearest_option c).
Proof.
  intros (H0 & H1 & H2). unfold Command.get_nearest_option.
  destruct (split_nonempty SP (Command.command c)) as (p0 & ps & ->).
  destruct (Z.ltb_spec (Command.position c) (Command.length c)).
  - cbn. pose proof (len_nonneg p0). apply nearest_scan_total; lia.
  - apply getitem_in_range. unfold len. simpl. lia.
Qed.

Lemma last_dollar_total (n : nat) (i : Z) (segment : str) (acc : str * Z) :
  i < len segment → Z.of_nat n <= i + 1 →
  is_Some (Console.last_dollar n i segment acc).
Proof.
  revert i acc. induction n as [|n IH]; intros i acc Hi Hn; [by eexists|].
  cbn [Console.last_dollar].
  destruct (getitem_in_range segment i) as [ch ->]; [lia|].
  cbn. destruct (Ascii.eqb ch SP); [by eexists|].
  destruct (Ascii.eqb ch DOLLAR); apply IH; lia.
Qed.

Section KeysKeepBounds.

Context {V : Type}.
Variable get_matches : V → option str → list (str * str).
Variable show_variables : V → option (list (str * str)) → str.
Variable print_dictionary_list : list Console.entry → Z → str.

Let press := Console._process_command_keys get_matches show_variables
               print_dictionary_list.

(** The handlers of the Tab key leave the line as it is or add a text to
    it, and leave the history. *)
Local Abbreviation adds_text c c' :=
  (∃ key, Console.cmd_line c' = (Command.add key (Console.cmd_line c)).1 ∧
          Console.history c' = Console.history c).

Lemma adds_text_refl (c : Console.t V) : adds_text c c.
Proof. exists None. split; reflexivity. Qed.

Lemma do_base_command_tab_adds (t : str) (ms : list Console.entry)
    (c : Console.t V) :
  adds_text c (Console.do_base_command_tab print_dictionary_list t ms c).
Proof.
  unfold Console.do_base_command_tab.
  destruct (Console.tab_count c =? 2); [exists None; split; reflexivity|].
  destruct ms as [|m [|? ?]]; try apply adds_text_refl.
  eexists (Some _). split; reflexivity.
Qed.

Lemma do_command_tab_adds (t : str) (c : Console.t V) :
  adds_text c (Console.do_command_tab print_dictionary_list t c).
Proof.
  unfold Console.do_command_tab.
  destruct (0 <? len _); [apply do_base_command_tab_adds|].
  destruct (Console.custom_commands c); apply adds_text_refl.
Qed.

Lemma do_option_tab_adds (t : str) (c : Console.t V) :
  adds_text c (Console.do_option_tab print_dictionary_list t c).
Proof.
  unfold Console.do_option_tab.
  destruct (0 <? len _); [apply do_base_command_tab_adds|].
  destruct (Console.custom_commands c); [|apply adds_text_refl].
  destruct (eqs _ _); [apply adds_text_refl|].
  unfold Console.do_custom_option_tab.
  destruct (Console.quiet c); [apply adds_text_refl|].
  exists None. split; reflexivity.
Qed.

Lemma do_variable_tab_adds (segment : str) (c : Console.t V) :
  ∃ c', Console.do_variable_tab get_matches show_variables segment c = Some c' ∧
        adds_text c c'.
Proof.
  unfold Console.do_variable_tab. pose proof (len_nonneg segment).
  destruct (last_dollar_total (Z.to_nat (len segment - 1)) (len segment - 1)
              segment ([], 0)) as [r ->]; [lia | lia |].
  cbn [mbind option_bind].
  destruct (Console.tab_count c =? 2).
  { eexists. split; [reflexivity|]. exists None.
    destruct (0 <? len _); split; reflexivity. }
  destruct (if r.2 =? len segment then _ else _) as [|m [|? ?]];
    try (eexists; split; [reflexivity | apply adds_text_refl]).
  eexists. split; [reflexivity|]. eexists (Some _). split; reflexivity.
Qed.

Lemma tab_adds (c : Console.t V) (k : Console.cmd_key) :
  Command.wf (Console.cmd_line c) →
  k = Console.TAB ∨ k = Console.ENTER_POSIX ∨ k = Console.ENTER_WIN ∨
  k = Console.SPECIAL_WIN →
  ∃ c', press k c = Some c' ∧ adds_text c c'.
Proof.
  intros Hwf Hk.
  assert (press k c =
          (r ← Console._set_complete_mode c;
           let segment := r.1 in
           let c1 := Console.set_tab_count (Console.tab_count r.2 + 1) r.2 in
           if Console.type_complete_mode c1 =? Console._COMMAND_COMPLETE
           then Some (Console.do_command_tab print_dictionary_list
                        (Command.get_command (Console.cmd_line c1)) c1)
           else if Console.type_complete_mode c1 =? Console._OPTION_COMPLETE
           then Some (Console.do_option_tab print_dictionary_list segment c1)
           else Console.do_variable_tab get_matches show_variables segment c1))
    as ->.
  { destruct Hk as [->|[->|[->| ->]]]; reflexivity. }
  assert (∃ seg m, Console._set_complete_mode c
                   = Some (seg, Console.set_type_complete_mode m c))
    as (seg & m & ->).
  { unfold Console._set_complete_mode.
    destruct (_ && _); [by eexists _, _|].
    destruct (get_nearest_option_total _ Hwf) as [s ->]. cbn.
    destruct (0 <? find s DOLLAR 0); by eexists _, _. }
  cbn [mbind option_bind fst snd].
  set (c1 := Console.set_tab_count _ _).
  assert (∀ c' : Console.t V, adds_text c1 c' → adds_text c c') as Hc1.
  { intros c' (key & H1 & H2). exists key. split; [exact H1 | exact H2]. }
  destruct (_ =? Console._COMMAND_COMPLETE).
  { eexists. split; [reflexivity|]. apply Hc1, do_command_tab_adds. }
  destruct (_ =? Console._OPTION_COMPLETE).
  { eexists. split; [reflexivity|]. apply Hc1, do_option_tab_adds. }
  destruct (do_variable_tab_adds seg c1) as (c' & -> & H).
  eexists. split; [reflexivity|]. apply Hc1, H.
Qed.

(** X13: on a console whose line and history are within their bounds no
    key raises; the history stays within its bounds, and so does the line
    after every key but ESCAPE and after every typed text. *)
Theorem no_key_raises_within_bounds (c : Console.t V) (k : Console.cmd_key) :
  Command.wf (Console.cmd_line c) → history_wf (Console.history c) →
  (∃ c', press k c = Some c' ∧ history_wf (Console.history c') ∧
         (k ≠ Console.ESCAPE → Command.wf (Console.cmd_line c'))) ∧
  (∀ key, Command.wf (Console.cmd_line (Console.plain_key key c)) ∧
          Console.history (Console.plain_key key c) = Console.history c).
Proof.
  intros Hwf Hh. split.
  2: { intros key. split; [|reflexivity]. apply (add_wf (Some key)), Hwf. }
  assert (k = Console.TAB ∨ k = Console.ENTER_POSIX ∨ k = Console.ENTER_WIN ∨
          k = Console.SPECIAL_WIN →
          ∃ c', press k c = Some c' ∧ history_wf (Console.history c') ∧
                (k ≠ Console.ESCAPE → Command.wf (Console.cmd_line c')))
    as Htab.
  { intros Hk. destruct (tab_adds c k Hwf Hk) as (c' & Hc' & key & Hl & Hy).
    exists c'. split; [exact Hc'|]. rewrite Hy, Hl.
    split; [exact Hh|]. intros _. apply add_wf, Hwf. }
  destruct (previous_keeps_bounds _ Hh) as (xp & hp & Hp & Hhp).
  destruct (next_keeps_bounds _ Hh) as (xn & hn & Hn & Hhn).
  destruct k; try (apply Htab; tauto);
    unfold press; cbn [Console._process_command_keys];
    rewrite ?Hp, ?Hn; cbn [mbind option_bind fst snd];
    (eexists; split; [reflexivity|]; split; [first [exact Hh | exact Hhp | exact Hhn]|]);
    intros Hk; try done.
  - apply delete_keypress_wf, Hwf.
  - apply delete_keypress_wf, Hwf.
  - apply delete_keypress_wf, Hwf.
  - apply replace_command_wf, Hwf.
  - apply replace_command_wf, Hwf.
  - apply right_arrow_keypress_wf, Hwf.
  - apply left_arrow_keypress_wf, Hwf.
  - apply backspace_keypress_wf, Hwf.
  - apply backspace_keypress_wf, Hwf.
  - apply home_keypress_wf, Hwf.
  - apply end_keypress_wf, Hwf.
Qed.

End KeysKeepBounds.

Lemma no_key_raises_within_bounds_witness :
  let c := Console.plain_key (lit "abc def")
             (Console.init [] (lit "> ") 80 None false false false
                ([] : list (str * str))) in
  ∃ c', Console._process_command_keys Examples.get_matches
          Examples.show_variables Examples.print_dictionary_list
          Console.TAB c = Some c' ∧
        Command.wf (Console.cmd_line c').
Proof.
  intros c.
  destruct (no_key_raises_within_bounds Examples.get_matches
              Examples.show_variables Examples.print_dictionary_list
              c Console.TAB) as [(c' & H1 & _ & H2) _].
  - subst c. unfold Command.wf. simpl. unfold len. simpl. lia.
  - subst c. unfold history_wf. simpl. unfold len. simpl. lia.
  - exists c'. split; [exact H1 | apply H2; discriminate].
Defined.

(** * The command catalog and the completion of a command name *)

(** The test of [get_commands] and of [do_base_command_tab]: the slice of
    the length of [t] is [t] when the text starts with [t]. *)
Lemma slice_is_prefix (l t : str) :
  eqs (slice l 0 (len t)) t = true ↔ t `prefix_of` l.
Proof.
  unfold eqs, slice, clamp_index.
  pose proof (len_nonneg l) as Hl. pose proof (len_nonneg t) as Ht.
  change (0 <? 0) with false. cbv iota.
  rewrite (proj2 (Z.ltb_ge (len t) 0)) by lia.
  rewrite bool_decide_eq_true.
  replace (Z.to_nat (Z.min 0 (len l))) with 0%nat by lia.
  rewrite drop_0. split.
  - intros E. exists (drop (Z.to_nat (Z.min (len t) (len l) - Z.min 0 (len l))) l).
    rewrite <- E at 1. symmetry. apply take_drop.
  - intros (k & ->). rewrite len_app.
    replace (Z.to_nat (Z.min (len t) (len t + len k) - Z.min 0 (len t + len k)))
      with (length t) by (unfold len in *; lia).
    apply take_app_length.
Qed.

Lemma slice_not_prefix (l t : str) :
  ¬ t `prefix_of` l → eqs (slice l 0 (len t)) t = false.
Proof.
  intros H. destruct (eqs _ _) eqn:E; [|reflexivity].
  apply slice_is_prefix in E. contradiction.
Qed.

(** X14: [get_commands] returns the entries of the catalog whose name or
    alias starts with the prefix, in the order of the catalog; the empty
    prefix returns the whole catalog. *)
Theorem get_commands_matches_prefix {V : Type} (p : str) (c : Console.t V) :
  (∀ m, m ∈ Console.get_commands p c ↔
        m ∈ Console.base_commands c ∧
        (p `prefix_of` Console.name m ∨ p `prefix_of` Console.alias m)) ∧
  Console.get_commands p c `sublist_of` Console.base_commands c ∧
  Console.get_commands [] c = Console.base_commands c.
Proof.
  unfold Console.get_commands. split; [|split].
  - intros m. rewrite list_elem_of_filter, orb_true_iff, !slice_is_prefix.
    tauto.
  - apply sublist_filter.
  - induction (Console.base_commands c) as [|m l IH]; [reflexivity|].
    rewrite filter_cons_True.
    + f_equal. exact IH.
    + apply orb_true_iff. left. apply (slice_is_prefix _ []), prefix_nil.
Qed.

Section Completion.

Context {V : Type}.
Variable get_matches : V → option str → list (str * str).
Variable show_variables : V → option (list (str * str)) → str.
Variable print_dictionary_list : list Console.entry → Z → str.

Let press := Console._process_command_keys get_matches show_variables
               print_dictionary_list.

Lemma complete_unique_prefix (c : Console.t V) (k : Console.cmd_key)
    (prompt t r : str) (m : Console.entry) :
  k = Console.TAB ∨ k = Console.ENTER_POSIX ∨ k = Console.ENTER_WIN →
  Console.cmd_line c = Command.mk prompt (len t) t (len t) →
  t ≠ [] → (SP ∉ t) → Console.tab_count c ≠ 1 →
  Console.get_commands t c = [m] → completes m t r →
  ∃ c', press k c = Some c' ∧
        Console.cmd_line c' = line prompt (t ++ r ++ [SP]) [] ∧
        Console.tab_count c' = 0 ∧
        Console.stdout c' = Console.stdout c ++ r ++ [SP].
Proof.
  intros Hk Hline Ht Hsp Htab Hm Hr.
  assert (press k c = press Console.TAB c) as ->
    by (destruct Hk as [->|[->| ->]]; reflexivity).
  assert (Console._set_complete_mode c
          = Some ([], Console.set_type_complete_mode
                        Console._COMMAND_COMPLETE c)) as Hmode.
  { unfold Console._set_complete_mode, Command.get_command. rewrite Hline.
    cbn [Command.command]. rewrite (split_absent SP t Hsp).
    assert ((0 <? len t) = true) as ->; [|reflexivity].
    apply Z.ltb_lt. destruct t; [done|]. unfold len. simpl. lia. }
  unfold press. cbn [Console._process_command_keys]. rewrite Hmode.
  cbn [mbind option_bind fst snd].
  set (c1 := Console.set_tab_count _ _).
  change (Console.type_complete_mode c1) with Console._COMMAND_COMPLETE.
  change (Console._COMMAND_COMPLETE =? Console._COMMAND_COMPLETE) with true.
  cbv iota. unfold Console.do_command_tab, Console.do_base_command_tab.
  change (Command.get_command (Console.cmd_line c1))
    with (Command.command (Console.cmd_line c)).
  change (Console.get_commands (Command.command (Console.cmd_line c)) c1)
    with (Console.get_commands (Command.command (Console.cmd_line c)) c).
  rewrite Hline. cbn [Command.command]. rewrite Hm.
  change (0 <? len [m]) with true. cbv iota.
  change (Console.tab_count c1) with (Console.tab_count c + 1).
  destruct (Z.eqb_spec (Console.tab_count c + 1) 2) as [E|_]; [lia|].
  cbv zeta.
  assert ((if eqs (slice (Console.name m) 0 (len t)) t
           then Console.name m ++ [SP] else Console.alias m ++ [SP])
          = t ++ r ++ [SP]) as ->.
  { destruct Hr as [Hn|[Hn Ha]].
    - rewrite (proj2 (slice_is_prefix _ _)) by (exists r; exact Hn).
      rewrite Hn. app_eq.
    - rewrite slice_not_prefix by exact Hn. rewrite Ha. app_eq. }
  rewrite slice_from_suffix.
  eexists. split; [reflexivity|].
  change (Console.cmd_line (Console.on_cmd_line ?f (Console.set_tab_count 0 c1)))
    with (f (Console.cmd_line c)).1.
  change (Console.stdout (Console.on_cmd_line ?f (Console.set_tab_count 0 c1)))
    with (Console.stdout c ++ (f (Console.cmd_line c)).2).
  rewrite Hline. unfold Command.add, line.
  cbn [Command.position Command.length Command.prompt Command.command].
  rewrite Z.ltb_irrefl. cbn [fst snd].
  rewrite !app_nil_r, !len_app. repeat split.
Qed.

(** X15: when the line holds a text without a space that one entry of the
    catalog matches, and the cursor is at its end, the Tab key completes
    the text to the name of the entry and a space (to its alias when the
    name does not start with the text), writes the added characters and
    resets the press counter; this is so at any press but the second of two
    in a row. *)
Theorem tab_completes_unique_prefix (c : Console.t V) (prompt t r : str)
    (m : Console.entry) :
  Console.cmd_line c = Command.mk prompt (len t) t (len t) →
  t ≠ [] → (SP ∉ t) → Console.tab_count c ≠ 1 →
  Console.get_commands t c = [m] → completes m t r →
  ∃ c', press Console.TAB c = Some c' ∧
        Console.cmd_line c' = line prompt (t ++ r ++ [SP]) [] ∧
        Console.tab_count c' = 0 ∧
        Console.stdout c' = Console.stdout c ++ r ++ [SP].
Proof. apply complete_unique_prefix. left. reflexivity. Qed.

(** X17: the second Tab in a row on a text without a space that entries of
    the catalog match prints the matching entries, then the prompt and the
    text again, leaves the line as it is and resets the press counter. *)
Theorem second_tab_lists_matches (c : Console.t V) (prompt t : str) :
  Console.cmd_line c = Command.mk prompt (len t) t (len t) →
  t ≠ [] → (SP ∉ t) → Console.tab_count c = 1 →
  Console.get_commands t c ≠ [] →
  ∃ c', press Console.TAB c = Some c' ∧
        Console.cmd_line c' = Console.cmd_line c ∧
        Console.tab_count c' = 0 ∧
        Console.stdout c'
        = Console.stdout c ++ [NL; NL] ++
          print_dictionary_list (Console.get_commands t c) (Console.width c)
          ++ [NL] ++ prompt ++ t.
Proof.
  intros Hline Ht Hsp Htab Hm.
  assert (Console._set_complete_mode c
          = Some ([], Console.set_type_complete_mode
                        Console._COMMAND_COMPLETE c)) as Hmode.
  { unfold Console._set_complete_mode, Command.get_command. rewrite Hline.
    cbn [Command.command]. rewrite (split_absent SP t Hsp).
    assert ((0 <? len t) = true) as ->; [|reflexivity].
    apply Z.ltb_lt. destruct t; [done|]. unfold len. simpl. lia. }
  unfold press. cbn [Console._process_command_keys]. rewrite Hmode.
  cbn [mbind option_bind fst snd].
  set (c1 := Console.set_tab_count _ _).
  change (Console.type_complete_mode c1) with Console._COMMAND_COMPLETE.
  change (Console._COMMAND_COMPLETE =? Console._COMMAND_COMPLETE) with true.
  cbv iota. unfold Console.do_command_tab, Console.do_base_command_tab.
  change (Command.get_command (Console.cmd_line c1))
    with (Command.command (Console.cmd_line c)).
  change (Console.get_commands (Command.command (Console.cmd_line c)) c1)
    with (Console.get_commands (Command.command (Console.cmd_line c)) c).
  rewrite Hline. cbn [Command.command].
  destruct (Console.get_commands t c) as [|m ms] eqn:Ems; [done|].
  assert ((0 <? len (m :: ms)) = true) as ->.
  { apply Z.ltb_lt. unfold len. simpl. lia. }
  change (Console.tab_count c1) with (Console.tab_count c + 1).
  rewrite Htab. change (1 + 1 =? 2) with true. cbv iota zeta.
  eexists. split; [reflexivity|].
  cbn [Console.cmd_line Console.set_tab_count Console.write Console.print
       Console.tab_count Console.stdout Console.width].
  change (Console.cmd_line c1) with (Console.cmd_line c).
  change (Console.stdout c1) with (Console.stdout c).
  change (Console.width c1) with (Console.width c).
  rewrite Hline. unfold Command.display_command.
  cbn [Command.prompt Command.command].
  split; [reflexivity|]. split; [reflexivity|].
  rewrite <- !app_assoc. reflexivity.
Qed.

End Completion.

Lemma tab_completes_unique_prefix_witness :
  let c := Console.plain_key (lit "q")
             (Console.init [] (lit "> ") 80 None false false false
                ([] : list (str * str))) in
  ∃ c', Console._process_command_keys Examples.get_matches
          Examples.show_variables Examples.print_dictionary_list
          Console.TAB c = Some c' ∧
        Console.cmd_line c' = line (lit "> ") (lit "quit ") [].
Proof.
  intros c.
  destruct (tab_completes_unique_prefix Examples.get_matches
              Examples.show_variables Examples.print_dictionary_list
              c (lit "> ") (lit "q") (lit "uit")
              (Console.mk_entry (lit "exit") (lit "quit")
                 (lit "Exit the console.")))
    as (c' & H1 & H2 & _).
  - reflexivity.
  - discriminate.
  - apply (bool_decide_unpack _). vm_compute. exact I.
  - discriminate.
  - reflexivity.
  - right. split; [|reflexivity].
    intros (k & Hk). discriminate Hk.
  - exists c'. split; [exact H1 | exact H2].
Defined.

Lemma second_tab_lists_matches_witness :
  let c := Console.set_tab_count 1
             (Console.plain_key (lit "h")
                (Console.init [history_entry] (lit "> ") 80 None false false
                   false ([] : list (str * str)))) in
  ∃ c', Console._process_command_keys Examples.get_matches
          Examples.show_variables Examples.print_dictionary_list
          Console.TAB c = Some c' ∧
        Console.stdout c'
        = lit "h" ++ [NL; NL] ++ lit "history" ++ [NL] ++ lit "help" ++
          [NL; NL] ++ lit "> h".
Proof.
  intros c.
  destruct (second_tab_lists_matches Examples.get_matches
              Examples.show_variables Examples.print_dictionary_list
              c (lit "> ") (lit "h")) as (c' & H1 & _ & _ & H2).
  - reflexivity.
  - discriminate.
  - apply (bool_decide_unpack _). vm_compute. exact I.
  - reflexivity.
  - discriminate.
  - exists c'. split; [exact H1 | exact H2].
Defined.

(** * The keys of the console: what [getch] returns *)

Section KeysRead.

Context {V : Type}.
Variable find_variable : V → str → option str.
Variable add_variable : str → str → V → V.
Variable get_matches : V → option str → list (str * str).
Variable show_variables : V → option (list (str * str)) → str.
Variable print_dictionary_list : list Console.entry → Z → str.
Variable shlex_split : str → str + list str.
Variable os_nt os_posix : bool.
Variable welcome goodbye : str.

Let get_user_command := Console.get_user_command get_matches show_variables
                          print_dictionary_list os_posix.
Let run_console := Console.run_console find_variable add_variable get_matches
                     show_variables print_dictionary_list shlex_split os_nt
                     os_posix welcome goodbye.


End KeysRead.

(** The keys q and ENTER given as text are read: the line holds [q], which
    the ENTER key, handled as Tab, completes before it is returned. *)
Example text_keys_are_read :
  ∃ c, Console.get_user_command Examples.get_matches Examples.show_variables
         Examples.print_dictionary_list true
         [Console.Str (lit "q"); Console.Str [NL]]
         (Console.init [] (lit "> ") 80 None false false false
            ([] : list (str * str)))
       = Console.Entered (lit "quit ") [] c.
Proof. eexists. vm_compute. reflexivity. Qed.


(** * The commands of the console *)

(** ** The set command *)

Section SetCommand.

Context {V : Type}.
Variable add_variable : str → str → V → V.

Let set := Console._add_variable add_variable.
Let syntax_message : str :=
  [NL; NL] ++ lit "SET command invalid. Syntax: SET <NAME> = <value>".

Lemma find_first (c : ascii) (u w : str) :
  c ∉ u → find (u ++ c :: w) c 0 = len u.
Proof. intros H. rewrite find_0, find_aux_first by exact H. lia. Qed.

Lemma find_none (c : ascii) (s : str) : c ∉ s → find s c 0 = -1.
Proof. intros H. rewrite find_0. apply find_aux_absent, H. Qed.

(** X18: how the text after [set] is read.  Without an equals sign, or with
    one in the first place, the syntax message is printed and nothing is
    stored; with a name and one equals sign the value is stored under the
    name, both without the white space around them and the name without
    dollar signs around it; with a second equals sign the command raises
    ValueError. *)
Theorem set_reads_name_and_value (c : Console.t V) (n v w : str) :
  (("="%char ∉ n) → set n c = Some (Console.print syntax_message c)) ∧
  set ("="%char :: w) c = Some (Console.print syntax_message c) ∧
  (n ≠ [] → ("="%char ∉ n) → ("="%char ∉ v) →
   set (n ++ "="%char :: v) c
   = Some (Console.set_variables
             (add_variable (strip DOLLAR (strip_ws n)) (strip_ws v)
                (Console.variables c)) c) ∧
   set (n ++ "="%char :: v ++ "="%char :: w) c = None).
Proof.
  unfold set, Console._add_variable. split; [|split].
  - intros Hn. rewrite find_none by exact Hn. reflexivity.
  - reflexivity.
  - intros Hne Hn Hv.
    assert (0 < len n) as Hlen.
    { destruct n; [done|]. unfold len. simpl. lia. }
    rewrite !find_first by exact Hn.
    destruct (Z.leb_spec (len n) 0) as [H|_]; [lia|].
    rewrite !split_app by exact Hn. split.
    + rewrite split_absent by exact Hv. reflexivity.
    + rewrite split_app by exact Hv.
      destruct (split_nonempty "="%char w) as (p & ps & ->). reflexivity.
Qed.

End SetCommand.

Lemma set_reads_name_and_value_witness :
  let c := Console.init [] (lit "> ") 80 None false false false
             ([] : list (str * str)) in
  Console._add_variable Examples.add_variable (lit "$x = 5") c
  = Some (Console.set_variables [(lit "x", lit "5")] c) ∧
  Console._add_variable Examples.add_variable (lit "x=5=6") c = None.
Proof.
  intros c.
  destruct (set_reads_name_and_value Examples.add_variable c
              (lit "$x ") (lit " 5") []) as (_ & _ & H1).
  destruct (set_reads_name_and_value Examples.add_variable c
              (lit "x") (lit "5") (lit "6")) as (_ & _ & H2).
  split.
  - apply H1; [discriminate | |]; apply (bool_decide_unpack _); vm_compute;
      exact I.
  - apply H2; [discriminate | |]; apply (bool_decide_unpack _); vm_compute;
      exact I.
Defined.

(** ** Substitution without values *)

Section NoValues.

Import SubstitutionSpec.

Lemma scan_without_values (ends : ascii → bool) (lookup : str → option str)
    (tok : option str) (s : str) :
  (∀ name, lookup name = None) →
  scan_tokens ends lookup tok s
  = match tok with Some name => DOLLAR :: name | None => [] end ++ s.
Proof.
  intros Hnone. revert tok. induction s as [|x s IH]; intros tok.
  - destruct tok as [name|]; cbn; [|reflexivity].
    unfold resolve. rewrite Hnone, app_nil_r. reflexivity.
  - destruct tok as [name|]; cbn [scan_tokens].
    + destruct (ends x).
      * unfold resolve. rewrite Hnone, IH. reflexivity.
      * rewrite IH. cbn. rewrite <- app_assoc. reflexivity.
    + destruct (Ascii.eqb_spec x DOLLAR) as [->|_]; rewrite IH; reflexivity.
Qed.

End NoValues.

(** X19: when no variable is stored, the substitution returns every command
    as it was given, in as many passes of its loop as the command has
    dollar signs and one more. *)
Theorem replace_variables_without_values {V : Type}
    (find_variable : V → str → option str) (vars : V) (cmd_string : str)
    (fuel : nat) :
  (∀ name, find_variable vars name = None) →
  (dollars cmd_string < fuel)%nat →
  Console._replace_variables find_variable fuel vars cmd_string
  = Some cmd_string.
Proof.
  intros Hnone Hfuel. unfold Console._replace_variables.
  destruct cmd_string as [|x todo].
  - destruct fuel as [|[|fuel]]; [simpl in Hfuel; lia | reflexivity ..].
  - change (1, x :: todo) with (len [x], [x] ++ todo).
    rewrite replace_loop_scan.
    + rewrite scan_without_values by exact Hnone. reflexivity.
    + intros name value H. rewrite Hnone in H. discriminate.
    + unfold len. simpl. lia.
    + change (x :: todo) with ([x] ++ todo) in Hfuel.
      rewrite dollars_app in Hfuel. lia.
Qed.

Lemma replace_variables_without_values_witness :
  Console._replace_variables Examples.find_variable 3 []
    (lit "copy $a to $b")
  = Some (lit "copy $a to $b").
Proof.
  apply replace_variables_without_values.
  - reflexivity.
  - vm_compute. lia.
Defined.

(** ** What a command leaves of the console *)

Section CommandFrame.

Context {V : Type}.
Variable find_variable : V → str → option str.
Variable add_variable : str → str → V → V.
Variable show_variables : V → option (list (str * str)) → str.
Variable print_dictionary_list : list Console.entry → Z → str.
Variable shlex_split : str → str + list str.
Variable os_nt : bool.

Let do_command := Console._do_command find_variable add_variable
                    show_variables print_dictionary_list shlex_split.
Let run_commands := Console.run_commands find_variable add_variable
                      show_variables print_dictionary_list shlex_split os_nt.

(** The line, the press counter, the history and the catalog are the
    same in both consoles. *)
Local Abbreviation same_line c c' :=
  (Console.cmd_line c' = Console.cmd_line c ∧
   Console.tab_count c' = Console.tab_count c ∧
   Console.history c' = Console.history c ∧
   Console.base_commands c' = Console.base_commands c).







(** How [_do_command] ends: with the line cleared and the press counter
    at 0, or with both as they were. *)
Local Abbreviation cleared c c' :=
  (Console.cmd_line c' = Command.clear (Console.cmd_line c) ∧
   Console.tab_count c' = 0 ∧
   Console.history c' = Console.history c ∧
   Console.base_commands c' = Console.base_commands c).

Lemma finish_cleared (c c1 : Console.t V) :
  same_line c c1 → cleared c (Console.finish_command c1).2.
Proof.
  intros (A1 & A2 & A3 & A4). cbn. rewrite A1. repeat split; assumption.
Qed.




End CommandFrame.



(** * The dashboard: how it ends, and the GTID lists *)

Section DisplayConsole.

Import FailoverConsole.

Context {M : Type}.
Variable is_alive : M → bool.
Variable connect : M → M * bool.
Variable disconnect : M → M.
Variable get_status : M → option status.
Variable get_health_data : option (option (list str * list row)).
Variable get_gtid_data : option (option (list (list row))).
Variable get_uuid_data : option (option (list row)).
Variable terminal_size : Z * Z.
Variable log_file : option str.
Variable log_lines : option (list str).

Let loop := display_loop is_alive connect disconnect get_status
              get_health_data get_gtid_data get_uuid_data terminal_size
              log_file log_lines.
Let display := display_console is_alive connect disconnect get_status
                 get_health_data get_gtid_data get_uuid_data terminal_size
                 log_file log_lines.

Lemma display_loop_returns (keys : list (option str)) (d d' : t M)
    (value : option bool) :
  loop keys d = Returned value d' →
  value = Some true ∧ (Some (lit "Q") ∈ keys ∨ Some (lit "q") ∈ keys) ∨
  value = None ∧ None ∈ keys.
Proof.
  unfold loop. revert d. induction keys as [|key keys IH]; intros d.
  - cbn. destruct (master d); discriminate.
  - cbn -[lit]. destruct (master d) as [m|]; [|discriminate].
    destruct key as [key|].
    2: { intros [= <- _]. right. split; [reflexivity | left]. }
    destruct (eqs key (lit "Q")) eqn:EQ.
    { apply bool_decide_eq_true in EQ as ->. cbn -[lit].
      intros [= <- _]. left. split; [reflexivity|]. left. left. }
    destruct (eqs key (lit "q")) eqn:Eq.
    { apply bool_decide_eq_true in Eq as ->. cbn -[lit].
      intros [= <- _]. left. split; [reflexivity|]. right. left. }
    cbn -[lit].
    destruct (_ ≫= _) as [d1|]; [|discriminate].
    intros H. destruct (IH _ H) as [(-> & [Hq|Hq])|(-> & Hn)].
    + left. split; [reflexivity|]. left. right. exact Hq.
    + left. split; [reflexivity|]. right. right. exact Hq.
    + right. split; [reflexivity|]. right. exact Hn.
Qed.

(** X22: [display_console] returns True only after the key Q or q and None
    only after an interval that expired without a key; it never returns
    False, every error leaving it as an exception. *)
Theorem display_console_never_returns_false (keys : list (option str))
    (d d' : t M) (value : option bool) :
  display keys d = Returned value d' →
  value ≠ Some false ∧
  (value = Some true → Some (lit "Q") ∈ keys ∨ Some (lit "q") ∈ keys) ∧
  (value = None → None ∈ keys).
Proof.
  unfold display, display_console.
  destruct (_ ≫= _) as [d1|]; [|discriminate].
  intros H. apply display_loop_returns in H.
  destruct H as [(-> & Hq)|(-> & Hn)].
  - split; [discriminate|]. split; [intros _; exact Hq | discriminate].
  - split; [discriminate|]. split; [discriminate | intros _; exact Hn].
Qed.

End DisplayConsole.

Lemma display_console_never_returns_false_witness :
  (∃ d', FailoverConsole.display_console DashboardExamples.is_alive
           DashboardExamples.connect DashboardExamples.disconnect
           DashboardExamples.get_status
           (Some (Some ([lit "host"; lit "port"], DashboardExamples.rows 3)))
           None None DashboardExamples.terminal_size None None
           [Some (lit "u"); Some (lit "q")] DashboardExamples.console
         = FailoverConsole.Returned (Some true) d') ∧
  (Some (lit "Q") ∈ [Some (lit "u"); Some (lit "q")] ∨
   Some (lit "q") ∈ [Some (lit "u"); Some (lit "q")]).
Proof.
  split.
  - eexists. vm_compute. reflexivity.
  - eapply (display_console_never_returns_false DashboardExamples.is_alive
              DashboardExamples.connect DashboardExamples.disconnect
              DashboardExamples.get_status
              (Some (Some ([lit "host"; lit "port"],
                           DashboardExamples.rows 3)))
              None None DashboardExamples.terminal_size None None
              [Some (lit "u"); Some (lit "q")] DashboardExamples.console
              _ (Some true)).
    + vm_compute. reflexivity.
    + reflexivity.
Defined.

Section GtidLists.

Import FailoverConsole.

Context {M : Type}.

(** X23: the key G walks through four lists in a cycle: the executed set of
    the master under the column gtid, then the transactions executed,
    purged and owned as the callback returns them.  When the master has no
    executed set, the first of the four shows the last list of the
    callback, the transactions owned, under the column gtid. *)
Theorem gtid_key_cycles_lists (d : t M) (executed purged owned : list row) :
  -1 <= gtid_list d <= 3 →
  let g := (gtid_list d + 1) mod 4 in
  let shown :=
    if g =? 0 then
      if truthy (master_gtids d) then (master_gtids d, _MASTER_GTID_LIST)
      else (owned, lit "Transactions owned by another server:")
    else if g =? 1 then (executed, lit "Transactions executed on the servers:")
    else if g =? 2 then (purged, lit "Transactions purged from the servers:")
    else (owned, lit "Transactions owned by another server:") in
  ∃ d', _format_gtid_data (Some (Some [executed; purged; owned])) d
        = Some ((if g =? 0 then _MASTER_GTID_COLS else _GEN_GTID_COLS,
                 shown.1), d') ∧
        gtid_list d' = g ∧ comment d' = shown.2 ∧
        start_list d' = 0 ∧ end_list d' = len shown.1 ∧
        report_mode d' = "G"%char.
Proof.
  intros Hg.
  assert (gtid_list d = -1 ∨ gtid_list d = 0 ∨ gtid_list d = 1 ∨
          gtid_list d = 2 ∨ gtid_list d = 3) as Hcases by lia.
  destruct d as [? ? ? ? ? g0 ? ? ? ? ? ? ? ? ? ? ? mg ? ? ? ?].
  cbn [gtid_list master_gtids] in *.
  destruct Hcases as [->|[->|[->|[->| ->]]]];
    destruct mg as [|g1 mg];
    (eexists; split; [vm_compute; reflexivity | vm_compute; repeat split]).
Qed.

End GtidLists.

Lemma gtid_key_cycles_lists_witness :
  let d := DashboardExamples.console in
  ∃ d', FailoverConsole._format_gtid_data
          (Some (Some [[[lit "e"]]; [[lit "p"]]; [[lit "o"]]])) d
        = Some ((FailoverConsole._MASTER_GTID_COLS, [[lit "o"]]), d') ∧
        FailoverConsole.comment d'
        = lit "Transactions owned by another server:".
Proof.
  intros d.
  destruct (gtid_key_cycles_lists d [[lit "e"]] [[lit "p"]] [[lit "o"]])
    as (d' & H1 & _ & H2 & _).
  - vm_compute. split; discriminate.
  - exists d'. split; [exact H1 | exact H2].
Defined.

(** * The dashboard: the rows of the list on the screen *)

Section ListOnScreen.

Import FailoverConsole.

Context {M : Type}.
Variable get_status : M → option status.

(** The second console has the events of the first and more. *)
Local Abbreviation extends d d' := (∃ evs, screen d' = screen d ++ evs).

Lemma extends_refl (d : t M) : extends d d.
Proof. exists []. by rewrite app_nil_r. Qed.

Lemma extends_trans (d d1 d2 : t M) :
  extends d d1 → extends d1 d2 → extends d d2.
Proof.
  intros (e1 & H1) (e2 & H2). exists (e1 ++ e2).
  by rewrite H2, H1, app_assoc.
Qed.

Lemma emit_iter_screen (n : nat) (e : event) (d : t M) :
  screen (Nat.iter n (emit e) d) = screen d ++ replicate n e ∧
  rows_printed (Nat.iter n (emit e) d) = rows_printed d ∧
  max_rows (Nat.iter n (emit e) d) = max_rows d.
Proof.
  induction n as [|n (IH1 & IH2 & IH3)]; [by rewrite app_nil_r|].
  cbn [Nat.iter]. split; [|split; [exact IH2 | exact IH3]].
  rewrite replicate_S_end, app_assoc, <- IH1. reflexivity.
Qed.

Lemma print_footer_extends (b : bool) (d : t M) :
  extends d (_print_footer b d) ∧
  rows_printed (_print_footer b d) = max_rows d ∧
  max_rows (_print_footer b d) = max_rows d.
Proof.
  unfold _print_footer.
  set (n := Z.to_nat _).
  destruct (emit_iter_screen n (EPrint []) d) as (H1 & H2 & H3).
  set (d1 := Nat.iter n (emit (EPrint [])) d) in *.
  split; [|split; [exact H3 | exact H3]].
  eexists. cbn [screen set_rows_printed emit set_screen]. rewrite H1.
  rewrite <- app_assoc. reflexivity.
Qed.

Lemma print_header_extends (d : t M) :
  extends d (_print_header (clear d)).
Proof.
  unfold _print_header, clear.
  destruct (match old_mode _ with Some _ => _ | None => _ end);
    eexists; cbn; rewrite <- app_assoc; reflexivity.
Qed.

Lemma print_master_status_extends (d d' : t M) :
  _print_master_status get_status d = Some d' → extends d d'.
Proof.
  unfold _print_master_status. destruct (master d) as [m|].
  - destruct (get_status m) as [st|]; [|done]. cbn. intros [= <-].
    by eexists.
  - intros [= <-]. apply extends_refl.
Qed.

(** The rows that [fit_window] gives are the rows of the new window. *)
Lemma fit_window_shown (all_rows : list row) (d : t M) :
  let r := fit_window all_rows d in
  r.1 = slice all_rows (start_list r.2) (end_list r.2) ∧
  screen r.2 = screen d ∧ rows_printed r.2 = rows_printed d ∧
  max_rows r.2 = max_rows d ∧ scroll_size r.2 = scroll_size d.
Proof.
  unfold fit_window. destruct (_ <? _); cbn; [repeat split|].
  destruct (_ && _); repeat split.
Qed.

Lemma print_rows_screen (cols : list str) (rows : list row) (d : t M) :
  let d' := print_rows cols rows d in
  screen d'
  = screen d ++ [if 0 <? len rows then EGrid cols rows
                 else EPrint (lit "0 Rows Found.")] ∧
  scroll_size d' = (if 0 <? len rows then len rows else scroll_size d) ∧
  rows_printed d'
  = rows_printed d + (if 0 <? len rows then len rows + 4 else 1) ∧
  max_rows d' = max_rows d.
Proof.
  unfold print_rows. destruct (0 <? len rows); repeat split; cbn; lia.
Qed.

(** X24: what [_print_list] puts on the screen is the window of the list:
    the rows from [start_list] up to [end_list] as the method leaves them,
    in a grid under the columns of the list; the scroll step becomes their
    number.  When the window holds no row the line 0 Rows Found. is printed
    and the scroll step stays. *)
Theorem print_list_shows_window (refresh : bool) (comment_arg : option str)
    (d d' : t M) (cols : list str) (rows : list row) :
  list_data d = Some (cols, rows) →
  _print_list get_status refresh comment_arg d = Some d' →
  let shown := slice rows (start_list d') (end_list d') in
  ∃ evs,
    screen d' = screen d ++ evs ∧
    if 0 <? len shown
    then EGrid cols shown ∈ evs ∧ scroll_size d' = len shown
    else EPrint (lit "0 Rows Found.") ∈ evs ∧ scroll_size d' = scroll_size d.
Proof.
  intros Hld. unfold _print_list. rewrite Hld.
  destruct (if refresh
            then _print_master_status get_status (_print_header (clear d))
            else Some d) as [d1|] eqn:Hd1; [|done].
  assert (extends d d1 ∧ scroll_size d1 = scroll_size d) as ((e1 & He1) & Hs1).
  { destruct refresh.
    - split.
      + eapply extends_trans; [apply print_header_extends|].
        eapply print_master_status_extends, Hd1.
      + apply print_master_status_window in Hd1 as (_ & _ & -> & _).
        apply print_header_window.
    - injection Hd1 as <-. split; [apply extends_refl | reflexivity]. }
  cbn [mbind option_bind fst snd].
  set (d2 := set_rows_printed _ (emit _ d1)).
  assert (screen d2 = screen d1 ++ [EPrint match comment_arg with
                                           | Some c => c
                                           | None => comment d1
                                           end]) as He2 by reflexivity.
  assert (scroll_size d2 = scroll_size d1) as Hs2 by reflexivity.
  destruct (fit_window_shown rows d2) as (Hshown & He3 & _ & _ & Hs3).
  set (r := fit_window rows d2) in *.
  destruct (print_rows_screen cols r.1 r.2) as (He4 & Hs4 & _ & _).
  destruct (print_rows_window cols r.1 r.2) as (Hst4 & Hen4 & _).
  set (d4 := print_rows cols r.1 r.2) in *.
  intros [= <-].
  assert (∃ e5, screen (if refresh then _print_footer (scroll_on d4) d4
                        else d4) = screen d4 ++ e5) as (e5 & He5).
  { destruct refresh; [apply print_footer_extends | apply extends_refl]. }
  assert (start_list (if refresh then _print_footer (scroll_on d4) d4
                      else d4) = start_list d4 ∧
          end_list (if refresh then _print_footer (scroll_on d4) d4
                    else d4) = end_list d4 ∧
          scroll_size (if refresh then _print_footer (scroll_on d4) d4
                       else d4) = scroll_size d4) as (-> & -> & ->).
  { destruct refresh; [|done].
    by destruct (print_footer_window (scroll_on d4) d4) as (-> & -> & -> & _). }
  rewrite Hst4, Hen4, <- Hshown, Hs4, Hs3, Hs2, Hs1.
  eexists. split.
  { rewrite He5, He4, He3, He2, He1, <- !app_assoc. reflexivity. }
  destruct (0 <? len r.1); (split; [|reflexivity]);
    rewrite !elem_of_app, !list_elem_of_singleton; auto 10.
Qed.

Lemma print_list_rows_printed (comment_arg : option str) (d : t M)
    (cols : list str) (rows : list row) :
  list_data d = Some (cols, rows) →
  let d2 := set_rows_printed (rows_printed d + 1)
              (emit (EPrint match comment_arg with
                            | Some c => c
                            | None => comment d
                            end) d) in
  let r := fit_window rows d2 in
  _print_list get_status false comment_arg d
  = Some (print_rows cols r.1 r.2).
Proof. intros Hld. unfold _print_list. rewrite Hld. reflexivity. Qed.

(** X25: when [_print_list] is called below the header with 7 rows or more
    left on the screen, the list and its frame end at least two rows
    above the bottom, which are the rows of the footer. *)
Theorem list_fits_above_footer (comment_arg : option str) (d d' : t M)
    (cols : list str) (rows : list row) :
  list_data d = Some (cols, rows) → 0 <= start_list d →
  7 <= max_rows d - rows_printed d →
  _print_list get_status false comment_arg d = Some d' →
  rows_printed d' <= max_rows d' - 2 ∧ max_rows d' = max_rows d.
Proof.
  intros Hld Hs Hrows. rewrite (print_list_rows_printed _ _ _ _ Hld).
  cbv zeta. set (d2 := set_rows_printed _ _).
  assert (rows_printed d2 = rows_printed d + 1) as Hr2 by reflexivity.
  assert (max_rows d2 = max_rows d) as Hm2 by reflexivity.
  assert (start_list d2 = start_list d) as Hs2 by reflexivity.
  destruct (fit_window_shown rows d2) as (_ & _ & Hr3 & Hm3 & _).
  assert (len (fit_window rows d2).1 <= max_rows d2 - rows_printed d2 - 6)
    as Hfit.
  { unfold fit_window. cbv zeta.
    destruct (Z.ltb_spec (max_rows d2 - rows_printed d2 - 4 - 2)
                (len (slice rows (start_list d2) (end_list d2)))); cbn [fst].
    - pose proof (len_slice_le rows (start_list d2)
                    (start_list d2 + (max_rows d2 - rows_printed d2 - 4 - 2))).
      lia.
    - lia. }
  set (r := fit_window rows d2) in *.
  destruct (print_rows_screen cols r.1 r.2) as (_ & _ & Hr4 & Hm4).
  intros [= <-]. rewrite Hr4, Hm4, Hr3, Hm3, Hr2, Hm2.
  split; [|reflexivity].
  pose proof (len_nonneg r.1). destruct (0 <? len r.1); lia.
Qed.

(** X26: when [_print_list] is called with fewer than 7 rows left, say
    [7 - k], on a list shown from its start, the list is not cut to the
    screen: all rows but the last [k] are printed, which ends as many
    rows below the place of the footer as the list has rows, and
    [end_list] becomes [-k]. *)
Theorem list_overruns_short_screen (comment_arg : option str) (d : t M)
    (cols : list str) (rows : list row) (k : Z) :
  list_data d = Some (cols, rows) →
  start_list d = 0 → end_list d = len rows →
  max_rows d - rows_printed d = 7 - k → 0 < k < len rows →
  ∃ d', _print_list get_status false comment_arg d = Some d' ∧
        EGrid cols (take (Z.to_nat (len rows - k)) rows) ∈ screen d' ∧
        end_list d' = - k ∧ scroll_size d' = len rows - k ∧
        rows_printed d' = max_rows d' - 2 + len rows.
Proof.
  intros Hld Hs He Hrows Hk. rewrite (print_list_rows_printed _ _ _ _ Hld).
  cbv zeta. set (d2 := set_rows_printed _ _).
  assert (rows_printed d2 = rows_printed d + 1) as Hr2 by reflexivity.
  assert (max_rows d2 = max_rows d) as Hm2 by reflexivity.
  assert (start_list d2 = 0) as Hs2 by exact Hs.
  assert (end_list d2 = len rows) as He2 by exact He.
  assert (fit_window rows d2
          = (take (Z.to_nat (len rows - k)) rows,
             set_scroll_on true (set_end_list (- k) d2))) as Hfit.
  { unfold fit_window. cbv zeta. rewrite Hs2, He2, Hr2, Hm2.
    replace (max_rows d - (rows_printed d + 1) - 4 - 2) with (- k) by lia.
    pose proof (len_nonneg (slice rows 0 (len rows))).
    destruct (Z.ltb_spec (- k) (len (slice rows 0 (len rows)))); [|lia].
    f_equal. unfold slice, clamp_index. change (0 <? 0) with false.
    cbv iota. destruct (Z.ltb_spec (0 + - k) 0); [|lia].
    replace (Z.to_nat (Z.min 0 (len rows))) with 0%nat by lia.
    rewrite drop_0. f_equal. lia. }
  rewrite Hfit. cbn [fst snd]. eexists. split; [reflexivity|].
  set (shown := take _ rows).
  assert (len shown = len rows - k) as Hlen.
  { subst shown. unfold len in *. rewrite length_take. lia. }
  destruct (print_rows_screen cols shown
              (set_scroll_on true (set_end_list (- k) d2)))
    as (H1 & H2 & H3 & H4).
  destruct (print_rows_window cols shown
              (set_scroll_on true (set_end_list (- k) d2)))
    as (_ & H5 & _).
  rewrite H1, H2, H3, H4, H5.
  destruct (Z.ltb_spec 0 (len shown)); [|lia].
  split; [apply elem_of_app; right; left|].
  split; [reflexivity|]. split; [exact Hlen|].
  change (rows_printed (set_scroll_on true (set_end_list (- k) d2)))
    with (rows_printed d2).
  change (max_rows (set_scroll_on true (set_end_list (- k) d2)))
    with (max_rows d2).
  lia.
Qed.

End ListOnScreen.

Lemma print_list_shows_window_witness :
  ∃ d d', DashboardExamples.press 50 [lit "u"] = Some d ∧
          FailoverConsole._print_list DashboardExamples.get_status
            true None d = Some d' ∧
          ∃ evs, FailoverConsole.screen d' = FailoverConsole.screen d ++ evs ∧
                 FailoverConsole.EGrid FailoverConsole._GEN_UUID_COLS
                   (DashboardExamples.rows 10) ∈ evs.
Proof.
  eexists _, _. split; [vm_compute; reflexivity|].
  split; [vm_compute; reflexivity|].
  match goal with
  | |- ∃ evs, FailoverConsole.screen ?d' = FailoverConsole.screen ?d ++ _ ∧ _ =>
      destruct (print_list_shows_window DashboardExamples.get_status true
                  None d d' FailoverConsole._GEN_UUID_COLS
                  (DashboardExamples.rows 50) eq_refl eq_refl)
        as (evs & H1 & H2)
  end.
  exists evs. split; [exact H1|]. apply H2.
Defined.

Lemma list_fits_above_footer_witness :
  let d := FailoverConsole.set_rows_printed 11
             (FailoverConsole.set_end_list 50
                (FailoverConsole.set_list_data
                   (Some ([lit "host"; lit "port"],
                          DashboardExamples.rows 50))
                   DashboardExamples.console)) in
  ∃ d', FailoverConsole._print_list DashboardExamples.get_status false None d
        = Some d' ∧
        FailoverConsole.rows_printed d' <= FailoverConsole.max_rows d' - 2.
Proof.
  intros d. eexists. split; [vm_compute; reflexivity|].
  eapply (list_fits_above_footer DashboardExamples.get_status None d _
            [lit "host"; lit "port"] (DashboardExamples.rows 50)).
  - reflexivity.
  - vm_compute. discriminate.
  - vm_compute. discriminate.
  - vm_compute. reflexivity.
Defined.

Lemma list_overruns_short_screen_witness :
  let d := FailoverConsole.set_rows_printed 11
             (FailoverConsole.set_max_rows 15
                (FailoverConsole.set_end_list 10
                   (FailoverConsole.set_list_data
                      (Some ([lit "host"; lit "port"],
                             DashboardExamples.rows 10))
                      DashboardExamples.console))) in
  ∃ d', FailoverConsole._print_list DashboardExamples.get_status false None d
        = Some d' ∧
        FailoverConsole.end_list d' = -3 ∧
        FailoverConsole.scroll_size d' = 7 ∧
        FailoverConsole.rows_printed d' = 23.
Proof.
  intros d.
  destruct (list_overruns_short_screen DashboardExamples.get_status None d
              [lit "host"; lit "port"] (DashboardExamples.rows 10) 3)
    as (d' & H1 & _ & H2 & H3 & H4).
  - reflexivity.
  - reflexivity.
  - reflexivity.
  - reflexivity.
  - vm_compute. split; reflexivity.
  - exists d'. split; [exact H1|]. split; [exact H2|]. split; [exact H3|].
    rewrite H4.
    assert (FailoverConsole.max_rows d' = 15) as ->.
    { rewrite (print_list_rows_printed DashboardExamples.get_status None d
                 [lit "host"; lit "port"] (DashboardExamples.rows 10)
                 eq_refl) in H1.
      injection H1 as <-. vm_compute. reflexivity. }
    reflexivity.
Defined.

(** * The dashboard: a page down and a page up *)

Section PageDownUp.

Import FailoverConsole.

Context {M : Type}.
Variable get_status : M → option status.

(** A console on a connected master whose header has no notice, with a
    list to show. *)
Local Abbreviation ready d m st ld :=
  (old_mode d = None ∧ master d = Some m ∧ get_status m = Some st ∧
   list_data d = Some ld).

Lemma len_slice_inside {A} (l : list A) (lo hi : Z) :
  0 <= lo <= hi → hi <= len l → len (slice l lo hi) = hi - lo.
Proof.
  intros H1 H2. rewrite slice_in_range by lia.
  unfold len in *. rewrite length_take, length_drop. lia.
Qed.

Lemma print_footer_master (b : bool) (d : t M) :
  old_mode (_print_footer b d) = old_mode d ∧
  master (_print_footer b d) = master d.
Proof.
  unfold _print_footer. set (n := Z.to_nat _).
  assert (old_mode (Nat.iter n (emit (EPrint [])) d) = old_mode d ∧
          master (Nat.iter n (emit (EPrint [])) d) = master d) as H
    by (induction n as [|n IH]; [done | exact IH]).
  exact H.
Qed.

(** Under the header and the master information, which take 11 rows, and
    the line of the comment, [max_rows - 18] rows are left for the list. *)
Lemma print_list_page (d : t M) (m : M) (st : status)
    (ld : list str * list row) :
  ready d m st ld →
  0 <= start_list d <= end_list d → end_list d <= len ld.2 →
  0 < max_rows d - 18 → start_list d < end_list d →
  ∃ d', _print_list get_status true None d = Some d' ∧
        ready d' m st ld ∧ max_rows d' = max_rows d ∧
        start_list d' = start_list d ∧
        end_list d' = Z.min (end_list d) (start_list d + (max_rows d - 18)) ∧
        scroll_size d' = end_list d' - start_list d.
Proof.
  intros (Hold & Hm & Hst & Hld) Hw Hn Hrows Hne.
  unfold _print_list. rewrite Hld.
  assert (_print_header (clear d)
          = set_rows_printed 4 (emit (EHeader false) (clear d))) as ->.
  { unfold _print_header. change (old_mode (clear d)) with (old_mode d).
    rewrite Hold. reflexivity. }
  set (d0 := set_rows_printed 4 _).
  unfold _print_master_status. change (master d0) with (master d).
  rewrite Hm, Hst. cbn [mbind option_bind].
  set (d1 := set_rows_printed
               (rows_printed (emit (EMasterStatus st) _) + 7)
               (emit (EMasterStatus st) _)).
  set (d2 := set_rows_printed (rows_printed d1 + 1) (emit _ d1)).
  assert (rows_printed d2 = 12) as Hr2 by reflexivity.
  assert (max_rows d2 = max_rows d) as Hm2 by reflexivity.
  assert (start_list d2 = start_list d) as Hs2 by reflexivity.
  assert (end_list d2 = end_list d) as He2 by reflexivity.
  assert (len (slice ld.2 (start_list d) (end_list d))
          = end_list d - start_list d) as Hlen
    by (apply len_slice_inside; lia).
  set (R := max_rows d - 18) in *.
  assert (∃ d3, fit_window ld.2 d2
                = (slice ld.2 (start_list d) (Z.min (end_list d) (start_list d + R)), d3) ∧
                start_list d3 = start_list d ∧
                end_list d3 = Z.min (end_list d) (start_list d + R) ∧
                old_mode d3 = None ∧ master d3 = Some m ∧
                list_data d3 = Some ld ∧ max_rows d3 = max_rows d)
    as (d3 & Hfit & Hs3 & He3 & Ho3 & Hm3 & Hl3 & Hx3).
  { unfold fit_window. cbv zeta. rewrite Hr2, Hm2, Hs2, He2, Hlen.
    replace (max_rows d - 12 - 4 - 2) with R by (subst R; lia).
    destruct (Z.ltb_spec R (end_list d - start_list d)).
    - replace (Z.min (end_list d) (start_list d + R))
        with (start_list d + R) by lia.
      eexists. split; [reflexivity|]. repeat split; assumption.
    - replace (Z.min (end_list d) (start_list d + R))
        with (end_list d) by lia.
      destruct (_ && _); (eexists; split; [reflexivity|]);
        repeat split; assumption. }
  rewrite Hfit. cbn [fst snd].
  set (shown := slice _ _ _).
  assert (len shown
          = Z.min (end_list d) (start_list d + R) - start_list d) as Hshown
    by (apply len_slice_inside; lia).
  destruct (print_rows_screen ld.1 shown d3) as (_ & Hss & _ & Hmx).
  destruct (print_rows_window ld.1 shown d3) as (Hs4 & He4 & Hl4).
  assert (old_mode (print_rows ld.1 shown d3) = old_mode d3 ∧
          master (print_rows ld.1 shown d3) = master d3) as (Ho4 & Hm4).
  { unfold print_rows. destruct (0 <? len shown); split; reflexivity. }
  set (d4 := print_rows ld.1 shown d3) in *.
  destruct (Z.ltb_spec 0 (len shown)); [|lia].
  destruct (print_footer_window (scroll_on d4) d4) as (Hs5 & He5 & Hss5 & Hl5).
  destruct (print_footer_extends (scroll_on d4) d4) as (_ & _ & Hmx5).
  eexists. split; [reflexivity|].
  rewrite Hs5, He5, Hss5, Hl5, Hmx5, Hs4, He4, Hl4, Hss, Hmx, Hs3, He3, Hl3,
    Hx3, Hshown.
  destruct (print_footer_master (scroll_on d4) d4) as (-> & ->).
  rewrite Ho4, Hm4. repeat split; try assumption; lia.
Qed.

Lemma scroll_window_down (d : t M) (m : M) (st : status)
    (ld : list str * list row) :
  ready d m st ld → end_list d < len ld.2 →
  ∃ d', scroll_window ARROW_DN d = Some (Some d') ∧
        ready d' m st ld ∧ max_rows d' = max_rows d ∧
        scroll_size d' = scroll_size d ∧ start_list d' = end_list d ∧
        end_list d' = Z.min (end_list d + scroll_size d) (len ld.2).
Proof.
  intros (Hold & Hm & Hst & Hld) Hlt. unfold scroll_window. rewrite Hld.
  cbn [mbind option_bind].
  destruct (Z.ltb_spec (end_list d) (len ld.2)); [|lia]. cbv zeta.
  set (d1 := set_end_list _ (set_start_list _ d)).
  assert (end_list d1 = end_list d + scroll_size d) as He1 by reflexivity.
  rewrite He1.
  destruct (Z.ltb_spec (len ld.2) (end_list d + scroll_size d));
    (eexists; split; [reflexivity|]); repeat split; try assumption;
    cbn [end_list set_end_list]; try rewrite He1; lia.
Qed.

Lemma scroll_window_up (d : t M) (m : M) (st : status)
    (ld : list str * list row) :
  ready d m st ld → 0 < start_list d →
  ∃ d', scroll_window ARROW_UP d = Some (Some d') ∧
        ready d' m st ld ∧ max_rows d' = max_rows d ∧
        scroll_size d' = scroll_size d ∧
        start_list d' = Z.max 0 (start_list d - scroll_size d) ∧
        end_list d' = end_list d.
Proof.
  intros (Hold & Hm & Hst & Hld) Hlt. unfold scroll_window.
  destruct (Z.ltb_spec 0 (start_list d)); [|lia]. cbv zeta.
  set (d1 := set_start_list _ d).
  assert (start_list d1 = start_list d - scroll_size d) as Hs1 by reflexivity.
  rewrite Hs1.
  destruct (Z.ltb_spec (start_list d - scroll_size d) 0);
    (eexists; split; [reflexivity|]); repeat split; try assumption;
    cbn [start_list set_stop_list set_start_list]; try rewrite Hs1; lia.
Qed.

(** X27: on a console whose header has no notice and whose master answers,
    with a list that fills the screen ([max_rows - 18] rows) and has a full
    page more below, the arrow down shows the next page and the arrow up
    after it shows the first page again: the window and the scroll step
    are as they were. *)
Theorem page_down_then_up (d : t M) (m : M) (st : status) (cols : list str)
    (rows : list row) :
  old_mode d = None → master d = Some m → get_status m = Some st →
  list_data d = Some (cols, rows) →
  let r := max_rows d - 18 in
  0 < r → scroll_size d = r → 0 <= start_list d →
  end_list d = start_list d + r → end_list d + r <= len rows →
  ∃ d1 d2,
    _scroll get_status ARROW_DN_KEY d = Some d1 ∧
    window d1 = (end_list d, end_list d + r, r) ∧
    _scroll get_status ARROW_UP_KEY d1 = Some d2 ∧
    window d2 = window d.
Proof.
  intros Hold Hm Hst Hld r Hr Hss Hs He Hn.
  assert (ready d m st (cols, rows)) as Hready by done.
  destruct (scroll_window_down d m st (cols, rows) Hready)
    as (da & Hda & Ra & Hxa & Hssa & Hsa & Hea); [cbn; lia|].
  cbn [snd] in Hea.
  destruct (print_list_page da m st (cols, rows) Ra)
    as (d1 & Hd1 & R1 & Hx1 & Hs1 & He1 & Hss1); [cbn [snd]; lia ..|].
  destruct (scroll_window_up d1 m st (cols, rows) R1)
    as (db & Hdb & Rb & Hxb & Hssb & Hsb & Heb); [lia|].
  destruct (print_list_page db m st (cols, rows) Rb)
    as (d2 & Hd2 & R2 & Hx2 & Hs2 & He2 & Hss2); [cbn [snd]; lia ..|].
  exists d1, d2. unfold _scroll.
  change (_COMMAND_KEYS ARROW_DN_KEY) with (Some ARROW_DN).
  change (_COMMAND_KEYS ARROW_UP_KEY) with (Some ARROW_UP).
  cbn [mbind option_bind]. rewrite Hda, Hdb. cbn [mbind option_bind].
  split; [exact Hd1|]. split; [|split; [exact Hd2|]].
  - unfold window. f_equal; [f_equal|]; lia.
  - unfold window. f_equal; [f_equal|]; lia.
Qed.

End PageDownUp.

Lemma page_down_then_up_witness :
  ∃ d d1 d2,
    DashboardExamples.press 50 [lit "u"] = Some d ∧
    FailoverConsole._scroll DashboardExamples.get_status
      FailoverConsole.ARROW_DN_KEY d = Some d1 ∧
    FailoverConsole.window d1 = (10, 20, 10) ∧
    FailoverConsole._scroll DashboardExamples.get_status
      FailoverConsole.ARROW_UP_KEY d1 = Some d2 ∧
    FailoverConsole.window d2 = FailoverConsole.window d.
Proof.
  eexists. 
  match goal with
  | |- ∃ d1 d2, ?l = Some ?d ∧ _ =>
      let v := eval vm_compute in l in
      match v with
      | Some ?x => unify d x
      end
  end.
  match goal with
  | |- ∃ d1 d2, _ = Some ?d ∧ _ =>
      destruct (page_down_then_up DashboardExamples.get_status d
                  (DashboardExamples.mk_master true true)
                  (FailoverConsole.mk_status (lit "binlog.000001")
                     (lit "154") [] [] (lit "uuid:1-5"))
                  FailoverConsole._GEN_UUID_COLS (DashboardExamples.rows 50))
        as (d1 & d2 & H1 & H2 & H3 & H4);
        [reflexivity | reflexivity | reflexivity | reflexivity
        | vm_compute; reflexivity | reflexivity
        | vm_compute; discriminate | reflexivity
        | vm_compute; discriminate |]
  end.
  exists d1, d2. split; [vm_compute; reflexivity|].
  split; [exact H1|]. split; [exact H2|]. split; [exact H3 | exact H4].
Defined.

(** * The dashboard: what the scroll keys do to the window *)

Section ScrollTheorem.

Import FailoverConsole.

Context {M : Type}.
Variable get_status : M → option status.

(** The header holds the notice of a changed mode. *)
Local Abbreviation notice d :=
  (match old_mode d with Some m => negb (eqs m (mode d)) | None => false end).

(** The rows that the header takes, and what it leaves of the screen. *)
Lemma print_header_rows (d : t M) :
  let d' := _print_header (clear d) in
  rows_printed d' = (if notice d then 6 else 4) ∧
  max_rows d' = (if notice d then max_rows d - 3 else max_rows d) ∧
  old_mode d' = old_mode d ∧ mode d' = mode d ∧ master d' = master d.
Proof.
  unfold _print_header, clear. cbv zeta.
  change (old_mode (set_rows_printed 0 (emit EClear d))) with (old_mode d).
  change (mode (set_rows_printed 0 (emit EClear d))) with (mode d).
  destruct (notice d); repeat split.
Qed.

(** The master information takes 7 rows when there is a master. *)
Lemma print_master_status_rows (d d' : t M) :
  _print_master_status get_status d = Some d' →
  rows_printed d'
  = rows_printed d + (match master d with Some _ => 7 | None => 0 end) ∧
  max_rows d' = max_rows d ∧
  old_mode d' = old_mode d ∧ mode d' = mode d ∧ master d' = master d.
Proof.
  unfold _print_master_status. destruct (master d) as [m|] eqn:Hm.
  - destruct (get_status m) as [st|]; [|done]. simpl. intros [= <-].
    repeat split. exact Hm.
  - intros [= <-]. rewrite Hm. repeat split. lia.
Qed.

(** What printing the list with a refresh leaves of the window: the start
    is kept; the end becomes the start plus the rows that fit when the
    window holds more rows than fit, and is kept when it does not; the
    scroll step becomes the number of the rows shown, if any. *)
Lemma print_list_end (d d' : t M) (ld : list str * list row) :
  list_data d = Some ld →
  _print_list get_status true None d = Some d' →
  let e := if rows_for_list d <? len (slice ld.2 (start_list d) (end_list d))
           then start_list d + rows_for_list d else end_list d in
  let shown := slice ld.2 (start_list d) e in
  start_list d' = start_list d ∧ end_list d' = e ∧
  scroll_size d' = (if 0 <? len shown then len shown else scroll_size d) ∧
  list_data d' = list_data d ∧ old_mode d' = old_mode d ∧
  mode d' = mode d ∧ master d' = master d ∧
  max_rows d' = (if notice d then max_rows d - 3 else max_rows d).
Proof.
  intros Hld. unfold _print_list. rewrite Hld.
  destruct (print_header_rows d) as (Hr0 & Hx0 & Ho0 & Hmo0 & Hm0).
  destruct (print_header_window d) as (Hs0 & He0 & Hss0 & Hl0).
  set (d0 := _print_header (clear d)) in *.
  destruct (_print_master_status get_status d0) as [d1|] eqn:Hd1; [|done].
  destruct (print_master_status_rows _ _ Hd1) as (Hr1 & Hx1 & Ho1 & Hmo1 & Hm1).
  destruct (print_master_status_window _ _ _ Hd1) as (Hs1 & He1 & Hss1 & Hl1).
  cbn [mbind option_bind].
  set (d2 := set_rows_printed (rows_printed d1 + 1) (emit _ d1)).
  assert (max_rows d2 - rows_printed d2 - 4 - 2 = rows_for_list d) as Hfit.
  { change (max_rows d2) with (max_rows d1).
    change (rows_printed d2) with (rows_printed d1 + 1).
    rewrite Hx1, Hr1, Hx0, Hr0, Hm0. unfold rows_for_list.
    destruct (notice d); destruct (master d); lia. }
  assert (start_list d2 = start_list d) as Hs2
    by (change (start_list d2) with (start_list d1); congruence).
  assert (end_list d2 = end_list d) as He2
    by (change (end_list d2) with (end_list d1); congruence).
  intros Heq.
  set (e := if rows_for_list d <? _ then _ else _).
  set (shown := slice ld.2 (start_list d) e). revert Heq.
  assert (∃ d3, fit_window ld.2 d2 = (shown, d3) ∧
                start_list d3 = start_list d ∧ end_list d3 = e ∧
                scroll_size d3 = scroll_size d ∧
                list_data d3 = list_data d ∧ old_mode d3 = old_mode d ∧
                mode d3 = mode d ∧ master d3 = master d ∧
                max_rows d3 = max_rows d1)
    as (d3 & Hfw & Hs3 & He3 & Hss3 & Hl3 & Ho3 & Hmo3 & Hm3 & Hx3).
  { unfold fit_window. cbv zeta. rewrite Hfit, Hs2, He2. subst shown e.
    destruct (rows_for_list d <? _).
    - eexists. split; [reflexivity|].
      cbn [start_list end_list scroll_size list_data old_mode mode master
           max_rows set_scroll_on set_end_list].
      change (scroll_size d2) with (scroll_size d1).
      change (list_data d2) with (list_data d1).
      change (old_mode d2) with (old_mode d1).
      change (mode d2) with (mode d1).
      change (master d2) with (master d1).
      change (max_rows d2) with (max_rows d1).
      repeat split; congruence.
    - assert (∀ dd : t M,
                dd = d2 ∨ dd = set_scroll_on false d2 →
                start_list dd = start_list d ∧ end_list dd = end_list d ∧
                scroll_size dd = scroll_size d ∧
                list_data dd = list_data d ∧ old_mode dd = old_mode d ∧
                mode dd = mode d ∧ master dd = master d ∧
                max_rows dd = max_rows d1) as Hdd.
      { intros dd [-> | ->];
          (split; [exact Hs2|]); (split; [exact He2|]);
          [change (scroll_size d2) with (scroll_size d1);
           change (list_data d2) with (list_data d1);
           change (old_mode d2) with (old_mode d1);
           change (mode d2) with (mode d1);
           change (master d2) with (master d1);
           change (max_rows d2) with (max_rows d1)
          |change (scroll_size (set_scroll_on false d2)) with (scroll_size d1);
           change (list_data (set_scroll_on false d2)) with (list_data d1);
           change (old_mode (set_scroll_on false d2)) with (old_mode d1);
           change (mode (set_scroll_on false d2)) with (mode d1);
           change (master (set_scroll_on false d2)) with (master d1);
           change (max_rows (set_scroll_on false d2)) with (max_rows d1)];
          repeat split; congruence. }
      destruct (_ && _); (eexists; split; [reflexivity|]); apply Hdd; auto. }
  cbv zeta. rewrite Hfw. cbn [fst snd].
  destruct (print_rows_window ld.1 shown d3) as (Hs4 & He4 & Hl4).
  destruct (print_rows_screen ld.1 shown d3) as (_ & Hss4 & _ & Hx4).
  assert (old_mode (print_rows ld.1 shown d3) = old_mode d3 ∧
          mode (print_rows ld.1 shown d3) = mode d3 ∧
          master (print_rows ld.1 shown d3) = master d3) as (Ho4 & Hmo4 & Hm4).
  { unfold print_rows. destruct (0 <? len shown); repeat split. }
  set (d4 := print_rows ld.1 shown d3) in *.
  destruct (print_footer_window (scroll_on d4) d4) as (Hs5 & He5 & Hss5 & Hl5).
  destruct (print_footer_extends (scroll_on d4) d4) as (_ & _ & Hx5).
  destruct (print_footer_master (scroll_on d4) d4) as (Ho5 & Hm5).
  assert (mode (_print_footer (scroll_on d4) d4) = mode d4) as Hmo5.
  { unfold _print_footer. set (n := Z.to_nat _).
    assert (mode (Nat.iter n (emit (EPrint [])) d4) = mode d4) as H
      by (induction n as [|n IH]; [done | exact IH]).
    exact H. }
  intros [= <-].
  rewrite Hs5, He5, Hss5, Hl5, Hx5, Ho5, Hm5, Hmo5.
  rewrite Hs4, He4, Hss4, Hl4, Hx4, Ho4, Hm4, Hmo4.
  rewrite Hs3, He3, Hss3, Hl3, Hx3, Ho3, Hm3, Hmo3, Hx1, Hx0.
  repeat split. exact Hld.
Qed.

(** A page down on a connected master without the notice, when the window
    is a full page and a full page more lies below it. *)
Lemma scroll_down_page (d : t M) (m : M) (st : status) (cols : list str)
    (rows : list row) (r : Z) :
  old_mode d = None → master d = Some m → get_status m = Some st →
  list_data d = Some (cols, rows) →
  rows_for_list d = r → 0 < r → scroll_size d = r →
  0 <= start_list d <= end_list d → end_list d + r <= len rows →
  ∃ d', _scroll get_status ARROW_DN_KEY d = Some d' ∧
        window d' = (end_list d, end_list d + r, r) ∧
        old_mode d' = None ∧ master d' = Some m ∧
        list_data d' = Some (cols, rows) ∧ rows_for_list d' = r.
Proof.
  intros Hold Hm Hst Hld Hfit Hr Hss Hw Hn.
  assert (max_rows d - 18 = r) as Hx.
  { revert Hfit. unfold rows_for_list. rewrite Hold, Hm. lia. }
  destruct (scroll_window_down get_status d m st (cols, rows))
    as (da & Hda & Ra & Hxa & Hssa & Hsa & Hea); [done | cbn; lia|].
  cbn [snd] in Hea.
  destruct (print_list_page get_status da m st (cols, rows) Ra)
    as (d1 & Hd1 & (Ho1 & Hm1 & _ & Hl1) & Hx1 & Hs1 & He1 & Hss1);
    [cbn [snd]; lia ..|].
  exists d1. unfold _scroll.
  change (_COMMAND_KEYS ARROW_DN_KEY) with (Some ARROW_DN).
  cbn [mbind option_bind]. rewrite Hda. cbn [mbind option_bind].
  split; [exact Hd1|]. split; [|repeat split; try assumption].
  - unfold window. f_equal; [f_equal|]; lia.
  - unfold rows_for_list. rewrite Ho1, Hm1. lia.
Qed.

(** C2, as the code has it.  Over [n] rows with scroll step [s]:
    arrow-down with [end < n] sets the start to the old end and the end to
    [min (end + s) n], and changes nothing when [end >= n]; arrow-up with
    [start > 0] sets the start to [max (start - s) 0] and leaves the end
    where it is, and changes nothing when [start <= 0].  After a move the
    list is printed again, which keeps the start, and lowers the end to the
    start plus the rows that fit on the screen when the window holds more
    rows than fit, and keeps the end when it does not.  With 50 rows on a
    screen that 10 rows fit on, from the window (0, 10) with step 10, one
    down gives (10, 20), the downs after it (20, 30), (30, 40) and
    (40, 50), and a further down changes nothing. *)
Theorem scroll_moves_window (d : t M) (cols : list str) (rows : list row) :
  list_data d = Some (cols, rows) →
  (end_list d < len rows →
   ∃ d', scroll_window ARROW_DN d = Some (Some d') ∧
         start_list d' = end_list d ∧
         end_list d' = Z.min (end_list d + scroll_size d) (len rows) ∧
         scroll_size d' = scroll_size d ∧ list_data d' = list_data d) ∧
  (len rows <= end_list d → _scroll get_status ARROW_DN_KEY d = Some d) ∧
  (0 < start_list d →
   ∃ d', scroll_window ARROW_UP d = Some (Some d') ∧
         start_list d' = Z.max 0 (start_list d - scroll_size d) ∧
         end_list d' = end_list d ∧
         scroll_size d' = scroll_size d ∧ list_data d' = list_data d) ∧
  (start_list d <= 0 → _scroll get_status ARROW_UP_KEY d = Some d) ∧
  (∀ key d',
     _scroll get_status key d = Some d' → d' ≠ d →
     ∃ k d1, _COMMAND_KEYS key = Some k ∧
             scroll_window k d = Some (Some d1) ∧
             start_list d' = start_list d1 ∧
             end_list d'
             = (if rows_for_list d1
                   <? len (slice rows (start_list d1) (end_list d1))
                then start_list d1 + rows_for_list d1
                else end_list d1) ∧
             (0 <= start_list d1 <= end_list d1 → end_list d1 <= len rows →
              end_list d'
              = Z.min (end_list d1) (start_list d1 + rows_for_list d1))) ∧
  (len rows = 50 → window d = (0, 10, 10) → rows_for_list d = 10 →
   old_mode d = None →
   ∀ m st, master d = Some m → get_status m = Some st →
   ∃ d1 d2 d3 d4,
     _scroll get_status ARROW_DN_KEY d = Some d1 ∧ window d1 = (10, 20, 10) ∧
     _scroll get_status ARROW_DN_KEY d1 = Some d2 ∧ window d2 = (20, 30, 10) ∧
     _scroll get_status ARROW_DN_KEY d2 = Some d3 ∧ window d3 = (30, 40, 10) ∧
     _scroll get_status ARROW_DN_KEY d3 = Some d4 ∧ window d4 = (40, 50, 10) ∧
     _scroll get_status ARROW_DN_KEY d4 = Some d4).
Proof.
  intros Hld.
  assert (len rows <= end_list d → _scroll get_status ARROW_DN_KEY d = Some d)
    as Hstop.
  { intros Hge. unfold _scroll. simpl. unfold scroll_window. rewrite Hld.
    simpl. by destruct (Z.ltb_spec (end_list d) (len rows)); [lia|]. }
  split; [|split; [exact Hstop|split; [|split; [|split]]]].
  - intros Hlt. unfold scroll_window. rewrite Hld. simpl.
    destruct (Z.ltb_spec (end_list d) (len rows)); [|lia].
    eexists. split; [reflexivity|]. simpl.
    destruct (Z.ltb_spec (len rows) (end_list d + scroll_size d));
      simpl; repeat split; try done; lia.
  - intros Hpos. unfold scroll_window.
    destruct (Z.ltb_spec 0 (start_list d)); [|lia].
    eexists. split; [reflexivity|]. simpl.
    destruct (Z.ltb_spec (start_list d - scroll_size d) 0);
      simpl; repeat split; try done; lia.
  - intros Hle. unfold _scroll. simpl. unfold scroll_window.
    by destruct (Z.ltb_spec 0 (start_list d)); [lia|].
  - intros key d' Hs Hne. unfold _scroll in Hs.
    destruct (_COMMAND_KEYS key) as [k|]; [|done]. simpl in Hs.
    destruct (scroll_window k d) as [[d1|]|] eqn:Hw; simpl in Hs; [| |done].
    2:{ by injection Hs as <-. }
    exists k, d1. split; [done|]. split; [done|].
    assert (list_data d1 = Some (cols, rows)) as Hld1.
    { revert Hw. unfold scroll_window. destruct k.
      - destruct (0 <? start_list d); [|done]. cbv zeta.
        destruct (_ <? 0); intros [= <-]; exact Hld.
      - rewrite Hld. cbn [mbind option_bind snd].
        destruct (end_list d <? len rows); [|done]. cbv zeta.
        destruct (len rows <? _); intros [= <-]; exact Hld. }
    destruct (print_list_end d1 d' (cols, rows) Hld1 Hs) as (Hs' & He' & _).
    cbn [snd] in He'. split; [exact Hs'|]. split; [exact He'|].
    intros Hin Hn. rewrite He'.
    rewrite len_slice_inside by lia.
    destruct (Z.ltb_spec (rows_for_list d1) (end_list d1 - start_list d1));
      lia.
  - intros Hn Hwin Hfit Hold m st Hm Hst.
    unfold window in Hwin. injection Hwin as Hs He Hss.
    destruct (scroll_down_page d m st cols rows 10)
      as (d1 & H1 & W1 & O1 & M1 & L1 & F1); try done; try lia.
    pose proof W1 as W1'. unfold window in W1. injection W1 as Hs1 He1 Hss1.
    destruct (scroll_down_page d1 m st cols rows 10)
      as (d2 & H2 & W2 & O2 & M2 & L2 & F2); try done; try lia.
    pose proof W2 as W2'. unfold window in W2. injection W2 as Hs2 He2 Hss2.
    destruct (scroll_down_page d2 m st cols rows 10)
      as (d3 & H3 & W3 & O3 & M3 & L3 & F3); try done; try lia.
    pose proof W3 as W3'. unfold window in W3. injection W3 as Hs3 He3 Hss3.
    destruct (scroll_down_page d3 m st cols rows 10)
      as (d4 & H4 & W4 & O4 & M4 & L4 & F4); try done; try lia.
    pose proof W4 as W4'. unfold window in W4. injection W4 as Hs4 He4 Hss4.
    exists d1, d2, d3, d4.
    rewrite He in W1'. rewrite He1, He in W2'.
    rewrite He2, He1, He in W3'. rewrite He3, He2, He1, He in W4'.
    repeat split; try assumption.
    unfold _scroll. simpl. unfold scroll_window. rewrite L4. simpl.
    by destruct (Z.ltb_spec (end_list d4) (len rows)); [lia|].
Qed.

End ScrollTheorem.

Lemma scroll_moves_window_witness :
  ∃ d d1 d2 d3 d4,
    DashboardExamples.press 50 [lit "u"] = Some d ∧
    FailoverConsole.window d = (0, 10, 10) ∧
    FailoverConsole._scroll DashboardExamples.get_status
      FailoverConsole.ARROW_DN_KEY d = Some d1 ∧
    FailoverConsole.window d1 = (10, 20, 10) ∧
    FailoverConsole._scroll DashboardExamples.get_status
      FailoverConsole.ARROW_DN_KEY d1 = Some d2 ∧
    FailoverConsole.window d2 = (20, 30, 10) ∧
    FailoverConsole._scroll DashboardExamples.get_status
      FailoverConsole.ARROW_DN_KEY d2 = Some d3 ∧
    FailoverConsole.window d3 = (30, 40, 10) ∧
    FailoverConsole._scroll DashboardExamples.get_status
      FailoverConsole.ARROW_DN_KEY d3 = Some d4 ∧
    FailoverConsole.window d4 = (40, 50, 10) ∧
    FailoverConsole._scroll DashboardExamples.get_status
      FailoverConsole.ARROW_DN_KEY d4 = Some d4.
Proof.
  eexists.
  match goal with
  | |- ∃ d1 d2 d3 d4, ?l = Some ?d ∧ _ =>
      let v := eval vm_compute in l in
      match v with
      | Some ?x => unify d x
      end
  end.
  match goal with
  | |- ∃ d1 d2 d3 d4, _ = Some ?d ∧ _ =>
      destruct (scroll_moves_window DashboardExamples.get_status d
                  FailoverConsole._GEN_UUID_COLS (DashboardExamples.rows 50))
        as (_ & _ & _ & _ & _ & H); [reflexivity|];
      destruct (H eq_refl eq_refl eq_refl eq_refl
                  (DashboardExamples.mk_master true true)
                  (FailoverConsole.mk_status (lit "binlog.000001")
                     (lit "154") [] [] (lit "uuid:1-5")) eq_refl eq_refl)
        as (d1 & d2 & d3 & d4 & H1 & H2 & H3 & H4 & H5 & H6 & H7 & H8 & H9)
  end.
  exists d1, d2, d3, d4. split; [vm_compute; reflexivity|].
  split; [reflexivity|].
  repeat (split; [assumption|]). assumption.
Defined.

(** * The dashboard: the texts it reads *)

Section TextsRead.

Import FailoverConsole.

Context {M : Type}.
Variable get_status : M → option status.

(** A part of a GTID set followed by its comma loses the comma. *)
Lemma strip_trailing (c : ascii) (s : str) :
  c ∉ s → strip c (s ++ [c]) = s.
Proof.
  intros Hs. unfold strip, strip_by.
  destruct s as [|x s'].
  - cbn. rewrite Ascii.eqb_refl. reflexivity.
  - set (s := x :: s') in *.
    assert (lstrip_by (Ascii.eqb c) (s ++ [c]) = s ++ [c]) as ->.
    { subst s. cbn. apply not_elem_of_cons in Hs as [Hx _].
      destruct (Ascii.eqb_spec c x); [done | reflexivity]. }
    rewrite rev_app_distr. cbn [rev app lstrip_by].
    rewrite Ascii.eqb_refl.
    rewrite lstrip_by_id; [apply rev_involutive|].
    intros y Hy. apply list_elem_of_In, in_rev, list_elem_of_In in Hy.
    destruct (Ascii.eqb_spec c y) as [->|]; [done | reflexivity].
Qed.

(** The parts of a GTID set, joined by a comma and a line break, are the
    lines of the set, each but the last with its comma. *)
Lemma gtid_lines (parts : list str) :
  Forall (λ p, p ≠ [] ∧ (NL ∉ p) ∧ (","%char ∉ p)) parts →
  map (λ gtid, [strip ","%char gtid])
    (filter (λ gtid, truthy gtid = true)
       (split NL (join [","%char; NL] parts)))
  = map (λ p, [p]) parts.
Proof.
  induction parts as [|p parts IH]; intros Hparts; [reflexivity|].
  apply Forall_cons in Hparts as [(Hne & Hnl & Hcomma) Hparts].
  destruct parts as [|q parts].
  - cbn [join]. rewrite split_absent by exact Hnl.
    rewrite filter_cons_True by (destruct p; done).
    cbn. rewrite strip_absent by exact Hcomma. reflexivity.
  - change (join [","%char; NL] (p :: q :: parts))
      with (p ++ [","%char; NL] ++ join [","%char; NL] (q :: parts)).
    replace (p ++ [","%char; NL] ++ join [","%char; NL] (q :: parts))
      with ((p ++ [","%char]) ++ NL :: join [","%char; NL] (q :: parts))
      by (rewrite <- app_assoc; reflexivity).
    rewrite split_app.
    2: { apply not_elem_of_app. split; [exact Hnl|].
         apply not_elem_of_cons. split; [discriminate | apply not_elem_of_nil]. }
    rewrite filter_cons_True by (destruct p; done).
    cbn [map]. rewrite strip_trailing by exact Hcomma.
    f_equal. apply IH, Hparts.
Qed.

(** X28: the executed set of the master, whose parts are joined by a comma
    and a line break, is kept as one row for each part, without the
    commas; an empty set leaves no row.  The master information takes 7
    rows of the screen. *)
Theorem master_status_keeps_gtid_parts (d : t M) (m : M) (st : status)
    (parts : list str) :
  master d = Some m → get_status m = Some st →
  gtid_executed st = join [","%char; NL] parts →
  Forall (λ p, p ≠ [] ∧ (NL ∉ p) ∧ (","%char ∉ p)) parts →
  ∃ d', _print_master_status get_status d = Some d' ∧
        master_gtids d' = map (λ p, [p]) parts ∧
        rows_printed d' = rows_printed d + 7 ∧
        screen d' = screen d ++ [EMasterStatus st].
Proof.
  intros Hm Hst Hg Hparts. unfold _print_master_status.
  rewrite Hm, Hst. cbn [mbind option_bind].
  eexists. split; [reflexivity|].
  cbn [master_gtids set_rows_printed emit set_screen set_master_gtids
       rows_printed screen].
  rewrite Hg, gtid_lines by exact Hparts. repeat split.
Qed.

End TextsRead.

Section LogEntries.

Import FailoverConsole.

Context {M : Type}.

(** X29: with logging on and a log file, each line of the file becomes a
    row of two texts: its first 22 characters, the date, and what follows
    the character after them, without the line break at its end; the
    window is set to the whole list. *)
Theorem log_lines_become_rows (d : t M) (file : str) (sep : ascii)
    (entries : list (str * str)) :
  logging d = true →
  Forall (λ e, len e.1 = 22 ∧ (NL ∉ e.2)) entries →
  ∃ d', _format_log_entries (Some file)
          (Some (map (λ e, e.1 ++ sep :: e.2 ++ [NL]) entries)) d
        = Some (([lit "Date"; lit "Entry"], map (λ e, [e.1; e.2]) entries),
                d') ∧
        start_list d' = 0 ∧ end_list d' = len entries ∧
        comment d' = _LOG_LIST ∧ report_mode d' = "L"%char.
Proof.
  intros Hlog Hentries. unfold _format_log_entries. rewrite Hlog.
  cbn [andb mbind option_bind].
  assert (map (λ line, [slice line 0 _DATE_LEN;
                        strip NL (slice_from line (_DATE_LEN + 1))])
            (map (λ e : str * str, e.1 ++ sep :: e.2 ++ [NL]) entries)
          = map (λ e, [e.1; e.2]) entries) as Hrows.
  { rewrite map_map. apply map_ext_Forall.
    eapply Forall_impl; [exact Hentries|].
    intros [date entry] (Hd & He). cbn [fst snd] in *.
    unfold _DATE_LEN. rewrite <- Hd, slice_prefix. f_equal.
    replace (len date + 1) with (len (date ++ [sep]))
      by (rewrite len_app; reflexivity).
    replace (date ++ sep :: entry ++ [NL])
      with ((date ++ [sep]) ++ entry ++ [NL])
      by (rewrite <- app_assoc; reflexivity).
    rewrite slice_from_suffix, strip_trailing by exact He. reflexivity. }
  rewrite bool_decide_eq_true_2 by (by eexists).
  cbn [mbind option_bind fst snd]. rewrite Hrows.
  eexists. split; [reflexivity|].
  cbn [start_list end_list comment report_mode set_report_mode set_end_list
       set_start_list set_comment].
  repeat split. unfold len. rewrite !length_map. reflexivity.
Qed.

End LogEntries.

Lemma master_status_keeps_gtid_parts_witness :
  let st := FailoverConsole.mk_status (lit "binlog.000001") (lit "154") [] []
              (lit "u1:1-5," ++ [NL] ++ lit "u2:1-3") in
  let get_status := λ _ : unit, Some st in
  let d := FailoverConsole.init (80, 24) (Some tt) 15 3 (lit "auto")
             false false in
  ∃ d', FailoverConsole._print_master_status get_status d = Some d' ∧
        FailoverConsole.master_gtids d' = [[lit "u1:1-5"]; [lit "u2:1-3"]].
Proof.
  intros st get_status d.
  destruct (master_status_keeps_gtid_parts get_status d tt st
              [lit "u1:1-5"; lit "u2:1-3"]) as (d' & H1 & H2 & _).
  - reflexivity.
  - reflexivity.
  - reflexivity.
  - repeat constructor; try discriminate;
      apply (bool_decide_unpack _); vm_compute; exact I.
  - exists d'. split; [exact H1 | exact H2].
Defined.

Lemma log_lines_become_rows_witness :
  let d := FailoverConsole.init (M:=unit) (80, 24) None 15 3 (lit "auto")
             true false in
  ∃ d', FailoverConsole._format_log_entries (Some (lit "failover.log"))
          (Some [lit "2013-01-01 10:00:00 AM INFO started" ++ [NL]]) d
        = Some (([lit "Date"; lit "Entry"],
                 [[lit "2013-01-01 10:00:00 AM"; lit "INFO started"]]), d').
Proof.
  intros d.
  destruct (log_lines_become_rows d (lit "failover.log") " "%char
              [(lit "2013-01-01 10:00:00 AM", lit "INFO started")])
    as (d' & H1 & _).
  - reflexivity.
  - repeat constructor. apply (bool_decide_unpack _). vm_compute. exact I.
  - exists d'. exact H1.
Defined.

(** * The dashboard: the registration on the master *)

Section Registration.

Import FailoverConsole.

Context {M : Type}.
Variable host_port : M → str * str.
Variable toggle_binlog : bool → M → option M.
Variable exec_query : query → M → option (M * list row).
Variable commit : M → option M.

Let register := register_instance host_port toggle_binlog exec_query commit.

Lemma register_blocked (clear reg : bool) (d : t M) :
  mode d = lit "fail" → register clear reg d = Some (lit "fail", d).
Proof.
  intros Hmode. unfold register, register_instance. rewrite Hmode.
  destruct (master d); reflexivity.
Qed.

(** The master as the SELECT of [register_instance] finds it: after the
    binary log is turned off, the table dropped when [clear] is set, and
    the table created. *)
Local Abbreviation before_select clear m m0 m1 :=
  (toggle_binlog false m = Some m0 ∧
   (if clear then fst <$> exec_query DROP_FC_TABLE m0 else Some m0)
   ≫= exec_query CREATE_FC_TABLE = Some m1).

(** X30: [register_instance] returns the mode it leaves.  A console that
    registers on a master, its mode not being fail, is blocked exactly
    when the SELECT on the master returns a row, that is when a console is
    registered there already: then the mode becomes fail, [old_mode] keeps
    the mode before and no INSERT is sent; when the SELECT returns no row
    the INSERT is sent and the mode stays.  In no other case does the mode
    change.  A console whose mode is fail sends nothing to the master in
    any later call, so it never removes the registration of the console
    that was first. *)
Theorem register_instance_blocks_for_good (clear reg : bool) (d d' : t M)
    (returned : str) :
  register clear reg d = Some (returned, d') →
  returned = mode d' ∧
  (mode d' = mode d ∧ old_mode d' = old_mode d ∨
   reg = true ∧ mode d ≠ lit "fail" ∧ mode d' = lit "fail" ∧
   old_mode d' = Some (mode d)) ∧
  (∀ m, master d = Some m → mode d ≠ lit "fail" → reg = true →
     ∃ m0 r1 r2,
       before_select clear m m0 r1 ∧
       exec_query (SELECT_FC_TABLE (host_port m0).1 (host_port m0).2) r1.1
       = Some r2 ∧
       (r2.2 = [] →
        mode d' = mode d ∧ old_mode d' = old_mode d ∧
        master d'
        = (m3 ← commit r2.1;
           r3 ← exec_query
                  (INSERT_FC_TABLE (host_port m0).1 (host_port m0).2) m3;
           toggle_binlog true r3.1)) ∧
       (r2.2 ≠ [] →
        mode d' = lit "fail" ∧ old_mode d' = Some (mode d) ∧
        master d' = commit r2.1 ≫= toggle_binlog true)) ∧
  (mode d' = lit "fail" →
   ∀ clear' reg', register clear' reg' d' = Some (lit "fail", d')).
Proof.
  intros H.
  assert (returned = mode d' ∧
          (mode d' = mode d ∧ old_mode d' = old_mode d ∨
           reg = true ∧ mode d ≠ lit "fail" ∧ mode d' = lit "fail" ∧
           old_mode d' = Some (mode d))) as (H1 & H2).
  { revert H. unfold register, register_instance.
    destruct (master d) as [m|]; [|intros [= <- <-]; tauto].
    destruct (eqs (mode d) (lit "fail")) eqn:Efail;
      [intros [= <- <-]; tauto|].
    apply bool_decide_eq_false in Efail.
    destruct (toggle_binlog false m) as [m1|]; [|discriminate].
    cbn [mbind option_bind].
    destruct (if clear then _ else _) as [m2|]; [|discriminate].
    cbn [mbind option_bind].
    destruct reg.
    - destruct (exec_query CREATE_FC_TABLE m2) as [r1|]; [|discriminate].
      cbn [mbind option_bind].
      destruct (exec_query (SELECT_FC_TABLE _ _) _) as [r2|]; [|discriminate].
      cbn [mbind option_bind].
      destruct (commit _) as [m3|]; [|discriminate].
      cbn [mbind option_bind].
      destruct (truthy r2.2).
      + cbn [mbind option_bind fst snd].
        destruct (toggle_binlog true m3) as [m4|]; [|discriminate].
        cbn [mbind option_bind]. intros [= <- <-].
        split; [reflexivity|]. right. repeat split. exact Efail.
      + destruct (exec_query (INSERT_FC_TABLE _ _) _) as [r3|]; [|discriminate].
        cbn [mbind option_bind fst snd].
        destruct (toggle_binlog true _) as [m4|]; [|discriminate].
        cbn [mbind option_bind]. intros [= <- <-].
        split; [reflexivity|]. left. split; reflexivity.
    - destruct (negb _).
      + destruct (exec_query (DELETE_FC_TABLE _ _) _) as [r3|]; [|discriminate].
        cbn [mbind option_bind fst snd].
        destruct (toggle_binlog true _) as [m4|]; [|discriminate].
        cbn [mbind option_bind]. intros [= <- <-].
        split; [reflexivity|]. left. split; reflexivity.
      + cbn [mbind option_bind fst snd].
        destruct (toggle_binlog true _) as [m4|]; [|discriminate].
        cbn [mbind option_bind]. intros [= <- <-].
        split; [reflexivity|]. left. split; reflexivity. }
  split; [exact H1|]. split; [exact H2|]. split.
  - intros m Hm Hmode ->. revert H. unfold register, register_instance.
    rewrite Hm. destruct (eqs (mode d) (lit "fail")) eqn:Efail.
    { apply bool_decide_eq_true in Efail. done. }
    destruct (toggle_binlog false m) as [m0|]; [|discriminate].
    cbn [mbind option_bind].
    destruct (if clear then _ else _) as [m1|] eqn:Hdrop; [|discriminate].
    cbn [mbind option_bind].
    destruct (exec_query CREATE_FC_TABLE m1) as [r1|] eqn:Hc; [|discriminate].
    cbn [mbind option_bind].
    destruct (exec_query (SELECT_FC_TABLE _ _) _) as [r2|] eqn:Hsel;
      [|discriminate].
    cbn [mbind option_bind].
    intros H. exists m0, r1, r2.
    split; [split; [reflexivity | rewrite Hdrop; exact Hc]|].
    split; [exact Hsel|]. revert H.
    destruct (commit _) as [m3|]; [|discriminate].
    cbn [mbind option_bind].
    destruct r2.2 as [|row found]; cbn [truthy].
    + destruct (exec_query (INSERT_FC_TABLE _ _) _) as [r3|]; [|discriminate].
      cbn [mbind option_bind fst snd].
      destruct (toggle_binlog true _) as [m4|]; [|discriminate].
      cbn [mbind option_bind]. intros [= <- <-].
      split; [|done]. intros _. repeat split.
    + cbn [mbind option_bind fst snd].
      destruct (toggle_binlog true m3) as [m4|]; [|discriminate].
      cbn [mbind option_bind]. intros [= <- <-].
      split; [done|]. intros _. repeat split.
  - intros Hfail clear' reg'. apply register_blocked, Hfail.
Qed.

End Registration.

(** Two consoles on one master: the first registers, the second finds the
    registration and is blocked; when the second leaves, the registration
    of the first stays, and when the first leaves, it goes. *)
Example two_consoles_register :
  let m0 : RegistrationExamples.master := None in
  let reg := RegistrationExamples.register_instance in
  ∃ a1 b1 b2 a2 m1 m2,
    reg false true (RegistrationExamples.console m0) = Some (lit "auto", a1) ∧
    FailoverConsole.master a1 = Some m1 ∧
    m1 = Some [(lit "db1", lit "3306")] ∧
    reg false true (RegistrationExamples.console m1) = Some (lit "fail", b1) ∧
    reg false false b1 = Some (lit "fail", b2) ∧
    FailoverConsole.master b2 = Some m1 ∧
    reg false false (FailoverConsole.set_master (Some m1) a1)
    = Some (lit "auto", a2) ∧
    FailoverConsole.master a2 = Some m2 ∧ m2 = Some [].
Proof.
  intros m0 reg. eexists _, _, _, _, _, _.
  split; [vm_compute; reflexivity|].
  split; [reflexivity|]. split; [reflexivity|].
  split; [vm_compute; reflexivity|].
  split; [vm_compute; reflexivity|].
  split; [reflexivity|].
  split; [vm_compute; reflexivity|].
  split; reflexivity.
Qed.

Lemma register_instance_blocks_for_good_witness :
  (∃ d', RegistrationExamples.register_instance false true
           (RegistrationExamples.console None) = Some (lit "auto", d') ∧
         FailoverConsole.mode d' = lit "auto" ∧
         FailoverConsole.old_mode d' = None) ∧
  (∃ d', RegistrationExamples.register_instance false true
           (RegistrationExamples.console (Some [(lit "db1", lit "3306")]))
         = Some (lit "fail", d') ∧
         FailoverConsole.old_mode d' = Some (lit "auto") ∧
         RegistrationExamples.register_instance false false d'
         = Some (lit "fail", d')).
Proof.
  split.
  - eexists. split; [vm_compute; reflexivity|].
    match goal with
    | |- FailoverConsole.mode ?d' = _ ∧ _ =>
        destruct (register_instance_blocks_for_good
                    RegistrationExamples.host_port
                    RegistrationExamples.toggle_binlog
                    RegistrationExamples.exec_query
                    RegistrationExamples.commit false true
                    (RegistrationExamples.console None) d' (lit "auto"))
          as (_ & _ & H & _); [vm_compute; reflexivity|]
    end.
    destruct (H None) as (m0 & r1 & r2 & (Ht & Hc) & Hsel & Hfree & _);
      [reflexivity | discriminate | reflexivity |].
    injection Ht as <-. cbn in Hc. injection Hc as <-.
    cbn in Hsel. injection Hsel as <-.
    destruct (Hfree eq_refl) as (Hmode & Hold & _).
    split; [exact Hmode | exact Hold].
  - eexists. split; [vm_compute; reflexivity|].
    match goal with
    | |- FailoverConsole.old_mode ?d' = _ ∧ _ =>
        destruct (register_instance_blocks_for_good
                    RegistrationExamples.host_port
                    RegistrationExamples.toggle_binlog
                    RegistrationExamples.exec_query
                    RegistrationExamples.commit false true
                    (RegistrationExamples.console
                       (Some [(lit "db1", lit "3306")])) d' (lit "fail"))
          as (_ & _ & H & Hfail); [vm_compute; reflexivity|]
    end.
    destruct (H (Some [(lit "db1", lit "3306")]))
      as (m0 & r1 & r2 & (Ht & Hc) & Hsel & _ & Hheld);
      [reflexivity | discriminate | reflexivity |].
    injection Ht as <-. cbn in Hc. injection Hc as <-.
    vm_compute in Hsel. injection Hsel as <-.
    destruct Hheld as (Hmode & Hold & _); [discriminate|].
    split; [exact Hold|]. apply Hfail. exact Hmode.
Defined.
